(** * osmem: a shallow embedding of the block manager of [src/osmem.c]

    The allocator keeps two circular doubly-linked lists of block headers
    ([struct block_meta]), one for the program-break heap and one for the
    anonymous mappings, each with a global sentinel.  The development models
    the headers as a finite map from addresses to records, the kernel
    ([sbrk], [mmap], [munmap]) as explicit state, and every C function as a
    computation in a state-and-failure monad.  List walks are bounded by the
    number of headers in memory.

    Contents: the model of the code; the invariants of the two lists
    ([heap_repr], [heap_ok], [mmap_ok]); that the heap branch returns and
    keeps the invariants ([heap_alloc_ok]); and the properties of the four
    primitives. *)

From Stdlib Require Import ZArith Lia.
From stdpp Require Import base option list gmap.

Local Open Scope Z_scope.

(** ** Machine arithmetic *)

(** [size_t] is 64 bits wide; arithmetic on it wraps.  Addresses are plain
    integers: the kernel below keeps them under [ADDR_MAX], and pointer
    arithmetic that leaves the address space is undefined in C. *)
Definition wrap64 (z : Z) : Z := z mod 2 ^ 64.

(** [sbrk] takes an [intptr_t]: a [size_t] argument is reinterpreted as a
    signed 64-bit integer. *)
Definition signed64 (z : Z) : Z :=
  if wrap64 z <? 2 ^ 63 then wrap64 z else wrap64 z - 2 ^ 64.

Definition NULL : Z := 0.

(** [#define BRK_LIMIT (128 * 1024)] *)
Definition BRK_LIMIT : Z := 128 * 1024.

(** [#define ALIGNMENT 8] *)
Definition ALIGNMENT : Z := 8.

(** [#define SIZE_ALIGN(size) (((size) + (ALIGNMENT - 1)) & ~(ALIGNMENT - 1))] *)
Definition SIZE_ALIGN (size : Z) : Z :=
  Z.land (wrap64 (size + (ALIGNMENT - 1))) (Z.lnot (ALIGNMENT - 1)).

(** Modelled from the spec: [block_meta.h] is not among the sources.  The
    header record has a size, a status and two links; the spec's scenarios
    take its size to be 32 bytes. *)
Definition sizeof_block_meta : Z := 32.

(** [#define META_DATA_SIZE SIZE_ALIGN(sizeof(TBlock_meta))] *)
Definition META_DATA_SIZE : Z := SIZE_ALIGN sizeof_block_meta.

(** Modelled from the spec: the three status codes of [block_meta.h]
    (FREE, ALLOCATED, MAPPED), distinct from each other and from the [-1]
    the sentinels carry. *)
Definition STATUS_FREE : Z := 0.
Definition STATUS_ALLOC : Z := 1.
Definition STATUS_MAPPED : Z := 2.

(** ** Data model *)

(** [struct block_meta]: the in-band header of a block. *)
Record block_meta := Block {
  m_size : Z;
  m_status : Z;
  m_prev : Z;
  m_next : Z;
}.

Definition with_size (v : Z) (m : block_meta) : block_meta :=
  Block v (m_status m) (m_prev m) (m_next m).
Definition with_status (v : Z) (m : block_meta) : block_meta :=
  Block (m_size m) v (m_prev m) (m_next m).
Definition with_prev (v : Z) (m : block_meta) : block_meta :=
  Block (m_size m) (m_status m) v (m_next m).
Definition with_next (v : Z) (m : block_meta) : block_meta :=
  Block (m_size m) (m_status m) (m_prev m) v.

(** Calls of the string routines, most recent first. *)
Inductive event :=
  | Memcpy (dst src n : Z)
  | Memset (dst n : Z).

(** The process: headers in memory by address (the two global sentinels
    included), payload bytes, the program break, the live anonymous mappings
    (address and length) and the address the kernel hands out next.
    Headers and payload bytes are kept apart: [memcpy] and [memset] act on
    the bytes and leave the headers alone, and every call of theirs is
    recorded in the trace with its length. *)
Record state := State {
  hdr : gmap Z block_meta;
  mem : Z → Z;
  brk : Z;
  maps : list (Z * Z);
  mmap_next : Z;
  trace : list event;
}.

Definition set_hdr (f : gmap Z block_meta → gmap Z block_meta) (st : state) : state :=
  State (f (hdr st)) (mem st) (brk st) (maps st) (mmap_next st) (trace st).

Definition set_brk (b : Z) (st : state) : state :=
  State (hdr st) (mem st) b (maps st) (mmap_next st) (trace st).

(** Addresses of the globals [block_head_brk] and [block_head_mmap]. *)
Definition block_head_brk : Z := 4128.
Definition block_head_mmap : Z := 4160.

(** The globals are zero-initialised; the heap starts at the initial break,
    the first mapping goes to 2^46. *)
Definition initial_state : state :=
  State {[ block_head_brk := Block 0 0 0 0; block_head_mmap := Block 0 0 0 0 ]}
        (λ _, 0) 1048576 [] 70368744177664 [].

(** ** The monad of C computations: state, and failure for a fault or an
    abort through [DIE] *)

Definition M (A : Type) : Type := state → option (A * state).

Definition ret {A} (a : A) : M A := λ st, Some (a, st).
Definition bind {A B} (c : M A) (k : A → M B) : M B :=
  λ st, match c st with
        | Some (a, st') => k a st'
        | None => None
        end.
Definition fail {A} : M A := λ _, None.

Declare Scope c_scope.
Delimit Scope c_scope with C.
Notation "x <- c ;; k" := (bind c (λ x, k))
  (at level 20, c at level 99, k at level 200, only parsing) : c_scope.
Notation "c ;;; k" := (bind c (λ _, k))
  (at level 100, k at level 200, only parsing, right associativity) : c_scope.
Local Open Scope c_scope.

(** Reading a header faults where there is none. *)
Definition load (a : Z) : M block_meta :=
  λ st, match hdr st !! a with
        | Some m => Some (m, st)
        | None => None
        end.

(** Writing a whole header.  The header goes to [hdr]; the bytes it
    occupies are not tracked in [mem], which says nothing about an address
    once a header has been placed there. *)
Definition store (a : Z) (m : block_meta) : M unit :=
  λ st, Some (tt, set_hdr (insert a m) st).

(** Writing one field of an existing header. *)
Definition update (a : Z) (f : block_meta → block_meta) : M unit :=
  m <- load a ;; store a (f m).

(** The bound on list walks: a walk that visits more cells than there are
    headers in memory does not come back to the sentinel. *)
Definition bounded {A} (loop : nat → M A) : M A :=
  λ st, loop (S (size (hdr st))) st.

(** ** The kernel *)

Definition getpagesize : Z := 4096.

(** The address space: the program break stays below [BRK_MAX], mappings
    are placed from [BRK_MAX] up and end below [ADDR_MAX].  A call that does
    not fit fails, and the caller aborts through [DIE]. *)
Definition BRK_MAX : Z := 2 ^ 46.
Definition ADDR_MAX : Z := 2 ^ 47.

(** [sbrk(increment)]: returns the previous break. *)
Definition sbrk (increment : Z) : M Z :=
  λ st, if decide (0 ≤ brk st + signed64 increment ≤ BRK_MAX) then
          Some (brk st, set_brk (brk st + signed64 increment) st)
        else None.

(** [mmap(NULL, len, ...)]: a fresh zeroed mapping, placed at the next free
    page-aligned address.  A mapping of length zero is refused. *)
Definition mmap (len : Z) : M Z :=
  λ st, let addr := mmap_next st in
        if decide (len = 0 ∨ ADDR_MAX < addr + len) then None else
        Some (addr,
              State (hdr st)
                    (λ a, if decide (addr ≤ a < addr + len) then 0 else mem st a)
                    (brk st) (maps st ++ [(addr, len)])
                    (addr + (len + getpagesize - 1) / getpagesize * getpagesize)
                    (trace st)).

(** [munmap(addr, len)]: the header stored at [addr] goes with the mapping. *)
Definition munmap (addr len : Z) : M unit :=
  λ st, Some (tt,
              State (delete addr (hdr st)) (mem st) (brk st)
                    (filter (λ r, r ≠ (addr, len)) (maps st))
                    (mmap_next st) (trace st)).

Definition memcpy (dst src n : Z) : M unit :=
  λ st, Some (tt,
              State (hdr st)
                    (λ a, if decide (dst ≤ a < dst + n) then mem st (src + (a - dst))
                          else mem st a)
                    (brk st) (maps st) (mmap_next st) (Memcpy dst src n :: trace st)).

Definition memset0 (dst n : Z) : M unit :=
  λ st, Some (tt,
              State (hdr st)
                    (λ a, if decide (dst ≤ a < dst + n) then 0 else mem st a)
                    (brk st) (maps st) (mmap_next st) (Memset dst n :: trace st)).

(** ** The mapped list *)

Definition init_list_mmap : M unit :=
  update block_head_mmap (with_status (-1)) ;;;
  update block_head_mmap (with_size 0) ;;;
  update block_head_mmap (with_next block_head_mmap) ;;;
  update block_head_mmap (with_prev block_head_mmap).

Definition add_meta_cell_mmap (size : Z) : M Z :=
  h <- load block_head_mmap ;;
  (if decide (m_size h = 0) then init_list_mmap else ret tt) ;;;
  let total_size := wrap64 (META_DATA_SIZE + SIZE_ALIGN size) in
  addr <- mmap total_size ;;
  let cell := addr in
  h <- load block_head_mmap ;;
  store cell (Block (SIZE_ALIGN size) STATUS_MAPPED (m_prev h) block_head_mmap) ;;;
  h <- load block_head_mmap ;;
  update (m_prev h) (with_next cell) ;;;
  update block_head_mmap (with_prev cell) ;;;
  ret (addr + META_DATA_SIZE).

Definition delete_meta_cell_mmap (cell : Z) : M unit :=
  c <- load cell ;;
  update (m_prev c) (with_next (m_next c)) ;;;
  c <- load cell ;;
  update (m_next c) (with_prev (m_prev c)) ;;;
  c <- load cell ;;
  munmap cell (wrap64 (META_DATA_SIZE + m_size c)).

(** ** The heap list *)

Definition init_list_brk : M unit :=
  update block_head_brk (with_status (-1)) ;;;
  update block_head_brk (with_size 1) ;;;
  update block_head_brk (with_next block_head_brk) ;;;
  update block_head_brk (with_prev block_head_brk).

(** The four assignments to the fields of [cell] are one store:
    [last_cell->next] is read between them, and reads the same value before
    and after the two that precede it, also when [last_cell] is [cell]. *)
Definition add_meta_cell_brk (last_cell cell size status : Z) : M Z :=
  l <- load last_cell ;;
  store cell (Block (SIZE_ALIGN size) status last_cell (m_next l)) ;;;
  l <- load last_cell ;;
  update (m_next l) (with_prev cell) ;;;
  update last_cell (with_next cell) ;;;
  ret (cell + META_DATA_SIZE).

Definition delete_meta_cell_brk (cell : Z) : M unit :=
  c <- load cell ;;
  update (m_prev c) (with_next (m_next c)) ;;;
  c <- load cell ;;
  update (m_next c) (with_prev (m_prev c)).

Definition heap_preallocation : M unit :=
  init_list_brk ;;;
  heap_start <- sbrk BRK_LIMIT ;;
  add_meta_cell_brk block_head_brk heap_start
    (wrap64 (BRK_LIMIT - META_DATA_SIZE)) STATUS_FREE ;;;
  ret tt.

(** The [while] of [coalesce_block]: unlink the FREE cells that follow. *)
Fixpoint coalesce_block_loop (fuel : nat) (free_curr : Z) : M Z :=
  match fuel with
  | O => fail
  | S fuel' =>
    if decide (free_curr = block_head_brk) then ret free_curr else
    f <- load free_curr ;;
    if decide (m_status f = STATUS_FREE) then
      delete_meta_cell_brk free_curr ;;;
      f <- load free_curr ;;
      coalesce_block_loop fuel' (m_next f)
    else ret free_curr
  end.

Definition coalesce_block (curr_cell : Z) : M unit :=
  c <- load curr_cell ;;
  free_curr <- bounded (λ fuel, coalesce_block_loop fuel (m_next c)) ;;
  update curr_cell (with_next free_curr) ;;;
  let start := curr_cell in
  stop <- (if decide (free_curr = block_head_brk) then sbrk 0 else ret free_curr) ;;
  update curr_cell (with_size (wrap64 (stop - start - META_DATA_SIZE))).

Fixpoint coalesce_blocks_loop (fuel : nat) (curr_cell : Z) : M unit :=
  match fuel with
  | O => fail
  | S fuel' =>
    if decide (curr_cell = block_head_brk) then ret tt else
    c <- load curr_cell ;;
    (if decide (m_status c = STATUS_FREE) then coalesce_block curr_cell else ret tt) ;;;
    c <- load curr_cell ;;
    coalesce_blocks_loop fuel' (m_next c)
  end.

Definition coalesce_blocks : M unit :=
  h <- load block_head_brk ;;
  bounded (λ fuel, coalesce_blocks_loop fuel (m_next h)).

Definition use_unused_space (addr size_used : Z) : M unit :=
  let cell := addr in
  let start := addr + META_DATA_SIZE + SIZE_ALIGN size_used in
  c <- load cell ;;
  stop <- (if decide (m_next c ≠ block_head_brk) then ret (m_next c) else sbrk 0) ;;
  if decide (META_DATA_SIZE < wrap64 (stop - start)) then
    add_meta_cell_brk addr start (wrap64 (stop - start - META_DATA_SIZE)) STATUS_FREE ;;;
    ret tt
  else ret tt.

(** The [while] of [search_best_fit]; [best_fit] is [NULL] until a FREE
    block of at least [size] bytes is met. *)
Fixpoint best_fit_loop (fuel : nat) (size curr_cell best_fit : Z) : M Z :=
  match fuel with
  | O => fail
  | S fuel' =>
    if decide (curr_cell = block_head_brk) then ret best_fit else
    c <- load curr_cell ;;
    best_fit <-
      (if decide (m_status c = STATUS_FREE) then
         let best_fit :=
           if bool_decide (best_fit = NULL) && bool_decide (size ≤ m_size c)
           then curr_cell else best_fit in
         if bool_decide (best_fit ≠ NULL) && bool_decide (size ≤ m_size c) then
           b <- load best_fit ;;
           ret (if decide (m_size c < m_size b) then curr_cell else best_fit)
         else ret best_fit
       else ret best_fit) ;;
    best_fit_loop fuel' size (m_next c) best_fit
  end.

Definition search_best_fit (size : Z) : M Z :=
  h <- load block_head_brk ;;
  best_fit <- bounded (λ fuel, best_fit_loop fuel size (m_next h) NULL) ;;
  if decide (best_fit ≠ NULL) then
    delete_meta_cell_brk best_fit ;;;
    b <- load best_fit ;;
    add_meta_cell_brk (m_prev b) best_fit (SIZE_ALIGN size) STATUS_ALLOC ;;;
    b <- load best_fit ;;
    use_unused_space best_fit (m_size b) ;;;
    ret (best_fit + META_DATA_SIZE)
  else ret NULL.

Definition increase_heap (size : Z) : M Z :=
  h <- load block_head_brk ;;
  let last_cell := m_prev h in
  l <- load last_cell ;;
  if decide (m_status l = STATUS_FREE) then
    let last_addr := last_cell + META_DATA_SIZE + m_size l in
    stop <- sbrk 0 ;;
    let rem_size := wrap64 (SIZE_ALIGN size - m_size l - (stop - last_addr)) in
    sbrk rem_size ;;;
    delete_meta_cell_brk last_cell ;;;
    l <- load last_cell ;;
    add_meta_cell_brk (m_prev l) last_cell (SIZE_ALIGN size) STATUS_ALLOC
  else
    let total_size := wrap64 (META_DATA_SIZE + SIZE_ALIGN size) in
    start <- sbrk total_size ;;
    add_meta_cell_brk last_cell start (SIZE_ALIGN size) STATUS_ALLOC.

(** ** The four primitives *)

(** The heap branch shared by [os_malloc] and [os_calloc]. *)
Definition heap_alloc (size : Z) : M Z :=
  h <- load block_head_brk ;;
  (if decide (m_size h = 0) then heap_preallocation else ret tt) ;;;
  coalesce_blocks ;;;
  return_addr <- search_best_fit size ;;
  if decide (return_addr = NULL) then increase_heap size else ret return_addr.

Definition os_malloc (size : Z) : M Z :=
  if decide (size = 0) then ret NULL else
  if decide (BRK_LIMIT ≤ size) then add_meta_cell_mmap size
  else heap_alloc size.

Definition os_free (ptr : Z) : M unit :=
  if decide (ptr = NULL) then ret tt else
  let cell_addr := ptr - META_DATA_SIZE in
  c <- load cell_addr ;;
  (if decide (m_status c = STATUS_ALLOC)
   then update cell_addr (with_status STATUS_FREE) else ret tt) ;;;
  c <- load cell_addr ;;
  if decide (m_status c = STATUS_MAPPED)
  then delete_meta_cell_mmap cell_addr else ret tt.

Definition os_calloc (nmemb size : Z) : M Z :=
  let page_size := if decide (4080 < getpagesize) then 4080 else getpagesize in
  let total_size := wrap64 (nmemb * size) in
  if decide (total_size = 0) then ret NULL else
  return_addr <-
    (if decide (page_size ≤ total_size) then add_meta_cell_mmap total_size
     else heap_alloc total_size) ;;
  memset0 return_addr (SIZE_ALIGN total_size) ;;;
  ret return_addr.

(** The ALLOCATED branch of [os_realloc] below the mapping threshold. *)
Definition realloc_heap (ptr cell_addr size : Z) : M Z :=
  c <- load cell_addr ;;
  if decide (SIZE_ALIGN size ≤ m_size c) then
    update cell_addr (with_size (SIZE_ALIGN size)) ;;;
    use_unused_space cell_addr (SIZE_ALIGN size) ;;;
    ret ptr
  else
    let old_size := m_size c in
    coalesce_block cell_addr ;;;
    c <- load cell_addr ;;
    if decide (SIZE_ALIGN size ≤ m_size c) then
      update cell_addr (with_size (SIZE_ALIGN size)) ;;;
      update cell_addr (with_status STATUS_ALLOC) ;;;
      c <- load cell_addr ;;
      use_unused_space cell_addr (SIZE_ALIGN (m_size c)) ;;;
      ret ptr
    else
      if bool_decide (m_next c = block_head_brk) && bool_decide (old_size = m_size c) then
        let total_size := wrap64 (SIZE_ALIGN size - m_size c) in
        sbrk total_size ;;;
        update cell_addr (with_size (SIZE_ALIGN size)) ;;;
        ret (cell_addr + META_DATA_SIZE)
      else
        return_addr <- os_malloc size ;;
        update cell_addr (with_status STATUS_FREE) ;;;
        c <- load cell_addr ;;
        memcpy return_addr (cell_addr + META_DATA_SIZE) (m_size c) ;;;
        ret return_addr.

Definition os_realloc (ptr size : Z) : M Z :=
  if decide (ptr = NULL) then
    if decide (BRK_LIMIT ≤ size) then add_meta_cell_mmap size else os_malloc size
  else
  if decide (size = 0) then os_free ptr ;;; ret NULL else
  let cell_addr := ptr - META_DATA_SIZE in
  c <- load cell_addr ;;
  if decide (m_status c = STATUS_FREE) then ret NULL else
  if bool_decide (m_status c = STATUS_ALLOC) && bool_decide (BRK_LIMIT ≤ size) then
    update cell_addr (with_status STATUS_FREE) ;;;
    return_addr <- add_meta_cell_mmap size ;;
    c <- load cell_addr ;;
    memcpy return_addr (cell_addr + META_DATA_SIZE) (m_size c) ;;;
    ret return_addr
  else
  return_addr <-
    (if decide (m_status c = STATUS_ALLOC) then realloc_heap ptr cell_addr size
     else ret NULL) ;;
  c <- load cell_addr ;;
  if decide (m_status c = STATUS_MAPPED) then
    if decide (BRK_LIMIT ≤ size) then
      return_addr <- add_meta_cell_mmap size ;;
      memcpy return_addr (cell_addr + META_DATA_SIZE) size ;;;
      delete_meta_cell_mmap cell_addr ;;;
      ret return_addr
    else
      return_addr <- os_malloc size ;;
      memcpy return_addr (cell_addr + META_DATA_SIZE) size ;;;
      delete_meta_cell_mmap cell_addr ;;;
      ret return_addr
  else ret return_addr.

(** ** Well-formed heaps *)

(** The heap lies above the globals. *)
Definition heap_lo : Z := block_head_mmap + sizeof_block_meta.

(** [chain h p lo l e hi]: the cells at the addresses [l] are linked in this
    order, the first back to [p] and the last on to [e]; they are 8-byte
    aligned, lie in increasing address order between [lo] and [hi], and no
    payload runs into the next header. *)
Fixpoint chain (h : gmap Z block_meta) (p lo : Z) (l : list Z) (e hi : Z) : Prop :=
  match l with
  | [] => lo ≤ hi
  | a :: l' =>
    ∃ m, h !! a = Some m ∧ m_prev m = p ∧ m_next m = hd e l' ∧
         lo ≤ a ∧ a mod 8 = 0 ∧ 0 ≤ m_size m ∧ m_size m mod 8 = 0 ∧
         chain h a (a + META_DATA_SIZE + m_size m) l' e hi
  end.

(** [heap_repr st l]: the heap list of [st], walked from the sentinel, is
    [l], and fills part of the heap below the break. *)
Definition heap_repr (st : state) (l : list Z) : Prop :=
  ∃ hm, hdr st !! block_head_brk = Some hm ∧
        m_size hm ≠ 0 ∧
        m_next hm = hd block_head_brk l ∧
        m_prev hm = List.last l block_head_brk ∧
        chain (hdr st) block_head_brk heap_lo l block_head_brk (brk st) ∧
        brk st mod 8 = 0 ∧ brk st ≤ BRK_MAX.

(** Before the first heap request the sentinel still has size 0. *)
Definition heap_fresh (st : state) : Prop :=
  ∃ hm, hdr st !! block_head_brk = Some hm ∧ m_size hm = 0 ∧
        heap_lo ≤ brk st ∧ brk st mod 8 = 0 ∧ brk st ≤ BRK_MAX.

Definition heap_ok (st : state) : Prop :=
  heap_fresh st ∨ ∃ l, l ≠ [] ∧ heap_repr st l.

(** The mapped side: the sentinel is in memory with the size 0 it always
    has, and the kernel places mappings above the heap. *)
Definition mmap_ok (st : state) : Prop :=
  ∃ hm, hdr st !! block_head_mmap = Some hm ∧ m_size hm = 0 ∧
        BRK_MAX ≤ mmap_next st.

(** [heap_split st l1 l2 lo_c hi_c]: the heap list is [l1 ++ l2], the cells
    of [l1] end at or below [lo_c] and those of [l2] start at or above
    [hi_c]: between the two a cell can be linked. *)
Definition heap_split (st : state) (l1 l2 : list Z) (lo_c hi_c : Z) : Prop :=
  ∃ hm, hdr st !! block_head_brk = Some hm ∧
        m_size hm ≠ 0 ∧
        m_next hm = hd block_head_brk (l1 ++ l2) ∧
        m_prev hm = List.last (l1 ++ l2) block_head_brk ∧
        chain (hdr st) block_head_brk heap_lo l1 (hd block_head_brk l2) lo_c ∧
        chain (hdr st) (List.last l1 block_head_brk) hi_c l2 block_head_brk (brk st) ∧
        brk st mod 8 = 0 ∧ brk st ≤ BRK_MAX.

(** Addresses that hold no cell of the heap list: below the heap or from
    [BRK_MAX] up, the heap sentinel apart. *)
Definition outside_heap (b : Z) : Prop :=
  b ≠ block_head_brk ∧ (b < heap_lo ∨ BRK_MAX ≤ b).

(** ** Best fit, in the words of the specification *)

(** A cell fits a request when it is FREE and at least as large. *)
Definition fits (h : gmap Z block_meta) (size a : Z) : Prop :=
  ∃ m, h !! a = Some m ∧ m_status m = STATUS_FREE ∧ size ≤ m_size m.

(** [best_fit_of h size l r]: among the cells of [l] that fit, [r] is the
    smallest, and the earliest of the smallest; [r] is [NULL] when none
    fits. *)
Definition best_fit_of (h : gmap Z block_meta) (size : Z) (l : list Z) (r : Z) : Prop :=
  (r = NULL ∧ ∀ a, a ∈ l → ¬ fits h size a) ∨
  (∃ l1 l2 m,
     l = l1 ++ r :: l2 ∧ h !! r = Some m ∧ m_status m = STATUS_FREE ∧
     size ≤ m_size m ∧
     (∀ a m', a ∈ l1 → h !! a = Some m' → m_status m' = STATUS_FREE →
              size ≤ m_size m' → m_size m < m_size m') ∧
     (∀ a m', a ∈ l2 → h !! a = Some m' → m_status m' = STATUS_FREE →
              size ≤ m_size m' → m_size m ≤ m_size m')).

(** A header keeps its size and status from [h] to [h']. *)
Definition data_kept (h h' : gmap Z block_meta) (b : Z) : Prop :=
  ∀ m, h !! b = Some m →
       ∃ m', h' !! b = Some m' ∧ m_size m' = m_size m ∧ m_status m' = m_status m.

(** ** Observing the lists *)

(** The cells met from [a] on, following [next] links up to the sentinel. *)
Fixpoint cells_from (h : gmap Z block_meta) (sentinel : Z) (fuel : nat) (a : Z)
  : option (list Z) :=
  match fuel with
  | O => None
  | S fuel' =>
    if decide (a = sentinel) then Some []
    else match h !! a with
         | Some m => cons a <$> cells_from h sentinel fuel' (m_next m)
         | None => None
         end
  end.

Definition list_of (sentinel : Z) (st : state) : option (list Z) :=
  match hdr st !! sentinel with
  | Some m => cells_from (hdr st) sentinel (S (size (hdr st))) (m_next m)
  | None => None
  end.

Definition heap_list : state → option (list Z) := list_of block_head_brk.
Definition mapped_list : state → option (list Z) := list_of block_head_mmap.

(** The header a user pointer belongs to. *)
Definition header_of (st : state) (ptr : Z) : option block_meta :=
  hdr st !! (ptr - META_DATA_SIZE).

(** [os_malloc size] is served by a mapping, or by the heap, according to
    the status of the block it returns. *)
Definition served_by (status size : Z) (st : state) : Prop :=
  ∃ p st' m, os_malloc size st = Some (p, st') ∧
             header_of st' p = Some m ∧ m_status m = status.

(** The kernel has room for one more request of [size] bytes. *)
Definition room (size : Z) (st : state) : Prop :=
  brk st + 2 * BRK_LIMIT + 64 ≤ BRK_MAX ∧
  mmap_next st + size + 40 ≤ ADDR_MAX.

(** ** States of the scenarios *)

(** The heap after [p = os_malloc(100); q = os_malloc(200); os_free(p)]. *)
Definition freed_state : state :=
  State (<[4128 := Block 1 (-1) 1048944 1048576]>
         (<[4160 := Block 0 0 0 0]>
         (<[1048576 := Block 104 STATUS_FREE 4128 1048712]>
         (<[1048712 := Block 200 STATUS_ALLOC 1048576 1048944]>
         (<[1048944 := Block 130672 STATUS_FREE 1048712 4128]> ∅)))))
        (λ _, 0) 1179648 [] 70368744177664 [].

(** The heap after [os_malloc(131030)]: one ALLOCATED block of 131032
    bytes, 8 bytes short of the break. *)
Definition slack_state : state :=
  State (<[4128 := Block 1 (-1) 1048576 1048576]>
         (<[4160 := Block 0 0 0 0]>
         (<[1048576 := Block 131032 STATUS_ALLOC 4128 4128]> ∅)))
        (λ _, 0) 1179648 [] 70368744177664 [].

(** The heap after [os_malloc(131040)]: one ALLOCATED block that ends at the
    break. *)
Definition full_state : state :=
  State (<[4128 := Block 1 (-1) 1048576 1048576]>
         (<[4160 := Block 0 0 0 0]>
         (<[1048576 := Block 131040 STATUS_ALLOC 4128 4128]> ∅)))
        (λ _, 0) 1179648 [] 70368744177664 [].

(** [freed_state] with its first block cut down to 40 bytes and in use: 64
    bytes lie unused before the next header. *)
Definition shrunk_state : state :=
  State (<[4128 := Block 1 (-1) 1048944 1048576]>
         (<[4160 := Block 0 0 0 0]>
         (<[1048576 := Block 40 STATUS_ALLOC 4128 1048712]>
         (<[1048712 := Block 200 STATUS_ALLOC 1048576 1048944]>
         (<[1048944 := Block 130672 STATUS_FREE 1048712 4128]> ∅)))))
        (λ _, 0) 1179648 [] 70368744177664 [].

(** [freed_state] with the value 65 in every byte of [mem]: the blocks have
    been written to by their user. *)
Definition filled_state : state :=
  State (hdr freed_state) (λ _, 65) (brk freed_state) (maps freed_state)
        (mmap_next freed_state) (trace freed_state).

(** The state after [os_malloc(200000)] on a fresh process, up to the
    contents of the bytes. *)
Definition one_mapping_state : state :=
  State (<[4128 := Block 0 0 0 0]>
         (<[4160 := Block 0 (-1) 70368744177664 70368744177664]>
         (<[70368744177664 := Block 200000 STATUS_MAPPED 4160 4160]> ∅)))
        (λ _, 0) 1048576 [(70368744177664, 200032)] 70368744378368 [].

(** ** Coalesced heaps *)

(** The cell at [a] has a header whose status is FREE. *)
Definition is_free (h : gmap Z block_meta) (a : Z) : Prop :=
  ∃ m, h !! a = Some m ∧ m_status m = STATUS_FREE.

(** No FREE cell of the list is followed by a FREE cell. *)
Fixpoint no_adjacent_free (h : gmap Z block_meta) (l : list Z) : Prop :=
  match l with
  | [] => True
  | a :: l' =>
    (is_free h a → ∀ b, head l' = Some b → ¬ is_free h b) ∧ no_adjacent_free h l'
  end.

(** The payload of every FREE cell of the list runs up to the header of the
    next cell, and up to [e] for the last cell. *)
Fixpoint free_filled (h : gmap Z block_meta) (l : list Z) (e : Z) : Prop :=
  match l with
  | [] => True
  | a :: l' =>
    (∀ m, h !! a = Some m → m_status m = STATUS_FREE →
          a + META_DATA_SIZE + m_size m = hd e l') ∧
    free_filled h l' e
  end.

(** The heap after [p = os_malloc(100); q = os_malloc(200); os_free(p);
    os_free(q)]: three FREE cells in a row. *)
Definition two_freed_state : state :=
  State (<[4128 := Block 1 (-1) 1048944 1048576]>
         (<[4160 := Block 0 0 0 0]>
         (<[1048576 := Block 104 STATUS_FREE 4128 1048712]>
         (<[1048712 := Block 200 STATUS_FREE 1048576 1048944]>
         (<[1048944 := Block 130672 STATUS_FREE 1048712 4128]> ∅)))))
        (λ _, 0) 1179648 [] 70368744177664 [].

(** ** Reasoning about computations *)

Lemma bind_Some {A B} (c : M A) (k : A → M B) st r :
  bind c k st = Some r ↔ ∃ a st1, c st = Some (a, st1) ∧ k a st1 = Some r.
Proof.
  unfold bind. destruct (c st) as [[a st1]|].
  - split; [eauto | intros (? & ? & [= ? ?] & ?); by subst].
  - split; [done | intros (? & ? & ? & ?); done].
Qed.

Lemma bind_run {A B} (c : M A) (k : A → M B) st a st1 :
  c st = Some (a, st1) → bind c k st = k a st1.
Proof. unfold bind. by intros ->. Qed.

Lemma load_run a m st : hdr st !! a = Some m → load a st = Some (m, st).
Proof. unfold load. by intros ->. Qed.

Lemma load_Some a m st st1 :
  load a st = Some (m, st1) ↔ hdr st !! a = Some m ∧ st1 = st.
Proof.
  unfold load. destruct (hdr st !! a) as [m'|]; [|naive_solver].
  split; [intros [= ? ?]; by subst | intros [[= ?] ?]; by subst].
Qed.

Lemma update_run a f m st :
  hdr st !! a = Some m → update a f st = Some (tt, set_hdr (insert a (f m)) st).
Proof. intros H. unfold update. by rewrite (bind_run _ _ _ _ _ (load_run _ _ _ H)). Qed.

Lemma set_hdr_id st : set_hdr (λ h, h) st = st.
Proof. by destruct st. Qed.

Lemma set_hdr_eq f g st : set_hdr f st = set_hdr g st → f (hdr st) = g (hdr st).
Proof. intros H. by apply (f_equal hdr) in H. Qed.

(** ** [os_free] *)

Lemma os_free_alloc_run (ptr : Z) (st : state) (c : block_meta) :
  ptr ≠ NULL →
  hdr st !! (ptr - META_DATA_SIZE) = Some c →
  m_status c = STATUS_ALLOC →
  os_free ptr st
  = Some (tt, set_hdr (insert (ptr - META_DATA_SIZE) (with_status STATUS_FREE c)) st).
Proof.
  intros Hp Hc Hs. unfold os_free. rewrite decide_False by done.
  rewrite (bind_run _ _ _ _ _ (load_run _ _ _ Hc)).
  rewrite decide_True by done.
  rewrite (bind_run _ _ _ _ _ (update_run _ _ _ _ Hc)).
  erewrite bind_run; [|apply load_run; simpl; apply lookup_insert_eq].
  by rewrite decide_False.
Qed.

(** A walk depends on the [next] links only. *)
Lemma cells_from_ext (h h' : gmap Z block_meta) (sentinel : Z) (fuel : nat) (a : Z) :
  (∀ b, m_next <$> h' !! b = m_next <$> h !! b) →
  cells_from h' sentinel fuel a = cells_from h sentinel fuel a.
Proof.
  intros Hn. revert a. induction fuel as [|fuel IH]; intros a; [done|].
  cbn [cells_from]. case_decide; [done|]. specialize (Hn a).
  destruct (h !! a) as [m|], (h' !! a) as [m'|]; simpl in Hn; try done.
  injection Hn as ->. by rewrite IH.
Qed.

Lemma list_of_ext (sentinel : Z) (st st' : state) :
  (∀ b, m_next <$> hdr st' !! b = m_next <$> hdr st !! b) →
  dom (hdr st') = dom (hdr st) →
  list_of sentinel st' = list_of sentinel st.
Proof.
  intros Hn Hdom. unfold list_of. pose proof (Hn sentinel) as Hs.
  assert (Hsz : size (hdr st') = size (hdr st)) by (by rewrite <- !size_dom, Hdom).
  rewrite Hsz.
  destruct (hdr st !! sentinel) as [m|], (hdr st' !! sentinel) as [m'|];
    simpl in Hs; try done.
  injection Hs as ->. by apply cells_from_ext.
Qed.

(** C8.  Freeing an ALLOCATED heap block rewrites the status field of its
    header to FREE and nothing else: the size and the links of the block,
    every other header, the two lists as walked from their sentinels, the
    program break, the mappings, the payload bytes and the trace are as
    before. *)
Theorem os_free_alloc_frame (ptr : Z) (st : state) (c : block_meta) :
  ptr ≠ NULL →
  hdr st !! (ptr - META_DATA_SIZE) = Some c →
  m_status c = STATUS_ALLOC →
  ∃ st',
    os_free ptr st = Some (tt, st') ∧
    hdr st' !! (ptr - META_DATA_SIZE)
      = Some (Block (m_size c) STATUS_FREE (m_prev c) (m_next c)) ∧
    (∀ a, a ≠ ptr - META_DATA_SIZE → hdr st' !! a = hdr st !! a) ∧
    dom (hdr st') = dom (hdr st) ∧
    heap_list st' = heap_list st ∧ mapped_list st' = mapped_list st ∧
    brk st' = brk st ∧ maps st' = maps st ∧ mmap_next st' = mmap_next st ∧
    mem st' = mem st ∧ trace st' = trace st.
Proof.
  intros Hp Hc Hs.
  exists (set_hdr (insert (ptr - META_DATA_SIZE) (with_status STATUS_FREE c)) st).
  assert (Hdom : dom (<[ptr - META_DATA_SIZE := with_status STATUS_FREE c]> (hdr st))
                 = dom (hdr st)).
  { rewrite dom_insert_L. apply elem_of_dom_2 in Hc. set_solver. }
  assert (Hnext : ∀ b,
    m_next <$> <[ptr - META_DATA_SIZE := with_status STATUS_FREE c]> (hdr st) !! b
    = m_next <$> hdr st !! b).
  { intros b. destruct (decide (b = ptr - META_DATA_SIZE)) as [->|Hne].
    - by rewrite lookup_insert_eq, Hc.
    - by rewrite lookup_insert_ne. }
  split; [by apply os_free_alloc_run|].
  simpl. rewrite lookup_insert_eq.
  split_and!; try done.
  - by intros a Ha; rewrite lookup_insert_ne.
  - by apply list_of_ext.
  - by apply list_of_ext.
Qed.

Lemma os_free_alloc_frame_witness :
  ∃ st',
    os_free 1048608 full_state = Some (tt, st') ∧
    hdr st' !! 1048576 = Some (Block 131040 STATUS_FREE 4128 4128) ∧
    heap_list st' = heap_list full_state.
Proof.
  destruct (os_free_alloc_frame 1048608 full_state (Block 131040 STATUS_ALLOC 4128 4128))
    as (st' & H1 & H2 & _ & _ & H3 & _); [done | reflexivity | reflexivity |].
  exists st'. split_and!; [exact H1 | exact H2 | exact H3].
Defined.

(** C9.  Freeing a pointer whose header is already FREE leaves the whole
    state as it is; in particular the second of two frees of a heap block
    does nothing. *)
Theorem os_free_free_noop (ptr : Z) (st : state) (c : block_meta) :
  hdr st !! (ptr - META_DATA_SIZE) = Some c →
  m_status c = STATUS_FREE →
  os_free ptr st = Some (tt, st).
Proof.
  intros Hc Hs. unfold os_free. case_decide; [done|].
  rewrite (bind_run _ _ _ _ _ (load_run _ _ _ Hc)).
  rewrite decide_False by (by rewrite Hs).
  rewrite (bind_run _ _ _ _ _ eq_refl).
  rewrite (bind_run _ _ _ _ _ (load_run _ _ _ Hc)).
  by rewrite decide_False by (by rewrite Hs).
Qed.

Lemma os_free_free_noop_witness :
  os_free 1048608 freed_state = Some (tt, freed_state).
Proof.
  apply (os_free_free_noop 1048608 _ (Block 104 STATUS_FREE 4128 1048712));
    reflexivity.
Defined.

(** Freeing an ALLOCATED block twice does what freeing it once does. *)
Lemma os_free_twice (ptr : Z) (st : state) (c : block_meta) :
  ptr ≠ NULL →
  hdr st !! (ptr - META_DATA_SIZE) = Some c →
  m_status c = STATUS_ALLOC →
  (os_free ptr ;;; os_free ptr) st = os_free ptr st.
Proof.
  intros Hp Hc Hs. rewrite (os_free_alloc_run _ _ _ Hp Hc Hs).
  rewrite (bind_run _ _ _ _ _ (os_free_alloc_run _ _ _ Hp Hc Hs)).
  unfold os_free. rewrite decide_False by done.
  erewrite bind_run by (apply load_run; apply lookup_insert_eq).
  cbn [m_status with_status]. rewrite decide_False by done.
  rewrite (bind_run _ _ _ _ _ eq_refl).
  erewrite bind_run by (apply load_run; apply lookup_insert_eq).
  cbn [m_status with_status]. by rewrite decide_False.
Qed.

(** ** [os_realloc]: the edge cases *)

(** C7.  [os_realloc(NULL, n)] is [os_malloc(n)], result and state, and
    [os_realloc(p, 0)] runs [os_free(p)] and returns [NULL]. *)
Theorem os_realloc_edge_cases (n p : Z) (st : state) :
  os_realloc NULL n st = os_malloc n st ∧
  os_realloc p 0 st = (os_free p ;;; ret NULL) st.
Proof.
  split.
  - unfold os_realloc. rewrite decide_True by done.
    case_decide as Hn; [|done].
    unfold os_malloc. rewrite decide_False by (unfold BRK_LIMIT in Hn; lia).
    by rewrite decide_True.
  - unfold os_realloc. case_decide as Hp.
    + subst p. rewrite decide_False by (unfold BRK_LIMIT; lia).
      unfold os_malloc, os_free. by rewrite !decide_True.
    + by rewrite decide_True.
Qed.

(** ** Alignment arithmetic *)

Lemma land_lnot7 (x : Z) : Z.land x (Z.lnot 7) = 8 * (x / 8).
Proof.
  rewrite <- Z.ldiff_land. change 7 with (Z.ones 3).
  rewrite Z.ldiff_ones_r by lia.
  rewrite Z.shiftr_div_pow2, Z.shiftl_mul_pow2 by lia.
  change (2 ^ 3) with 8. lia.
Qed.

Lemma SIZE_ALIGN_eq (s : Z) : SIZE_ALIGN s = 8 * (wrap64 (s + 7) / 8).
Proof. unfold SIZE_ALIGN, ALIGNMENT. change (8 - 1) with 7. apply land_lnot7. Qed.

Lemma wrap64_range (z : Z) : 0 ≤ wrap64 z < 2 ^ 64.
Proof. unfold wrap64. apply Z.mod_pos_bound. lia. Qed.

Lemma wrap64_small (z : Z) : 0 ≤ z < 2 ^ 64 → wrap64 z = z.
Proof. unfold wrap64. intros. by apply Z.mod_small. Qed.

Lemma SIZE_ALIGN_range (s : Z) : 0 ≤ SIZE_ALIGN s ≤ 2 ^ 64 - 8.
Proof.
  rewrite SIZE_ALIGN_eq. pose proof (wrap64_range (s + 7)) as H.
  change (2 ^ 64) with (8 * 2305843009213693952) in *.
  assert (wrap64 (s + 7) / 8 < 2305843009213693952)
    by (apply Z.div_lt_upper_bound; lia).
  assert (0 ≤ wrap64 (s + 7) / 8) by (apply Z.div_pos; lia).
  lia.
Qed.

Lemma SIZE_ALIGN_mod8 (s : Z) : SIZE_ALIGN s mod 8 = 0.
Proof. rewrite SIZE_ALIGN_eq, Z.mul_comm. apply Z.mod_mul. lia. Qed.

Lemma SIZE_ALIGN_bounds (s : Z) :
  0 ≤ s ≤ 2 ^ 64 - 8 → s ≤ SIZE_ALIGN s < s + 8.
Proof.
  intros Hs. rewrite SIZE_ALIGN_eq, wrap64_small by lia.
  pose proof (Z.div_mod (s + 7) 8 ltac:(lia)).
  pose proof (Z.mod_pos_bound (s + 7) 8 ltac:(lia)). lia.
Qed.

Lemma SIZE_ALIGN_aligned (s : Z) :
  0 ≤ s < 2 ^ 64 → s mod 8 = 0 → SIZE_ALIGN s = s.
Proof.
  intros Hs Hm. rewrite SIZE_ALIGN_eq.
  pose proof (Z.div_mod s 8 ltac:(lia)) as Hd. rewrite Hm in Hd.
  assert (s ≤ 2 ^ 64 - 8) by lia.
  rewrite wrap64_small by lia.
  replace (s + 7) with (s / 8 * 8 + 7) by lia.
  rewrite Z.div_add_l by lia. change (7 / 8) with 0. lia.
Qed.

Lemma SIZE_ALIGN_idem (s : Z) : SIZE_ALIGN (SIZE_ALIGN s) = SIZE_ALIGN s.
Proof.
  apply SIZE_ALIGN_aligned; [|apply SIZE_ALIGN_mod8].
  pose proof (SIZE_ALIGN_range s). lia.
Qed.

Lemma META_DATA_SIZE_eq : META_DATA_SIZE = 32.
Proof. reflexivity. Qed.

(** A request is at least as large as a block exactly when its aligned size
    is, for blocks whose size is a multiple of 8. *)
Lemma le_SIZE_ALIGN (s b : Z) :
  0 ≤ s ≤ 2 ^ 64 - 8 → b mod 8 = 0 → (s ≤ b ↔ SIZE_ALIGN s ≤ b).
Proof.
  intros Hs Hb. pose proof (SIZE_ALIGN_bounds s Hs).
  pose proof (SIZE_ALIGN_mod8 s) as Ha.
  split; [|lia]. intros Hle.
  pose proof (Z.div_mod b 8 ltac:(lia)) as Hd. rewrite Hb in Hd.
  pose proof (Z.div_mod (SIZE_ALIGN s) 8 ltac:(lia)) as Hd'. rewrite Ha in Hd'.
  lia.
Qed.

(** ** Chains of cells *)

Lemma chain_lo_hi h p lo l e hi : chain h p lo l e hi → lo ≤ hi.
Proof.
  revert p lo. induction l as [|a l IH]; intros p lo; simpl; [done|].
  intros (m & _ & _ & _ & Hlo & _ & Hs & _ & Hc).
  apply IH in Hc. rewrite META_DATA_SIZE_eq in Hc. lia.
Qed.

Lemma chain_weaken h p lo lo' l e hi hi' :
  lo' ≤ lo → hi ≤ hi' → chain h p lo l e hi → chain h p lo' l e hi'.
Proof.
  revert p lo lo'. induction l as [|a l IH]; intros p lo lo' Hlo Hhi; simpl; [lia|].
  intros (m & ? & ? & ? & ? & ? & ? & ? & Hc).
  exists m. repeat split; try done; [lia|]. by eapply IH; [| |exact Hc].
Qed.

Lemma chain_bounds h p lo l e hi a :
  chain h p lo l e hi → a ∈ l → lo ≤ a ∧ a + META_DATA_SIZE ≤ hi.
Proof.
  revert p lo. induction l as [|b l IH]; intros p lo; simpl; [by intros _ ?%elem_of_nil|].
  intros (m & ? & ? & ? & ? & ? & ? & ? & Hc) [->|Ha]%elem_of_cons.
  - apply chain_lo_hi in Hc. lia.
  - destruct (IH _ _ Hc Ha). rewrite META_DATA_SIZE_eq in *. lia.
Qed.

Lemma chain_lookup h p lo l e hi a :
  chain h p lo l e hi → a ∈ l → is_Some (h !! a).
Proof.
  revert p lo. induction l as [|b l IH]; intros p lo; simpl; [by intros _ ?%elem_of_nil|].
  intros (m & ? & ? & ? & ? & ? & ? & ? & Hc) [->|Ha]%elem_of_cons; eauto.
Qed.

Lemma chain_NoDup h p lo l e hi : chain h p lo l e hi → NoDup l.
Proof.
  revert p lo. induction l as [|a l IH]; intros p lo; simpl; [constructor|].
  intros (m & ? & ? & ? & ? & ? & ? & ? & Hc). constructor; [|by eapply IH].
  intros Ha. destruct (chain_bounds _ _ _ _ _ _ _ Hc Ha).
  rewrite META_DATA_SIZE_eq in *. lia.
Qed.

Lemma chain_ext h h' p lo l e hi :
  (∀ a, a ∈ l → h' !! a = h !! a) → chain h p lo l e hi → chain h' p lo l e hi.
Proof.
  revert p lo. induction l as [|a l IH]; intros p lo Hh; simpl; [done|].
  intros (m & ? & ? & ? & ? & ? & ? & ? & Hc).
  exists m. rewrite Hh by left. repeat split; try done.
  apply IH; [|done]. intros b Hb. apply Hh. by right.
Qed.

Lemma last_cons (a p : Z) (l : list Z) : List.last (a :: l) p = List.last l a.
Proof.
  revert a p. induction l as [|b l IH]; intros a p; [done|].
  change (List.last (a :: b :: l) p) with (List.last (b :: l) p).
  by rewrite (IH b p), (IH b a).
Qed.

Lemma last_snoc (a p : Z) (l : list Z) : List.last (l ++ [a]) p = a.
Proof. apply List.last_last. Qed.

Lemma hd_app_cons (a e : Z) (l1 l2 : list Z) :
  hd e (l1 ++ a :: l2) = hd a l1.
Proof. by destruct l1. Qed.

Lemma chain_app h p lo l1 l2 e hi :
  chain h p lo (l1 ++ l2) e hi ↔
  ∃ mid, chain h p lo l1 (hd e l2) mid ∧ chain h (List.last l1 p) mid l2 e hi.
Proof.
  revert p lo. induction l1 as [|a l1 IH]; intros p lo; cbn [app chain].
  - change (List.last [] p) with p. split.
    + intros Hc. exists lo. split; [lia|done].
    + intros (mid & Hlo & Hc). by eapply chain_weaken; [| |exact Hc].
  - split.
    + intros (m & ? & ? & Hn & ? & ? & ? & ? & Hc).
      apply IH in Hc as (mid & Hc1 & Hc2). exists mid. split.
      * exists m. repeat split; try done. rewrite Hn. by destruct l1, l2.
      * by rewrite last_cons.
    + intros (mid & (m & ? & ? & Hn & ? & ? & ? & ? & Hc1) & Hc2).
      exists m. repeat split; try done.
      * rewrite Hn. by destruct l1, l2.
      * apply IH. exists mid. split; [done|]. by rewrite last_cons in Hc2.
Qed.

Lemma chain_set_next_last h p lo l a e e' hi m :
  chain h p lo (l ++ [a]) e hi → h !! a = Some m →
  chain (<[a := with_next e' m]> h) p lo (l ++ [a]) e' hi.
Proof.
  intros Hc Ha. pose proof (chain_NoDup _ _ _ _ _ _ Hc) as Hnd.
  apply NoDup_app in Hnd as (_ & Hnd & _).
  apply chain_app in Hc as (mid & Hc1 & Hc2). apply chain_app. exists mid. split.
  - eapply chain_ext; [|exact Hc1]. intros b Hb. apply lookup_insert_ne.
    intros <-. eapply Hnd; [done|]. by left.
  - simpl in *. destruct Hc2 as (m' & Hm' & ? & ? & ? & ? & ? & ? & ?).
    rewrite Ha in Hm'. injection Hm' as <-.
    exists (with_next e' m). rewrite lookup_insert_eq. by repeat split.
Qed.

Lemma chain_set_prev_first h p p' lo l a e hi m :
  chain h p lo (a :: l) e hi → h !! a = Some m →
  chain (<[a := with_prev p' m]> h) p' lo (a :: l) e hi.
Proof.
  intros Hc Ha. pose proof (chain_NoDup _ _ _ _ _ _ Hc) as Hnd.
  apply NoDup_cons in Hnd as [Hnd _].
  simpl in *. destruct Hc as (m' & Hm' & ? & ? & ? & ? & ? & ? & Hc).
  rewrite Ha in Hm'. injection Hm' as <-.
  exists (with_prev p' m). rewrite lookup_insert_eq. repeat split; try done.
  eapply chain_ext; [|exact Hc]. intros b Hb. apply lookup_insert_ne. by intros <-.
Qed.

(** What [delete_meta_cell_brk] does when the cell and its neighbours are
    in memory. *)
Lemma delete_run a st ma mp mn :
  hdr st !! a = Some ma →
  m_prev ma ≠ a → m_next ma ≠ a →
  hdr st !! m_prev ma = Some mp →
  <[m_prev ma := with_next (m_next ma) mp]> (hdr st) !! m_next ma = Some mn →
  delete_meta_cell_brk a st
  = Some (tt, set_hdr (λ h, <[m_next ma := with_prev (m_prev ma) mn]>
                              (<[m_prev ma := with_next (m_next ma) mp]> h)) st).
Proof.
  intros Ha Hpa Hna Hp Hn. unfold delete_meta_cell_brk.
  rewrite (bind_run _ _ _ _ _ (load_run _ _ _ Ha)).
  rewrite (bind_run _ _ _ _ _ (update_run _ _ _ _ Hp)).
  erewrite bind_run; [|apply load_run; simpl; rewrite lookup_insert_ne by done; exact Ha].
  erewrite update_run by (simpl; exact Hn). by destruct st.
Qed.

Lemma heap_repr_above st l a :
  heap_repr st l → a ∈ l → heap_lo ≤ a ∧ a + META_DATA_SIZE ≤ brk st.
Proof. intros (hm & _ & _ & _ & _ & Hc & _) Ha. by eapply chain_bounds. Qed.

Lemma heap_lo_gt : block_head_brk < heap_lo ∧ block_head_mmap < heap_lo.
Proof. by compute. Qed.

(** ** Unlinking and linking a cell of the heap list *)

Lemma dom_insert_present (h : gmap Z block_meta) a m :
  is_Some (h !! a) → dom (<[a := m]> h) = dom h.
Proof. intros H%elem_of_dom. rewrite dom_insert_L. set_solver. Qed.

Lemma last_app_cons (a p : Z) (l1 l2 : list Z) :
  List.last (l1 ++ a :: l2) p = List.last l2 a.
Proof.
  revert p. induction l1 as [|x l1 IH]; intros p; cbn [app].
  - apply last_cons.
  - by rewrite last_cons, IH.
Qed.

Ltac hsimpl :=
  cbn [hdr set_hdr set_brk brk maps mmap_next mem trace m_size m_status m_prev m_next
       with_size with_status with_prev with_next fst snd] in *.

Lemma heap_split_repr st l1 l2 lo_c hi_c :
  heap_split st l1 l2 lo_c hi_c → lo_c ≤ hi_c → heap_repr st (l1 ++ l2).
Proof.
  intros (hm & ? & ? & ? & ? & Hc1 & Hc2 & ? & ?) Hle.
  exists hm. split_and!; try done. apply chain_app. exists lo_c.
  split; [done|]. by eapply chain_weaken; [| |exact Hc2].
Qed.

Lemma delete_ok st l1 a l2 :
  heap_repr st (l1 ++ a :: l2) →
  ∃ f ma lo_c,
    delete_meta_cell_brk a st = Some (tt, set_hdr f st) ∧
    heap_split (set_hdr f st) l1 l2 lo_c (a + META_DATA_SIZE + m_size ma) ∧
    lo_c ≤ a ∧ a mod 8 = 0 ∧ 0 ≤ m_size ma ∧
    hdr st !! a = Some ma ∧ f (hdr st) !! a = Some ma ∧
    m_prev ma = List.last l1 block_head_brk ∧
    (∀ b, b ≠ block_head_brk → b ∉ l1 ++ l2 → f (hdr st) !! b = hdr st !! b) ∧
    dom (f (hdr st)) = dom (hdr st).
Proof.
  intros Hr. pose proof Hr as (hm & Hh & Hsz & Hn & Hp & Hc & Hb).
  pose proof (chain_NoDup _ _ _ _ _ _ Hc) as Hnd.
  assert (Hhead : ∀ b, b ∈ l1 ++ a :: l2 → b ≠ block_head_brk).
  { intros b Hb' ->. destruct (chain_bounds _ _ _ _ _ _ _ Hc Hb').
    pose proof heap_lo_gt. lia. }
  assert (Hah : a ≠ block_head_brk) by (apply Hhead; set_solver).
  apply chain_app in Hc as (mid & Hc1 & Hc2).
  cbn [chain] in Hc2. destruct Hc2 as (ma & Ha & Hpa & Hna & Hlo & Hal & Hs0 & Hs8 & Hc2).
  destruct l1 as [|c l1 _] using rev_ind; destruct l2 as [|b l2];
    cbn [hd app] in *; try (cbn [chain] in Hc1);
    change (List.last [] block_head_brk) with block_head_brk in *.
  - (* the only cell *)
    eexists _, ma, mid. split.
    { eapply delete_run; [done|congruence..| |].
      - rewrite Hpa. exact Hh.
      - rewrite Hpa, Hna. apply lookup_insert_eq. }
    rewrite Hpa, Hna. hsimpl.
    split_and!; try done.
    + eexists. split; [apply lookup_insert_eq|]. hsimpl. cbn [chain hd List.last app].
      split_and!; try done; try tauto.
    + by rewrite !lookup_insert_ne.
    + intros b' Hb' _. by rewrite !lookup_insert_ne.
    + rewrite !dom_insert_present; eauto. rewrite lookup_insert_eq. eauto.
  - (* the first cell *)
    cbn [chain] in Hc2.
    destruct Hc2 as (mb & Hmb & Hpb & Hnb & Hlob & Halb & Hsb0 & Hsb8 & Hc3).
    assert (b ≠ block_head_brk) by (apply Hhead; set_solver).
    assert ((b ∉ l2) ∧ (a ≠ b)) as [? ?].
    { apply NoDup_cons in Hnd as [? Hnd']. apply NoDup_cons in Hnd' as [? ?].
      set_solver. }
    eexists _, ma, mid. split.
    { eapply delete_run; [done|congruence..| |].
      - rewrite Hpa. exact Hh.
      - rewrite Hpa, Hna. rewrite lookup_insert_ne by done. exact Hmb. }
    rewrite Hpa, Hna. hsimpl.
    split_and!; try done.
    + eexists. split; [hsimpl; rewrite lookup_insert_ne by done; apply lookup_insert_eq|].
      hsimpl. rewrite !last_cons in Hp. cbn [app hd]. rewrite last_cons.
      split_and!; try done; try tauto. cbn [chain].
      exists (with_prev block_head_brk mb). rewrite lookup_insert_eq.
      hsimpl. split_and!; try done.
      eapply chain_ext; [|exact Hc3]. intros x Hx.
      assert (x ≠ block_head_brk) by (apply Hhead; set_solver).
      assert (x ≠ b) by (by intros ->).
      by rewrite !lookup_insert_ne.
    + by rewrite !lookup_insert_ne.
    + intros b' Hb' Hnin. rewrite !lookup_insert_ne; [done..|set_solver].
    + rewrite !dom_insert_present; eauto. rewrite lookup_insert_ne by done. eauto.
  - (* the last cell *)
    rewrite last_snoc in Hpa.
    assert (Hc : c ∈ (l1 ++ [c]) ++ [a]) by set_solver.
    pose proof (Hhead _ Hc) as Hch.
    assert (a ≠ c).
    { intros ->. apply NoDup_app in Hnd as (_ & Hnd & _). apply (Hnd c); set_solver. }
    destruct (chain_lookup _ _ _ _ _ _ c Hc1) as [mc Hmc]; [set_solver|].
    eexists _, ma, mid. split.
    { eapply delete_run; [done|congruence..| |].
      - rewrite Hpa. exact Hmc.
      - rewrite Hpa, Hna. rewrite lookup_insert_ne by done. exact Hh. }
    rewrite Hpa, Hna. hsimpl. rewrite app_nil_r.
    split_and!; try done.
    + eexists. split; [hsimpl; apply lookup_insert_eq|]. hsimpl.
      rewrite <- app_assoc in Hn. cbn [app] in Hn. rewrite hd_app_cons in Hn.
      rewrite app_nil_r, hd_app_cons, last_snoc. cbn [hd].
      split_and!; try done; try tauto.
      eapply chain_ext.
      { intros x Hx. apply lookup_insert_ne. intros <-.
        apply (Hhead block_head_brk); set_solver. }
      by apply chain_set_next_last with (e := a).
    + by rewrite !lookup_insert_ne.
    + by rewrite last_snoc.
    + intros b' Hb' Hnin. rewrite !lookup_insert_ne; [done| |done]. set_solver.
    + rewrite !dom_insert_present; eauto. rewrite lookup_insert_ne by done. eauto.
  - (* a cell in the middle *)
    rewrite last_snoc in Hpa.
    cbn [chain] in Hc2.
    destruct Hc2 as (mb & Hmb & Hpb & Hnb & Hlob & Halb & Hsb0 & Hsb8 & Hc3).
    assert (Hc : c ∈ (l1 ++ [c]) ++ a :: b :: l2) by set_solver.
    pose proof (Hhead _ Hc) as Hch.
    assert (b ≠ block_head_brk) by (apply Hhead; set_solver).
    apply NoDup_app in Hnd as (Hnd1 & Hnd2 & Hnd3).
    apply NoDup_cons in Hnd3 as [Hnd3 Hnd4]. apply NoDup_cons in Hnd4 as [Hnd4 Hnd5].
    assert (a ≠ c) by (intros ->; apply (Hnd2 c); set_solver).
    assert (b ≠ c) by (intros ->; apply (Hnd2 c); set_solver).
    assert (a ≠ b) by set_solver.
    destruct (chain_lookup _ _ _ _ _ _ c Hc1) as [mc Hmc]; [set_solver|].
    eexists _, ma, mid. split.
    { eapply delete_run; [done|congruence..| |].
      - rewrite Hpa. exact Hmc.
      - rewrite Hpa, Hna. rewrite lookup_insert_ne by done. exact Hmb. }
    rewrite Hpa, Hna. hsimpl.
    split_and!; try done.
    + exists hm. split; [hsimpl; by rewrite !lookup_insert_ne|]. hsimpl.
      rewrite <- app_assoc in Hn, Hp. cbn [app] in Hn, Hp.
      rewrite hd_app_cons in Hn. rewrite <- app_assoc. cbn [app].
      rewrite hd_app_cons.
      split_and!; try done; try tauto.
      { rewrite Hp. by rewrite !last_app_cons, !last_cons. }
      * eapply chain_ext.
        { intros x Hx. apply lookup_insert_ne. intros <-. apply (Hnd2 b); set_solver. }
        by apply chain_set_next_last with (e := a).
      * rewrite last_snoc.
        apply chain_set_prev_first with (p := a); [|by rewrite lookup_insert_ne].
        eapply chain_ext; [|exists mb; split_and!; done].
        intros x Hx. apply lookup_insert_ne. intros <-. apply (Hnd2 c); set_solver.
    + by rewrite !lookup_insert_ne.
    + by rewrite last_snoc.
    + intros b' Hb' Hnin. rewrite !lookup_insert_ne; [done|set_solver..].
    + rewrite !dom_insert_present; eauto. rewrite lookup_insert_ne by done. eauto.
Qed.

Lemma add_run last_cell cell size status st ml mn ml' :
  hdr st !! last_cell = Some ml →
  last_cell ≠ cell →
  <[cell := Block (SIZE_ALIGN size) status last_cell (m_next ml)]> (hdr st)
    !! m_next ml = Some mn →
  <[m_next ml := with_prev cell mn]>
    (<[cell := Block (SIZE_ALIGN size) status last_cell (m_next ml)]> (hdr st))
    !! last_cell = Some ml' →
  add_meta_cell_brk last_cell cell size status st
  = Some (cell + META_DATA_SIZE,
          set_hdr (λ h, <[last_cell := with_next cell ml']>
                          (<[m_next ml := with_prev cell mn]>
                             (<[cell := Block (SIZE_ALIGN size) status last_cell
                                          (m_next ml)]> h))) st).
Proof.
  intros Hl Hne Hn Hl'. unfold add_meta_cell_brk.
  rewrite (bind_run _ _ _ _ _ (load_run _ _ _ Hl)).
  rewrite (bind_run _ _ _ _ _ eq_refl).
  erewrite bind_run; [|apply load_run; hsimpl; rewrite lookup_insert_ne by done; exact Hl].
  erewrite bind_run; [|apply update_run; hsimpl; exact Hn].
  erewrite bind_run; [|apply update_run; hsimpl; exact Hl'].
  by destruct st.
Qed.

Lemma add_ok st l1 l2 cell size status lo_c hi_c :
  heap_split st l1 l2 lo_c hi_c →
  lo_c ≤ cell → cell mod 8 = 0 →
  cell + META_DATA_SIZE + SIZE_ALIGN size ≤ hi_c →
  ∃ f, add_meta_cell_brk (List.last l1 block_head_brk) cell size status st
       = Some (cell + META_DATA_SIZE, set_hdr f st) ∧
       heap_repr (set_hdr f st) (l1 ++ cell :: l2) ∧
       f (hdr st) !! cell
       = Some (Block (SIZE_ALIGN size) status (List.last l1 block_head_brk)
                     (hd block_head_brk l2)) ∧
       (∀ b, b ≠ block_head_brk → b ≠ cell → b ∉ l1 ++ l2 →
             f (hdr st) !! b = hdr st !! b) ∧
       dom (f (hdr st)) = {[cell]} ∪ dom (hdr st).
Proof.
  intros (hm & Hh & Hsz & Hn & Hp & Hc1 & Hc2 & Hb8 & Hbm) Hlo Hal Hhi.
  pose proof (SIZE_ALIGN_range size) as Hsr.
  pose proof (SIZE_ALIGN_mod8 size) as Hs8.
  pose proof heap_lo_gt as [Hgt _].
  pose proof (chain_lo_hi _ _ _ _ _ _ Hc1) as Hlo1.
  pose proof (chain_lo_hi _ _ _ _ _ _ Hc2) as Hhi2.
  assert (Hch : cell ≠ block_head_brk) by lia.
  assert (Hin1 : ∀ x, x ∈ l1 → x ≠ cell ∧ x ≠ block_head_brk).
  { intros x Hx. destruct (chain_bounds _ _ _ _ _ _ _ Hc1 Hx).
    rewrite META_DATA_SIZE_eq in *. lia. }
  assert (Hin2 : ∀ x, x ∈ l2 → x ≠ cell ∧ x ≠ block_head_brk ∧ x ∉ l1).
  { intros x Hx. destruct (chain_bounds _ _ _ _ _ _ _ Hc2 Hx).
    rewrite META_DATA_SIZE_eq in *. split_and!; [lia..|].
    intros Hx1. destruct (chain_bounds _ _ _ _ _ _ _ Hc1 Hx1).
    rewrite META_DATA_SIZE_eq in *. lia. }
  destruct l1 as [|c l1 _] using rev_ind; destruct l2 as [|b l2];
    cbn [hd app] in *;
    change (List.last [] block_head_brk) with block_head_brk in *.
  - (* into the empty list *)
    eexists. split.
    { eapply add_run; [exact Hh|done| |].
      - rewrite Hn, lookup_insert_ne by done. exact Hh.
      - rewrite Hn. apply lookup_insert_eq. }
    rewrite Hn. hsimpl. split; [|split; [|split]].
    + eexists. split; [apply lookup_insert_eq|]. hsimpl. cbn [hd List.last chain].
      split_and!; try done.
      eexists. split; [rewrite !lookup_insert_ne by done; apply lookup_insert_eq|].
      hsimpl. split_and!; try done; lia.
    + rewrite !lookup_insert_ne by done. apply lookup_insert_eq.
    + intros x ? ? _. by rewrite !lookup_insert_ne.
    + rewrite dom_insert_present by (rewrite lookup_insert_eq; eauto).
      rewrite dom_insert_present by (rewrite lookup_insert_ne by done; eauto).
      by rewrite dom_insert_L.
  - (* before the first cell *)
    cbn [chain] in Hc2.
    destruct Hc2 as (mb & Hmb & Hpb & Hnb & Hlob & Halb & Hsb0 & Hsb8 & Hc3).
    destruct (Hin2 b) as (Hbc & Hbh & _); [by left|].
    assert (b ∉ l2).
    { intros Hb2. destruct (chain_bounds _ _ _ _ _ _ _ Hc3 Hb2).
      rewrite META_DATA_SIZE_eq in *. lia. }
    eexists. split.
    { eapply add_run; [exact Hh|done| |].
      - rewrite Hn, lookup_insert_ne by done. exact Hmb.
      - rewrite Hn, !lookup_insert_ne by done. exact Hh. }
    rewrite Hn. hsimpl. split; [|split; [|split]].
    + eexists. split; [apply lookup_insert_eq|]. hsimpl. cbn [hd chain].
      rewrite !last_cons in *. split_and!; try done.
      eexists. split; [rewrite !lookup_insert_ne by done; apply lookup_insert_eq|].
      hsimpl. split_and!; try done; [lia..|].
      exists (with_prev cell mb). split.
      { rewrite lookup_insert_ne by done. apply lookup_insert_eq. }
      hsimpl. split_and!; try done; [lia|].
      eapply chain_ext; [|exact Hc3]. intros x Hx.
      destruct (Hin2 x) as (? & ? & _); [by right|].
      assert (x ≠ b) by (by intros ->).
      by rewrite !lookup_insert_ne.
    + rewrite !lookup_insert_ne by done. apply lookup_insert_eq.
    + intros x ? ? Hx. rewrite !lookup_insert_ne; [done..|set_solver|done].
    + rewrite dom_insert_present by (rewrite !lookup_insert_ne by done; eauto).
      rewrite dom_insert_present by (rewrite lookup_insert_ne by done; eauto).
      by rewrite dom_insert_L.
  - (* after the last cell *)
    rewrite last_snoc in *. rewrite app_nil_r in *.
    pose proof Hc1 as Hc1'. apply chain_app in Hc1' as (mid1 & Hc1a & Hc1b).
    cbn [chain hd] in Hc1b. destruct Hc1b as (mc & Hmc & Hpc & Hnc & _).
    destruct (Hin1 c) as [Hcc Hchd]; [set_solver|].
    eexists. split.
    { eapply add_run; [exact Hmc|done| |].
      - rewrite Hnc, lookup_insert_ne by done. exact Hh.
      - rewrite Hnc, !lookup_insert_ne by done. exact Hmc. }
    rewrite Hnc. hsimpl. split; [|split; [|split]].
    + eexists. split; [hsimpl; rewrite lookup_insert_ne by done; apply lookup_insert_eq|].
      hsimpl. rewrite <- app_assoc. cbn [app]. rewrite hd_app_cons in *.
      rewrite last_app_cons, last_cons. cbn [List.last].
      split_and!; try done.
      replace (l1 ++ [c; cell]) with ((l1 ++ [c]) ++ [cell]) by (by rewrite <- app_assoc).
      apply chain_app. exists lo_c. cbn [hd]. split.
      * apply chain_set_next_last with (e := block_head_brk);
          [|by rewrite !lookup_insert_ne].
        eapply chain_ext; [|exact Hc1]. intros x Hx. destruct (Hin1 x Hx).
        by rewrite !lookup_insert_ne.
      * rewrite last_snoc. cbn [chain hd]. eexists. split.
        { rewrite !lookup_insert_ne by done. apply lookup_insert_eq. }
        hsimpl. split_and!; try done; lia.
    + rewrite !lookup_insert_ne by done. apply lookup_insert_eq.
    + intros x ? ? Hx. rewrite !lookup_insert_ne; [done..|set_solver].
    + rewrite dom_insert_present by (rewrite !lookup_insert_ne by done; eauto).
      rewrite dom_insert_present by (rewrite lookup_insert_ne by done; eauto).
      by rewrite dom_insert_L.
  - (* between two cells *)
    rewrite last_snoc in *.
    pose proof Hc1 as Hc1'. apply chain_app in Hc1' as (mid1 & Hc1a & Hc1b).
    cbn [chain hd] in Hc1b. destruct Hc1b as (mc & Hmc & Hpc & Hnc & _).
    destruct (Hin1 c) as [Hcc Hchd]; [set_solver|].
    cbn [chain] in Hc2.
    destruct Hc2 as (mb & Hmb & Hpb & Hnb & Hlob & Halb & Hsb0 & Hsb8 & Hc3).
    destruct (Hin2 b) as (Hbc & Hbh & Hb1); [by left|].
    assert (b ≠ c) by set_solver.
    assert (b ∉ l2).
    { intros Hb2. destruct (chain_bounds _ _ _ _ _ _ _ Hc3 Hb2).
      rewrite META_DATA_SIZE_eq in *. lia. }
    eexists. split.
    { eapply add_run; [exact Hmc|done| |].
      - rewrite Hnc, lookup_insert_ne by done. exact Hmb.
      - rewrite Hnc, !lookup_insert_ne by done. exact Hmc. }
    rewrite Hnc. hsimpl. split; [|split; [|split]].
    + exists hm. split; [hsimpl; by rewrite !lookup_insert_ne|]. hsimpl.
      rewrite <- app_assoc in *. cbn [app] in *. rewrite hd_app_cons in *.
      rewrite last_app_cons in *. rewrite !last_cons in *.
      split_and!; try done.
      replace (l1 ++ c :: cell :: b :: l2) with ((l1 ++ [c]) ++ cell :: b :: l2)
        by (by rewrite <- app_assoc).
      apply chain_app. exists lo_c. cbn [hd]. split.
      * apply chain_set_next_last with (e := b); [|by rewrite !lookup_insert_ne].
        eapply chain_ext; [|exact Hc1]. intros x Hx. destruct (Hin1 x Hx).
        assert (x ≠ b) by (by intros ->).
        by rewrite !lookup_insert_ne.
      * rewrite last_snoc. cbn [chain hd]. eexists. split.
        { rewrite !lookup_insert_ne by done. apply lookup_insert_eq. }
        hsimpl. split_and!; try done; [lia..|]. cbn [chain hd].
        exists (with_prev cell mb). split.
        { rewrite lookup_insert_ne by done. apply lookup_insert_eq. }
        hsimpl. split_and!; try done; [lia|].
        eapply chain_ext; [|exact Hc3]. intros x Hx.
        destruct (Hin2 x) as (? & ? & ?); [by right|].
        assert (x ≠ b) by (by intros ->). assert (x ≠ c) by set_solver.
        by rewrite !lookup_insert_ne.
    + rewrite !lookup_insert_ne by done. apply lookup_insert_eq.
    + intros x ? ? Hx. rewrite !lookup_insert_ne; [done..|set_solver|set_solver].
    + rewrite dom_insert_present by (rewrite !lookup_insert_ne by done; eauto).
      rewrite dom_insert_present by (rewrite lookup_insert_ne by done; eauto).
      by rewrite dom_insert_L.
Qed.

(** ** More on chains: bounds, sizes, fuel *)

Lemma chain_raise_lo h p lo lo' l e hi :
  chain h p lo l e hi → lo' ≤ hd hi l → chain h p lo' l e hi.
Proof.
  destruct l as [|a l]; cbn [chain hd]; [done|].
  intros (m & ? & ? & ? & ? & ? & ? & ? & Hc) Hlo. exists m. by split_and!.
Qed.

Lemma chain_hd_le h p lo l e hi : chain h p lo l e hi → lo ≤ hd hi l.
Proof.
  destruct l as [|a l]; cbn [chain hd]; [done|].
  by intros (m & ? & ? & ? & ? & _).
Qed.

Lemma chain_set_cell h p lo l1 c l2 e hi mc m' :
  chain h p lo (l1 ++ c :: l2) e hi → h !! c = Some mc →
  m_prev m' = m_prev mc → m_next m' = m_next mc →
  0 ≤ m_size m' → m_size m' mod 8 = 0 →
  c + META_DATA_SIZE + m_size m' ≤ hd hi l2 →
  chain (<[c := m']> h) p lo (l1 ++ c :: l2) e hi.
Proof.
  intros Hc Hmc Hp Hn Hs0 Hs8 Hle.
  pose proof (chain_NoDup _ _ _ _ _ _ Hc) as Hnd.
  apply NoDup_app in Hnd as (_ & Hnd1 & Hnd2). apply NoDup_cons in Hnd2 as [Hnd2 _].
  apply chain_app in Hc as (mid & Hc1 & Hc2). apply chain_app. exists mid. split.
  - eapply chain_ext; [|exact Hc1]. intros x Hx. apply lookup_insert_ne.
    intros <-. apply (Hnd1 c); [done|by left].
  - cbn [chain] in *. destruct Hc2 as (m & Hm & ? & ? & ? & ? & ? & ? & Hc2).
    rewrite Hmc in Hm. injection Hm as <-.
    exists m'. rewrite lookup_insert_eq. split_and!; try done; try congruence.
    eapply chain_raise_lo; [|done].
    eapply chain_ext; [|exact Hc2]. intros x Hx. apply lookup_insert_ne.
    by intros <-.
Qed.

Lemma heap_repr_lookup st l1 b l2 :
  heap_repr st (l1 ++ b :: l2) →
  ∃ mb, hdr st !! b = Some mb ∧
        m_prev mb = List.last l1 block_head_brk ∧
        m_next mb = hd block_head_brk l2 ∧
        heap_lo ≤ b ∧ b mod 8 = 0 ∧ 0 ≤ m_size mb ∧ m_size mb mod 8 = 0 ∧
        b + META_DATA_SIZE + m_size mb ≤ hd (brk st) l2.
Proof.
  intros (hm & _ & _ & _ & _ & Hc & _).
  apply chain_app in Hc as (mid & Hc1 & Hc2). cbn [chain] in Hc2.
  destruct Hc2 as (mb & ? & ? & ? & ? & ? & ? & ? & Hc2).
  exists mb. split_and!; try done.
  - apply chain_lo_hi in Hc1. lia.
  - by apply chain_hd_le in Hc2.
Qed.

(** The tight split after a cell of the list. *)
Lemma heap_repr_split_at st l1 b l2 mb :
  heap_repr st (l1 ++ b :: l2) → hdr st !! b = Some mb →
  heap_split st (l1 ++ [b]) l2 (b + META_DATA_SIZE + m_size mb) (hd (brk st) l2).
Proof.
  intros (hm & ? & ? & ? & ? & Hc & ? & ?) Hb.
  apply chain_app in Hc as (mid & Hc1 & Hc2). cbn [chain] in Hc2.
  destruct Hc2 as (mb' & Hb' & ? & ? & ? & ? & ? & ? & Hc2).
  rewrite Hb in Hb'. injection Hb' as <-.
  exists hm. rewrite <- app_assoc. cbn [app]. split_and!; try done.
  - apply chain_app. exists mid. split; [done|]. cbn [chain hd].
    exists mb. split_and!; try done; lia.
  - rewrite last_snoc. eapply chain_raise_lo; [done|]. destruct l2; cbn [hd]; lia.
Qed.

Lemma heap_repr_not_head st l a : heap_repr st l → a ∈ l → a ≠ block_head_brk ∧ a ≠ NULL.
Proof.
  intros Hr Ha. destruct (heap_repr_above _ _ _ Hr Ha) as [Hlo _].
  revert Hlo. unfold heap_lo, block_head_mmap, sizeof_block_meta, block_head_brk, NULL. lia.
Qed.

(** A walk over the heap list fits in the bound on list walks. *)
Lemma heap_repr_fuel st l : heap_repr st l → (length l < size (hdr st))%nat.
Proof.
  intros Hr. pose proof Hr as (hm & Hh & _ & _ & _ & Hc & _).
  assert (Hnd : NoDup (block_head_brk :: l)).
  { constructor; [|by eapply chain_NoDup].
    intros Hin. by destruct (heap_repr_not_head _ _ _ Hr Hin). }
  assert (Hsub : list_to_set (C := gset Z) (block_head_brk :: l) ⊆ dom (hdr st)).
  { intros x [->|Hx]%elem_of_list_to_set%elem_of_cons; apply elem_of_dom; [eauto|].
    by eapply chain_lookup. }
  apply subseteq_size in Hsub. rewrite size_list_to_set, size_dom in Hsub by done.
  simpl in Hsub. lia.
Qed.

Lemma sbrk0_run st : 0 ≤ brk st ≤ BRK_MAX → sbrk 0 st = Some (brk st, st).
Proof.
  intros Hb. unfold sbrk. change (signed64 0) with 0.
  rewrite decide_True by lia. destruct st. unfold set_brk. simpl. do 3 f_equal. lia.
Qed.

Lemma signed64_small n : 0 ≤ n < 2 ^ 63 → signed64 n = n.
Proof.
  intros Hn. unfold signed64. rewrite wrap64_small by lia.
  destruct (Z.ltb_spec n (2 ^ 63)); [done|lia].
Qed.

Lemma sbrk_run n st :
  0 ≤ n < 2 ^ 63 → 0 ≤ brk st → brk st + n ≤ BRK_MAX →
  sbrk n st = Some (brk st, set_brk (brk st + n) st).
Proof.
  intros Hn Hb Hm. unfold sbrk. rewrite signed64_small by done.
  by rewrite decide_True by lia.
Qed.

Lemma heap_repr_brk st l : heap_repr st l → 0 ≤ brk st ≤ BRK_MAX.
Proof.
  intros (hm & _ & _ & _ & _ & Hc & _ & ?). apply chain_lo_hi in Hc.
  revert Hc. unfold heap_lo, block_head_mmap, sizeof_block_meta. lia.
Qed.

(** ** Coalescing *)

Lemma outside_heap_notin st l b :
  heap_repr st l → outside_heap b → b ∉ l.
Proof.
  intros Hr [_ Hb] Hin. destruct (heap_repr_above _ _ _ Hr Hin).
  pose proof (heap_repr_brk _ _ Hr). rewrite META_DATA_SIZE_eq in *. lia.
Qed.

Lemma coalesce_block_loop_ok fuel : ∀ st l1 c l2,
  heap_repr st (l1 ++ c :: l2) → (length l2 < fuel)%nat →
  ∃ f l2',
    coalesce_block_loop fuel (hd block_head_brk l2) st
    = Some (hd block_head_brk l2', set_hdr f st) ∧
    heap_repr (set_hdr f st) (l1 ++ c :: l2') ∧
    (length l2' ≤ length l2)%nat ∧
    (∀ b, outside_heap b → f (hdr st) !! b = hdr st !! b) ∧
    dom (f (hdr st)) = dom (hdr st).
Proof.
  induction fuel as [|fuel IH]; intros st l1 c l2 Hr Hlen; [lia|].
  destruct l2 as [|b l2]; cbn [hd coalesce_block_loop].
  - exists (λ h, h), []. rewrite decide_True by done. rewrite set_hdr_id.
    by split_and!.
  - destruct (heap_repr_not_head st _ b Hr) as [Hbh _]; [set_solver|].
    rewrite decide_False by done.
    replace (l1 ++ c :: b :: l2) with ((l1 ++ [c]) ++ b :: l2) in Hr
      by (by rewrite <- app_assoc).
    destruct (heap_repr_lookup _ _ _ _ Hr) as (mb & Hmb & _ & Hnb & _).
    rewrite (bind_run _ _ _ _ _ (load_run _ _ _ Hmb)).
    destruct (decide (m_status mb = STATUS_FREE)) as [Hfree|Hnf].
    + destruct (delete_ok _ _ _ _ Hr)
        as (f1 & mb' & lo_c & Hdel & Hsp & Hlo & _ & Hs0 & Hmb' & Hmb1 & _ & Hfr1 & Hdom1).
      rewrite Hmb in Hmb'. injection Hmb' as <-.
      apply heap_split_repr in Hsp; [|rewrite META_DATA_SIZE_eq; lia].
      rewrite <- app_assoc in Hsp. cbn [app] in Hsp.
      rewrite (bind_run _ _ _ _ _ Hdel).
      rewrite (bind_run _ _ _ _ _ (load_run _ _ (set_hdr f1 st) Hmb1)). rewrite Hnb.
      destruct (IH _ _ _ _ Hsp) as (f2 & l2' & Hrun & Hr2 & Hlen2 & Hfr2 & Hdom2);
        [simpl in Hlen; lia|].
      exists (λ h, f2 (f1 h)), l2'. split_and!; try done.
      * simpl. lia.
      * intros x Hx. hsimpl. rewrite Hfr2 by done. apply Hfr1; [apply Hx|].
        rewrite <- app_assoc in Hr. cbn [app] in Hr.
        pose proof (outside_heap_notin _ _ _ Hr Hx). set_solver.
      * hsimpl. by rewrite Hdom2.
    + exists (λ h, h), (b :: l2). rewrite set_hdr_id.
      rewrite <- app_assoc in Hr. by split_and!.
Qed.

Lemma heap_repr_set_cell st l1 c l2 mc m' :
  heap_repr st (l1 ++ c :: l2) → hdr st !! c = Some mc →
  m_prev m' = m_prev mc → m_next m' = m_next mc →
  0 ≤ m_size m' → m_size m' mod 8 = 0 →
  c + META_DATA_SIZE + m_size m' ≤ hd (brk st) l2 →
  heap_repr (set_hdr (insert c m') st) (l1 ++ c :: l2).
Proof.
  intros Hr Hmc Hp Hn Hs0 Hs8 Hle.
  destruct (heap_repr_not_head st _ c Hr) as [Hch _]; [set_solver|].
  destruct Hr as (hm & ? & ? & ? & ? & Hc & ? & ?).
  exists hm. hsimpl. rewrite lookup_insert_ne by done. split_and!; try done.
  by eapply chain_set_cell.
Qed.

Lemma mod8_sub a b : a mod 8 = 0 → b mod 8 = 0 → (a - b - 32) mod 8 = 0.
Proof. intros. Z.div_mod_to_equations. lia. Qed.

Lemma hd_brk_mod8 st l1 c l2 :
  heap_repr st (l1 ++ c :: l2) → hd (brk st) l2 mod 8 = 0 ∧ hd (brk st) l2 ≤ brk st.
Proof.
  intros Hr. destruct l2 as [|b l2]; cbn [hd].
  - destruct Hr as (hm & _ & _ & _ & _ & _ & ? & _). split; [done|lia].
  - replace (l1 ++ c :: b :: l2) with ((l1 ++ [c]) ++ b :: l2) in Hr
      by (by rewrite <- app_assoc).
    destruct (heap_repr_lookup _ _ _ _ Hr) as (mb & _ & _ & _ & _ & ? & _).
    split; [done|]. destruct (heap_repr_above st _ b Hr); [set_solver|].
    rewrite META_DATA_SIZE_eq in *. lia.
Qed.

Lemma coalesce_block_ok st l1 c l2 :
  heap_repr st (l1 ++ c :: l2) →
  ∃ f l2',
    coalesce_block c st = Some (tt, set_hdr f st) ∧
    heap_repr (set_hdr f st) (l1 ++ c :: l2') ∧
    (length l2' ≤ length l2)%nat ∧
    (∃ m, f (hdr st) !! c = Some m ∧
          m_size m = hd (brk st) l2' - c - META_DATA_SIZE) ∧
    (∀ b, outside_heap b → f (hdr st) !! b = hdr st !! b) ∧
    dom (f (hdr st)) = dom (hdr st).
Proof.
  intros Hr. destruct (heap_repr_lookup _ _ _ _ Hr) as (mc & Hmc & _ & Hnc & _).
  pose proof (heap_repr_fuel _ _ Hr) as Hfuel. rewrite length_app in Hfuel.
  destruct (coalesce_block_loop_ok (S (size (hdr st))) _ _ _ _ Hr)
    as (f1 & l2' & Hloop & Hr1 & Hlen & Hfr1 & Hdom1); [simpl in Hfuel; lia|].
  destruct (heap_repr_lookup _ _ _ _ Hr1)
    as (mc1 & Hmc1 & _ & Hnc1 & Hlo & Hc8 & Hs0 & Hs8 & Hend).
  destruct (hd_brk_mod8 _ _ _ _ Hr1) as [Hstop8 Hstop].
  pose proof (heap_repr_brk _ _ Hr1) as Hbrk. hsimpl.
  assert (Hr2 : heap_repr (set_hdr (insert c (with_next (hd block_head_brk l2') mc1))
                                   (set_hdr f1 st)) (l1 ++ c :: l2')).
  { eapply heap_repr_set_cell; [exact Hr1|exact Hmc1|done|by hsimpl|..]; hsimpl; done. }
  set (s := hd (brk st) l2' - c - META_DATA_SIZE).
  assert (Hs : 0 ≤ s < 2 ^ 64).
  { unfold s. rewrite META_DATA_SIZE_eq in *. unfold BRK_MAX in *.
    revert Hlo. unfold heap_lo, block_head_mmap, sizeof_block_meta. lia. }
  exists (λ h, <[c := with_size s (with_next (hd block_head_brk l2') mc1)]>
                 (<[c := with_next (hd block_head_brk l2') mc1]> (f1 h))), l2'.
  split_and!; try done.
  - unfold coalesce_block.
    rewrite (bind_run _ _ _ _ _ (load_run _ _ _ Hmc)). rewrite Hnc.
    unfold bounded at 1. erewrite bind_run by exact Hloop.
    erewrite bind_run by (apply update_run; exact Hmc1).
    assert (Hstop_run :
      (if decide (hd block_head_brk l2' = block_head_brk) then sbrk 0
       else ret (hd block_head_brk l2'))
        (set_hdr (insert c (with_next (hd block_head_brk l2') mc1)) (set_hdr f1 st))
      = Some (hd (brk st) l2',
              set_hdr (insert c (with_next (hd block_head_brk l2') mc1)) (set_hdr f1 st))).
    { destruct l2' as [|b l2'']; cbn [hd].
      - rewrite decide_True by done. by rewrite sbrk0_run.
      - destruct (heap_repr_not_head _ _ b Hr1) as [Hbh _]; [set_solver|].
        by rewrite decide_False. }
    erewrite bind_run by exact Hstop_run.
    erewrite update_run by (hsimpl; apply lookup_insert_eq).
    fold s. rewrite (wrap64_small s) by done. done.
  - change (set_hdr _ st) with
      (set_hdr (insert c (with_size s (with_next (hd block_head_brk l2') mc1)))
         (set_hdr (insert c (with_next (hd block_head_brk l2') mc1)) (set_hdr f1 st))).
    eapply heap_repr_set_cell; [exact Hr2|hsimpl; apply lookup_insert_eq|..]; hsimpl.
    all: try done.
    + lia.
    + unfold s. rewrite META_DATA_SIZE_eq. by apply mod8_sub.
    + unfold s. lia.
  - eexists. split; [apply lookup_insert_eq|done].
  - intros b Hb. pose proof (outside_heap_notin _ _ _ Hr Hb).
    rewrite !lookup_insert_ne by set_solver. by apply Hfr1.
  - rewrite !dom_insert_present; [done|rewrite Hmc1; eauto|].
    rewrite lookup_insert_eq. eauto.
Qed.

Lemma coalesce_blocks_loop_ok fuel : ∀ st l1 l2,
  heap_repr st (l1 ++ l2) → (length l2 < fuel)%nat →
  ∃ f l',
    coalesce_blocks_loop fuel (hd block_head_brk l2) st = Some (tt, set_hdr f st) ∧
    heap_repr (set_hdr f st) l' ∧
    (l1 ++ l2 ≠ [] → l' ≠ []) ∧
    (∀ b, outside_heap b → f (hdr st) !! b = hdr st !! b) ∧
    dom (f (hdr st)) = dom (hdr st).
Proof.
  induction fuel as [|fuel IH]; intros st l1 l2 Hr Hlen; [lia|].
  destruct l2 as [|c l2]; cbn [hd coalesce_blocks_loop].
  - exists (λ h, h), (l1 ++ []). rewrite decide_True by done. rewrite set_hdr_id.
    by split_and!.
  - destruct (heap_repr_not_head st _ c Hr) as [Hch _]; [set_solver|].
    rewrite decide_False by done.
    destruct (heap_repr_lookup _ _ _ _ Hr) as (mc & Hmc & _).
    rewrite (bind_run _ _ _ _ _ (load_run _ _ _ Hmc)).
    assert (∃ f1 l2',
      (if decide (m_status mc = STATUS_FREE) then coalesce_block c else ret tt) st
      = Some (tt, set_hdr f1 st) ∧
      heap_repr (set_hdr f1 st) (l1 ++ c :: l2') ∧ (length l2' ≤ length l2)%nat ∧
      (∀ b, outside_heap b → f1 (hdr st) !! b = hdr st !! b) ∧
      dom (f1 (hdr st)) = dom (hdr st))
      as (f1 & l2' & Hstep & Hr1 & Hlen1 & Hfr1 & Hdom1).
    { case_decide.
      - destruct (coalesce_block_ok _ _ _ _ Hr) as (f1 & l2' & ? & ? & ? & _ & ? & ?).
        by exists f1, l2'.
      - exists (λ h, h), l2. rewrite set_hdr_id. by split_and!. }
    rewrite (bind_run _ _ _ _ _ Hstep).
    destruct (heap_repr_lookup _ _ _ _ Hr1) as (mc1 & Hmc1 & _ & Hnc1 & _).
    rewrite (bind_run _ _ _ _ _ (load_run _ _ (set_hdr f1 st) Hmc1)). rewrite Hnc1.
    replace (l1 ++ c :: l2') with ((l1 ++ [c]) ++ l2') in Hr1
      by (by rewrite <- app_assoc).
    destruct (IH _ _ _ Hr1) as (f2 & l' & Hrun & Hr2 & Hne & Hfr2 & Hdom2);
      [simpl in Hlen; lia|].
    exists (λ h, f2 (f1 h)), l'. split_and!; try done.
    + intros _. apply Hne. by destruct l1.
    + intros x Hx. hsimpl. rewrite Hfr2 by done. by apply Hfr1.
    + hsimpl. by rewrite Hdom2.
Qed.

Lemma coalesce_blocks_ok st l :
  heap_repr st l →
  ∃ f l',
    coalesce_blocks st = Some (tt, set_hdr f st) ∧
    heap_repr (set_hdr f st) l' ∧
    (l ≠ [] → l' ≠ []) ∧
    (∀ b, outside_heap b → f (hdr st) !! b = hdr st !! b) ∧
    dom (f (hdr st)) = dom (hdr st).
Proof.
  intros Hr. pose proof Hr as (hm & Hh & _ & Hn & _).
  unfold coalesce_blocks. rewrite (bind_run _ _ _ _ _ (load_run _ _ _ Hh)).
  rewrite Hn. unfold bounded.
  apply (coalesce_blocks_loop_ok _ st [] l Hr).
  pose proof (heap_repr_fuel _ _ Hr). lia.
Qed.

(** ** The best-fit scan *)

Lemma best_fit_of_snoc_miss h size l r c :
  best_fit_of h size l r → ¬ fits h size c → best_fit_of h size (l ++ [c]) r.
Proof.
  intros [[-> Hno]|(l1 & l2 & m & -> & Hm & Hf & Hs & Hb & Ha)] Hc.
  - left. split; [done|]. intros a [Ha| ->%list_elem_of_singleton]%elem_of_app; auto.
  - right. exists l1, (l2 ++ [c]), m. rewrite <- app_assoc. split_and!; try done.
    intros a m' [Hin| ->%list_elem_of_singleton]%elem_of_app Hm' Hf' Hs'; [eauto|].
    destruct Hc. by exists m'.
Qed.

Section best_fit.
Context (size : Z).

(** One turn of the [while] of [search_best_fit]. *)
Lemma best_fit_loop_ok fuel : ∀ st l1 l2 best,
  heap_repr st (l1 ++ l2) → (length l2 < fuel)%nat →
  best_fit_of (hdr st) size l1 best →
  ∃ r, best_fit_loop fuel size (hd block_head_brk l2) best st = Some (r, st) ∧
       best_fit_of (hdr st) size (l1 ++ l2) r.
Proof.
  induction fuel as [|fuel IH]; intros st l1 l2 best Hr Hlen Hbest; [lia|].
  destruct l2 as [|c l2]; cbn [hd best_fit_loop].
  { exists best. rewrite decide_True by done. by rewrite app_nil_r. }
  destruct (heap_repr_not_head st _ c Hr) as [Hch Hcn]; [set_solver|].
  rewrite decide_False by done.
  destruct (heap_repr_lookup _ _ _ _ Hr) as (mc & Hmc & _ & Hnc & _).
  rewrite (bind_run _ _ _ _ _ (load_run _ _ _ Hmc)). rewrite Hnc.
  replace (l1 ++ c :: l2) with ((l1 ++ [c]) ++ l2) in * by (by rewrite <- app_assoc).
  assert (Hstep : ∃ best',
    (if decide (m_status mc = STATUS_FREE) then
       let best_fit :=
         if bool_decide (best = NULL) && bool_decide (size ≤ m_size mc)
         then c else best in
       if bool_decide (best_fit ≠ NULL) && bool_decide (size ≤ m_size mc) then
         bind (load best_fit) (λ b,
           ret (if decide (m_size mc < m_size b) then c else best_fit))
       else ret best_fit
     else ret best) st = Some (best', st) ∧
    best_fit_of (hdr st) size (l1 ++ [c]) best').
  { destruct (decide (m_status mc = STATUS_FREE)) as [Hfree|Hnf]; cycle 1.
    { exists best. split; [reflexivity|]. apply best_fit_of_snoc_miss; [done|].
      intros (m & Hm & ? & _). congruence. }
    destruct (decide (size ≤ m_size mc)) as [Hfit|Hnfit]; cycle 1.
    { exists best. rewrite (bool_decide_eq_false_2 (size ≤ m_size mc)) by done.
      rewrite !andb_false_r. cbn zeta. rewrite andb_false_r. split; [reflexivity|]. apply best_fit_of_snoc_miss; [done|].
      intros (m & Hm & _ & ?). rewrite Hmc in Hm. injection Hm as <-. lia. }
    rewrite (bool_decide_eq_true_2 (size ≤ m_size mc)) by done.
    destruct Hbest as [[-> Hno]|(la & lb & mb & -> & Hmb & Hfb & Hsb & Hbef & Haft)].
    - exists c. rewrite bool_decide_eq_true_2 by done. cbn [andb].
      rewrite bool_decide_eq_true_2 by done. cbn [andb].
      rewrite (bind_run _ _ _ _ _ (load_run _ _ _ Hmc)).
      rewrite decide_False by lia. split; [reflexivity|].
      right. exists l1, [], mc. split_and!; try done.
      + intros a m' Ha Hm' ? ?. destruct (Hno a Ha). by exists m'.
      + by intros a m' ?%elem_of_nil.
    - destruct (heap_repr_not_head st _ best Hr) as [_ Hbn]; [set_solver|].
      rewrite bool_decide_eq_false_2 by done. cbn [andb].
      rewrite bool_decide_eq_true_2 by done. cbn [andb].
      rewrite (bind_run _ _ _ _ _ (load_run _ _ _ Hmb)).
      destruct (decide (m_size mc < m_size mb)) as [Hlt|Hge].
      + exists c. split; [reflexivity|]. right. exists (la ++ best :: lb), [], mc.
        split_and!; try done.
        * intros a m' [Ha|[->|Ha]%elem_of_cons]%elem_of_app Hm' Hf' Hs'.
          -- specialize (Hbef a m' Ha Hm' Hf' Hs'). lia.
          -- rewrite Hmb in Hm'. injection Hm' as <-. lia.
          -- specialize (Haft a m' Ha Hm' Hf' Hs'). lia.
        * by intros a m' ?%elem_of_nil.
      + exists best. split; [reflexivity|]. right. exists la, (lb ++ [c]), mb.
        rewrite <- app_assoc. split_and!; try done.
        intros a m' [Ha| ->%list_elem_of_singleton]%elem_of_app Hm' Hf' Hs'; [eauto|].
        rewrite Hmc in Hm'. injection Hm' as <-. lia. }
  destruct Hstep as (best' & Hstep & Hbest').
  rewrite (bind_run _ _ _ _ _ Hstep).
  apply IH; [done| |done]. simpl in Hlen. lia.
Qed.
End best_fit.

(** ** Splitting and searching *)

Lemma mod8_add3 a b c : a mod 8 = 0 → b mod 8 = 0 → c mod 8 = 0 → (a + b + c) mod 8 = 0.
Proof. intros. Z.div_mod_to_equations. lia. Qed.

Lemma use_unused_space_ok st l1 c l2 mc used :
  heap_repr st (l1 ++ c :: l2) → hdr st !! c = Some mc →
  SIZE_ALIGN used = m_size mc →
  ∃ f l',
    use_unused_space c used st = Some (tt, set_hdr f st) ∧
    heap_repr (set_hdr f st) l' ∧ l' ≠ [] ∧
    (∀ b, outside_heap b → f (hdr st) !! b = hdr st !! b).
Proof.
  intros Hr Hmc Hused. pose proof META_DATA_SIZE_eq as HM.
  destruct (heap_repr_lookup _ _ _ _ Hr)
    as (mc' & Hmc' & _ & Hnc & Hlo & Hc8 & Hs0 & Hs8 & Hend).
  rewrite Hmc in Hmc'. injection Hmc' as <-.
  destruct (hd_brk_mod8 _ _ _ _ Hr) as [Hstop8 Hstop].
  pose proof (heap_repr_brk _ _ Hr) as Hbrk.
  unfold use_unused_space. rewrite (bind_run _ _ _ _ _ (load_run _ _ _ Hmc)).
  assert (Hstop_run :
    (if decide (m_next mc ≠ block_head_brk) then ret (m_next mc) else sbrk 0) st
    = Some (hd (brk st) l2, st)).
  { rewrite Hnc. destruct l2 as [|b l2]; cbn [hd].
    - rewrite decide_False by (intros ?; done). by apply sbrk0_run.
    - destruct (heap_repr_not_head _ _ b Hr) as [Hbh _]; [set_solver|].
      by rewrite decide_True. }
  rewrite (bind_run _ _ _ _ _ Hstop_run). rewrite Hused.
  set (start := c + META_DATA_SIZE + m_size mc) in *.
  assert (Hgap : 0 ≤ hd (brk st) l2 - start < 2 ^ 64).
  { unfold BRK_MAX in *. revert Hlo.
    unfold start, heap_lo, block_head_mmap, sizeof_block_meta. lia. }
  rewrite wrap64_small by done.
  destruct (decide (META_DATA_SIZE < hd (brk st) l2 - start)) as [Hbig|Hbig]; cycle 1.
  { exists (λ h, h), (l1 ++ c :: l2). rewrite set_hdr_id. split_and!; try done.
    by intros ?%eq_sym%app_cons_not_nil. }
  rewrite META_DATA_SIZE_eq in Hbig.
  assert (Hsz : (hd (brk st) l2 - start - META_DATA_SIZE) mod 8 = 0).
  { rewrite META_DATA_SIZE_eq. apply mod8_sub; [done|].
    unfold start. rewrite META_DATA_SIZE_eq. by apply mod8_add3. }
  rewrite (wrap64_small (_ - _ - _)) by (rewrite META_DATA_SIZE_eq; lia).
  pose proof (heap_repr_split_at _ _ _ _ _ Hr Hmc) as Hsp.
  destruct (add_ok _ _ _ start (hd (brk st) l2 - start - META_DATA_SIZE) STATUS_FREE
              _ _ Hsp) as (f & Hadd & Hr' & _ & Hfr & _).
  - unfold start. lia.
  - unfold start. rewrite META_DATA_SIZE_eq. by apply mod8_add3.
  - rewrite SIZE_ALIGN_aligned; [lia| |done]. rewrite META_DATA_SIZE_eq. lia.
  - rewrite last_snoc in Hadd. rewrite (bind_run _ _ _ _ _ Hadd).
    exists f, ((l1 ++ [c]) ++ start :: l2). split_and!; try done.
    + rewrite <- app_assoc. by intros ?%eq_sym%app_cons_not_nil.
    + intros b Hb. pose proof (outside_heap_notin _ _ _ Hr Hb) as Hnin.
      destruct Hb as [Hbh Hb]. apply Hfr; [done| |set_solver].
      unfold start in *. lia.
Qed.

Lemma best_fit_of_nil h size : best_fit_of h size [] NULL.
Proof. left. split; [done|]. by intros a ?%elem_of_nil. Qed.

Lemma search_best_fit_ok st l size :
  heap_repr st l → l ≠ [] → 0 ≤ size ≤ BRK_LIMIT →
  ∃ r, best_fit_of (hdr st) size l r ∧
       ((r = NULL ∧ search_best_fit size st = Some (NULL, st)) ∨
        (r ≠ NULL ∧ ∃ f l',
           search_best_fit size st = Some (r + META_DATA_SIZE, set_hdr f st) ∧
           heap_repr (set_hdr f st) l' ∧ l' ≠ [] ∧
           (∀ b, outside_heap b → f (hdr st) !! b = hdr st !! b))).
Proof.
  intros Hr Hne Hsize. pose proof Hr as (hm & Hh & _ & Hn & _).
  pose proof (heap_repr_fuel _ _ Hr) as Hfuel.
  destruct (best_fit_loop_ok size (S (base.size (hdr st))) st [] l NULL Hr)
    as (r & Hloop & Hbest); [lia|apply best_fit_of_nil|].
  cbn [app] in Hbest. exists r. split; [done|].
  unfold search_best_fit. rewrite (bind_run _ _ _ _ _ (load_run _ _ _ Hh)).
  rewrite Hn. erewrite bind_run by exact Hloop.
  destruct Hbest as [[-> Hno]|(l1 & l2 & mr & -> & Hmr & Hfree & Hfit & _)].
  { left. by rewrite decide_False by (intros ?; done). }
  right. destruct (heap_repr_not_head _ _ r Hr) as [_ Hrn]; [set_solver|].
  split; [done|]. rewrite decide_True by done.
  destruct (heap_repr_lookup _ _ _ _ Hr) as (mr' & Hmr' & _ & _ & _ & _ & _ & Hs8 & _).
  rewrite Hmr in Hmr'. injection Hmr' as <-.
  destruct (delete_ok _ _ _ _ Hr)
    as (f1 & mr' & lo_c & Hdel & Hsp & Hlo & Hr8 & Hs0 & Hmr' & Hmr1 & Hprev & Hfr1 & _).
  rewrite Hmr in Hmr'. injection Hmr' as <-.
  rewrite (bind_run _ _ _ _ _ Hdel).
  rewrite (bind_run _ _ _ _ _ (load_run _ _ (set_hdr f1 st) Hmr1)).
  assert (Hsa : SIZE_ALIGN size ≤ m_size mr).
  { destruct (le_SIZE_ALIGN size (m_size mr)) as [H1 _];
      [unfold BRK_LIMIT in Hsize; lia|done|by apply H1]. }
  destruct (add_ok _ _ _ r (SIZE_ALIGN size) STATUS_ALLOC _ _ Hsp)
    as (f2 & Hadd & Hr2 & Hcell & Hfr2 & _); [done..|rewrite SIZE_ALIGN_idem; lia|].
  rewrite Hprev. rewrite (bind_run _ _ _ _ _ Hadd).
  rewrite (bind_run _ _ _ _ _ (load_run _ _ (set_hdr f2 (set_hdr f1 st)) Hcell)).
  destruct (use_unused_space_ok _ _ _ _ _ (SIZE_ALIGN (SIZE_ALIGN size)) Hr2 Hcell)
    as (f3 & l' & Huse & Hr3 & Hne3 & Hfr3); [hsimpl; by rewrite SIZE_ALIGN_idem|].
  hsimpl. rewrite (bind_run _ _ _ _ _ Huse).
  exists (λ h, f3 (f2 (f1 h))), l'. split_and!; try done.
  intros b Hb. hsimpl. rewrite Hfr3 by done.
  pose proof (outside_heap_notin _ _ _ Hr Hb) as Hnin. destruct Hb as [Hbh Hb].
  rewrite Hfr2; [apply Hfr1| | |]; try done; [set_solver| |set_solver].
  intros ->. apply Hnin. set_solver.
Qed.

(** ** Growing the heap; the heap branch as a whole *)

Lemma signed64_wrap z : - 2 ^ 63 ≤ z < 2 ^ 63 → signed64 (wrap64 z) = z.
Proof.
  intros Hz. unfold signed64, wrap64. rewrite Z.mod_mod by lia.
  destruct (decide (0 ≤ z)).
  - rewrite Z.mod_small by lia. destruct (Z.ltb_spec z (2 ^ 63)); lia.
  - replace (z mod 2 ^ 64) with (z + 2 ^ 64).
    + destruct (Z.ltb_spec (z + 2 ^ 64) (2 ^ 63)); lia.
    + apply Z.mod_unique with (-1); lia.
Qed.

Lemma sbrk_wrap_run z st :
  - 2 ^ 63 ≤ z < 2 ^ 63 → 0 ≤ brk st + z ≤ BRK_MAX →
  sbrk (wrap64 z) st = Some (brk st, set_brk (brk st + z) st).
Proof.
  intros Hz Hb. unfold sbrk. rewrite signed64_wrap by done.
  by rewrite decide_True.
Qed.

Lemma heap_split_set_brk st l1 lo_c hi_c b :
  heap_split st l1 [] lo_c hi_c → b mod 8 = 0 → b ≤ BRK_MAX →
  heap_split (set_brk b st) l1 [] lo_c b.
Proof.
  intros (hm & ? & ? & ? & ? & Hc1 & Hc2 & ? & ?) Hb8 Hbm.
  exists hm. hsimpl. cbn [chain] in *. by split_and!.
Qed.

Lemma heap_split_set_hi st l1 lo_c hi_c hi' :
  heap_split st l1 [] lo_c hi_c → hi' ≤ brk st → heap_split st l1 [] lo_c hi'.
Proof.
  intros (hm & ? & ? & ? & ? & Hc1 & Hc2 & ? & ?) Hle.
  exists hm. cbn [chain] in *. by split_and!.
Qed.

Lemma increase_heap_ok st l size :
  heap_repr st l → l ≠ [] → 0 ≤ size ≤ BRK_LIMIT →
  (∀ a, a ∈ l → ¬ fits (hdr st) size a) →
  brk st + BRK_LIMIT + 64 ≤ BRK_MAX →
  ∃ p f b l',
    increase_heap size st = Some (p, set_hdr f (set_brk b st)) ∧
    heap_repr (set_hdr f (set_brk b st)) l' ∧ l' ≠ [] ∧
    (∀ x, outside_heap x → f (hdr st) !! x = hdr st !! x).
Proof.
  intros Hr Hne Hsize Hnofit Hroom. pose proof META_DATA_SIZE_eq as HM.
  destruct l as [|c l1 _] using rev_ind; [done|].
  pose proof Hr as (hm & Hh & _ & _ & Hp & _). rewrite last_snoc in Hp.
  destruct (heap_repr_lookup _ _ _ _ Hr)
    as (mc & Hmc & _ & _ & Hlo & Hc8 & Hs0 & Hs8 & Hend). cbn [hd] in Hend.
  pose proof (heap_repr_brk _ _ Hr) as Hbrk.
  pose proof (heap_repr_split_at _ _ _ _ _ Hr Hmc) as Hsp. cbn [hd] in Hsp.
  assert (Hsa : size ≤ SIZE_ALIGN size < size + 8)
    by (apply SIZE_ALIGN_bounds; unfold BRK_LIMIT in *; lia).
  pose proof (SIZE_ALIGN_mod8 size) as Hsa8.
  assert (Hlo0 : 0 ≤ c).
  { revert Hlo. unfold heap_lo, block_head_mmap, sizeof_block_meta. lia. }
  unfold increase_heap. rewrite (bind_run _ _ _ _ _ (load_run _ _ _ Hh)). rewrite Hp.
  rewrite (bind_run _ _ _ _ _ (load_run _ _ _ Hmc)).
  destruct (decide (m_status mc = STATUS_FREE)) as [Hfree|Hnf].
  - (* the last cell is FREE: grow it *)
    assert (Hlt : m_size mc < size).
    { destruct (decide (size ≤ m_size mc)); [|lia].
      destruct (Hnofit c); [set_solver|]. by exists mc. }
    rewrite (bind_run _ _ _ _ _ (sbrk0_run _ Hbrk)).
    set (b := c + META_DATA_SIZE + SIZE_ALIGN size).
    replace (SIZE_ALIGN size - m_size mc - (brk st - (c + META_DATA_SIZE + m_size mc)))
      with (b - brk st) by (unfold b; lia).
    assert (Hb8 : b mod 8 = 0) by (unfold b; rewrite HM; by apply mod8_add3).
    unfold BRK_LIMIT, BRK_MAX in *.
    rewrite (bind_run _ _ _ _ _ (sbrk_wrap_run (b - brk st) st ltac:(unfold b; lia)
                                   ltac:(unfold b, BRK_MAX; lia))).
    replace (brk st + (b - brk st)) with b by lia.
    assert (Hr1 : heap_repr (set_brk b st) (l1 ++ [c])).
    { rewrite <- (app_nil_r (l1 ++ [c])).
      eapply heap_split_repr; [eapply heap_split_set_brk; [exact Hsp|done|]|];
        unfold b, BRK_MAX; lia. }
    destruct (delete_ok _ _ _ _ Hr1)
      as (f1 & mc' & lo_c & Hdel & Hsp1 & Hloc & _ & _ & Hmc' & Hmc1 & Hprev & Hfr1 & _).
    hsimpl. rewrite Hmc in Hmc'. injection Hmc' as <-.
    rewrite (bind_run _ _ _ _ _ Hdel).
    rewrite (bind_run _ _ _ _ _ (load_run _ _ (set_hdr f1 (set_brk b st)) Hmc1)).
    apply heap_split_set_hi with (hi' := b) in Hsp1; [|done].
    destruct (add_ok _ _ _ c (SIZE_ALIGN size) STATUS_ALLOC _ _ Hsp1)
      as (f2 & Hadd & Hr2 & _ & Hfr2 & _);
      [done..|rewrite SIZE_ALIGN_idem; unfold b; lia|].
    rewrite Hprev. exists (c + META_DATA_SIZE), (λ h, f2 (f1 h)), b, (l1 ++ [c]).
    split_and!; try done; try (by intros ?%eq_sym%app_cons_not_nil).
    intros x Hx. hsimpl.
    pose proof (outside_heap_notin _ _ _ Hr Hx) as Hnin. destruct Hx as [Hxh Hx].
    rewrite Hfr2; [apply Hfr1| | |]; try done; set_solver.
  - (* the last cell is in use: a new cell at the break *)
    unfold BRK_LIMIT, BRK_MAX in *.
    rewrite (wrap64_small (META_DATA_SIZE + SIZE_ALIGN size)) by lia.
    rewrite (bind_run _ _ _ _ _ (sbrk_run (META_DATA_SIZE + SIZE_ALIGN size) st
               ltac:(lia) ltac:(lia) ltac:(unfold BRK_MAX; lia))).
    set (b := brk st + (META_DATA_SIZE + SIZE_ALIGN size)).
    pose proof Hr as (hm' & _ & _ & _ & _ & _ & Hbrk8 & _).
    assert (Hb8 : b mod 8 = 0).
    { unfold b. rewrite HM, Z.add_assoc. by apply mod8_add3. }
    apply heap_split_set_brk with (b := b) in Hsp; [|done|unfold b, BRK_MAX; lia].
    destruct (add_ok _ _ _ (brk st) (SIZE_ALIGN size) STATUS_ALLOC _ _ Hsp)
      as (f2 & Hadd & Hr2 & _ & Hfr2 & _);
      [lia|done|rewrite SIZE_ALIGN_idem; unfold b; lia|].
    rewrite last_snoc in Hadd. hsimpl.
    exists (brk st + META_DATA_SIZE), f2, b, ((l1 ++ [c]) ++ [brk st]).
    split_and!; try done; try (by intros ?%eq_sym%app_cons_not_nil).
    intros x Hx. hsimpl.
    pose proof (outside_heap_notin _ _ _ Hr2 Hx) as Hnin. destruct Hx as [Hxh Hx].
    apply Hfr2; try done; set_solver.
Qed.

Lemma init_list_brk_run st hm :
  hdr st !! block_head_brk = Some hm →
  init_list_brk st
  = Some (tt, set_hdr (insert block_head_brk
                         (Block 1 (-1) block_head_brk block_head_brk)) st).
Proof.
  intros Hh. unfold init_list_brk.
  rewrite (bind_run _ _ _ _ _ (update_run _ _ _ _ Hh)).
  erewrite bind_run by (apply update_run; hsimpl; apply lookup_insert_eq).
  erewrite bind_run by (apply update_run; hsimpl; apply lookup_insert_eq).
  erewrite update_run by (hsimpl; apply lookup_insert_eq).
  unfold set_hdr. hsimpl. by rewrite !insert_insert_eq.
Qed.

Lemma heap_preallocation_ok st :
  heap_fresh st → brk st + BRK_LIMIT ≤ BRK_MAX →
  ∃ f, heap_preallocation st
       = Some (tt, set_hdr f (set_brk (brk st + BRK_LIMIT) st)) ∧
       heap_repr (set_hdr f (set_brk (brk st + BRK_LIMIT) st)) [brk st] ∧
       (∀ x, outside_heap x → f (hdr st) !! x = hdr st !! x).
Proof.
  intros (hm & Hh & Hz & Hlo & Hb8 & Hbm) Hroom. pose proof META_DATA_SIZE_eq as HM.
  pose proof heap_lo_gt as [Hgt _].
  unfold heap_preallocation. rewrite (bind_run _ _ _ _ _ (init_list_brk_run _ _ Hh)).
  assert (Hlo0 : 0 ≤ brk st).
  { revert Hlo. unfold heap_lo, block_head_mmap, sizeof_block_meta. lia. }
  erewrite bind_run by (apply sbrk_run; hsimpl; unfold BRK_LIMIT in *; lia).
  hsimpl.
  set (st1 := set_brk (brk st + BRK_LIMIT)
                (set_hdr (insert block_head_brk
                            (Block 1 (-1) block_head_brk block_head_brk)) st)).
  assert (Hsp : heap_split st1 [] [] (brk st) (brk st + BRK_LIMIT)).
  { eexists. split; [apply lookup_insert_eq|]. hsimpl. cbn [chain app hd List.last].
    split_and!; try done; unfold st1; hsimpl; unfold BRK_LIMIT in *; try lia.
    clear -Hb8. Z.div_mod_to_equations. lia. }
  rewrite (wrap64_small (BRK_LIMIT - META_DATA_SIZE)) by (by rewrite HM).
  destruct (add_ok _ _ _ (brk st) (BRK_LIMIT - META_DATA_SIZE) STATUS_FREE _ _ Hsp)
    as (f & Hadd & Hr & _ & Hfr & _); [lia|done| |].
  { rewrite SIZE_ALIGN_aligned; [lia|by rewrite HM|by rewrite HM]. }
  cbn [List.last] in Hadd. rewrite (bind_run _ _ _ _ _ Hadd).
  exists (λ h, f (<[block_head_brk := Block 1 (-1) block_head_brk block_head_brk]> h)).
  split_and!; try done.
  intros x Hx. pose proof (outside_heap_notin _ _ _ Hr Hx) as Hnin.
  destruct Hx as [Hxh Hx]. unfold st1 in Hfr. hsimpl.
  rewrite Hfr; [by rewrite lookup_insert_ne|done|set_solver|set_solver].
Qed.

Lemma heap_alloc_ok st size :
  heap_ok st → 0 ≤ size ≤ BRK_LIMIT →
  brk st + 2 * BRK_LIMIT + 64 ≤ BRK_MAX →
  ∃ p f b l',
    heap_alloc size st = Some (p, set_hdr f (set_brk b st)) ∧
    heap_repr (set_hdr f (set_brk b st)) l' ∧ l' ≠ [] ∧
    (∀ x, outside_heap x → f (hdr st) !! x = hdr st !! x).
Proof.
  intros Hok Hsize Hroom. unfold heap_alloc.
  assert (∃ hm f0 b0 l0,
    hdr st !! block_head_brk = Some hm ∧
    (if decide (m_size hm = 0) then heap_preallocation else ret tt) st
    = Some (tt, set_hdr f0 (set_brk b0 st)) ∧
    heap_repr (set_hdr f0 (set_brk b0 st)) l0 ∧ l0 ≠ [] ∧
    b0 ≤ brk st + BRK_LIMIT ∧
    (∀ x, outside_heap x → f0 (hdr st) !! x = hdr st !! x))
    as (hm & f0 & b0 & l0 & Hh & Hpre & Hr0 & Hne0 & Hb0 & Hfr0).
  { destruct Hok as [Hfresh|(l & Hne & Hr)].
    - pose proof Hfresh as (hm & Hh & Hz & _).
      destruct (heap_preallocation_ok _ Hfresh) as (f0 & Hrun & Hr & Hfr);
        [unfold BRK_LIMIT in *; lia|].
      exists hm, f0, (brk st + BRK_LIMIT), [brk st]. rewrite decide_True by done.
      split_and!; try done; lia.
    - pose proof Hr as (hm & Hh & Hz & _).
      exists hm, (λ h, h), (brk st), l. rewrite decide_False by done.
      replace (set_hdr (λ h, h) (set_brk (brk st) st)) with st by (by destruct st).
      split_and!; try done; lia. }
  rewrite (bind_run _ _ _ _ _ (load_run _ _ _ Hh)).
  rewrite (bind_run _ _ _ _ _ Hpre).
  destruct (coalesce_blocks_ok _ _ Hr0) as (f1 & l1 & Hco & Hr1 & Hne1 & Hfr1 & _).
  rewrite (bind_run _ _ _ _ _ Hco).
  destruct (search_best_fit_ok _ _ size Hr1 (Hne1 Hne0) Hsize)
    as (r & Hbest & [[-> Hmiss]|(Hrn & f2 & l2 & Hhit & Hr2 & Hne2 & Hfr2)]).
  - rewrite (bind_run _ _ _ _ _ Hmiss). rewrite decide_True by done.
    destruct Hbest as [[_ Hno]|(la & lb & m & -> & _)]; cycle 1.
    { destruct (heap_repr_not_head _ _ NULL Hr1) as [_ ?]; [set_solver|done]. }
    destruct (increase_heap_ok _ _ size Hr1 (Hne1 Hne0) Hsize Hno)
      as (p & f3 & b3 & l3 & Hinc & Hr3 & Hne3 & Hfr3); [hsimpl; lia|].
    exists p, (λ h, f3 (f1 (f0 h))), b3, l3. split_and!; try done.
    intros x Hx. hsimpl. rewrite Hfr3, Hfr1 by done. by apply Hfr0.
  - rewrite (bind_run _ _ _ _ _ Hhit).
    assert (r + META_DATA_SIZE ≠ NULL).
    { destruct Hbest as [[-> _]|(la & lb & m & -> & _)]; [done|].
      destruct (heap_repr_above _ _ r Hr1) as [Hlo _]; [set_solver|].
      revert Hlo. rewrite META_DATA_SIZE_eq.
      unfold heap_lo, block_head_mmap, sizeof_block_meta, NULL. lia. }
    rewrite decide_False by done.
    exists (r + META_DATA_SIZE), (λ h, f2 (f1 (f0 h))), b0, l2. split_and!; try done.
    intros x Hx. hsimpl. rewrite Hfr2, Hfr1 by done. by apply Hfr0.
Qed.

(** ** What a successful run leaves behind *)

Lemma update_Some a f u st st' :
  update a f st = Some (u, st') ↔
  ∃ m, hdr st !! a = Some m ∧ st' = set_hdr (insert a (f m)) st.
Proof.
  unfold update. rewrite bind_Some. split.
  - intros (m & st1 & [Hm ->]%load_Some & Hst). injection Hst as _ <-. eauto.
  - intros (m & Hm & ->). exists m, st. split; [by apply load_Some|]. by destruct u.
Qed.

Lemma ret_Some {A} (a b : A) st st' : ret a st = Some (b, st') ↔ a = b ∧ st' = st.
Proof. unfold ret. split; [intros [= ? ?]; by subst|intros [-> ->]; done]. Qed.

Lemma store_Some a m u st st' :
  store a m st = Some (u, st') ↔ st' = set_hdr (insert a m) st.
Proof.
  unfold store. split; [intros [= ?]; by subst|intros ->; by destruct u].
Qed.

Lemma sbrk_Some n r st st' :
  sbrk n st = Some (r, st') → r = brk st ∧ ∃ b, st' = set_brk b st.
Proof. unfold sbrk. case_decide; [|done]. intros [= <- <-]. eauto. Qed.

Lemma sbrk0_Some r st st' : sbrk 0 st = Some (r, st') → r = brk st ∧ st' = st.
Proof.
  unfold sbrk. change (signed64 0) with 0. case_decide; [|done].
  intros [= <- <-]. split; [done|]. destruct st. unfold set_brk. simpl. f_equal. lia.
Qed.

(** Taking a successful run apart, statement by statement. *)
Ltac minv :=
  repeat match goal with
  | H : sbrk 0 _ = Some _ |- _ => apply sbrk0_Some in H as [-> ->]
  | H : bind _ _ _ = Some _ |- _ =>
    let a := fresh "a" in let st := fresh "st" in let H1 := fresh "Hrun" in
    apply bind_Some in H as (a & st & H1 & H)
  | H : load _ _ = Some _ |- _ => apply load_Some in H as [H ->]
  | H : update _ _ _ = Some _ |- _ =>
    let m := fresh "m" in let Hm := fresh "Hm" in
    apply update_Some in H as (m & Hm & ->)
  | H : store _ _ _ = Some _ |- _ => apply store_Some in H as ->
  | H : ret _ _ = Some _ |- _ => apply ret_Some in H as [? ->]
  | H : sbrk _ _ = Some _ |- _ =>
    let b := fresh "b" in apply sbrk_Some in H as [-> [b ->]]
  end.

Lemma data_kept_refl h b : data_kept h h b.
Proof. intros m Hm. eauto. Qed.

Lemma data_kept_trans h1 h2 h3 b :
  data_kept h1 h2 b → data_kept h2 h3 b → data_kept h1 h3 b.
Proof.
  intros H12 H23 m Hm. destruct (H12 m Hm) as (m2 & Hm2 & ? & ?).
  destruct (H23 m2 Hm2) as (m3 & Hm3 & ? & ?). exists m3. split_and!; congruence.
Qed.

Lemma data_kept_insert_ne h a x b : b ≠ a → data_kept h (<[a := x]> h) b.
Proof. intros Hne m Hm. exists m. by rewrite lookup_insert_ne. Qed.

Lemma data_kept_insert h a m x b :
  h !! a = Some m → m_size x = m_size m → m_status x = m_status m →
  data_kept h (<[a := x]> h) b.
Proof.
  intros Ha Hs Ht. destruct (decide (b = a)) as [->|Hne]; [|by apply data_kept_insert_ne].
  intros m' Hm'. rewrite Ha in Hm'. injection Hm' as <-. exists x.
  by rewrite lookup_insert_eq.
Qed.

Lemma delete_post a u st st' :
  delete_meta_cell_brk a st = Some (u, st') →
  ∃ f, st' = set_hdr f st ∧ ∀ b, data_kept (hdr st) (f (hdr st)) b.
Proof.
  unfold delete_meta_cell_brk. intros H. minv. hsimpl.
  eexists (λ h, <[_ := _]> (<[_ := _]> h)). split; [reflexivity|]. intros b.
  eapply data_kept_trans; by eapply data_kept_insert.
Qed.

Lemma add_post last_cell cell size status p st st' :
  add_meta_cell_brk last_cell cell size status st = Some (p, st') →
  p = cell + META_DATA_SIZE ∧
  ∃ f, st' = set_hdr f st ∧
       (∀ b, b ≠ cell → data_kept (hdr st) (f (hdr st)) b) ∧
       ∃ m, f (hdr st) !! cell = Some m ∧
            m_size m = SIZE_ALIGN size ∧ m_status m = status.
Proof.
  unfold add_meta_cell_brk. intros H. minv. hsimpl. subst p. split; [done|].
  eexists (λ h, <[_ := _]> (<[_ := _]> (<[_ := _]> h))). split; [reflexivity|].
  hsimpl. split.
  - intros b Hb. eapply data_kept_trans; [|by eapply data_kept_insert].
    eapply data_kept_trans; [|by eapply data_kept_insert].
    by apply data_kept_insert_ne.
  - match goal with
    | |- ∃ m, <[?a2 := ?x2]> (<[?a1 := ?x1]> ?h1) !! ?c = Some m ∧ _ =>
      assert (data_kept h1 (<[a2 := x2]> (<[a1 := x1]> h1)) c) as Hc1
        by (eapply data_kept_trans; by eapply data_kept_insert)
    end.
    destruct (Hc1 _ (lookup_insert_eq _ _ _)) as (m' & ? & ? & ?). by exists m'.
Qed.

Lemma use_unused_space_post c used u st st' :
  use_unused_space c used st = Some (u, st') →
  ∃ f, st' = set_hdr f st ∧
       ∀ b, b ≠ c + META_DATA_SIZE + SIZE_ALIGN used →
            data_kept (hdr st) (f (hdr st)) b.
Proof.
  unfold use_unused_space. intros H.
  apply bind_Some in H as (mc & st1 & [Hmc ->]%load_Some & H).
  apply bind_Some in H as (stop & st1 & Hstop & H).
  assert (st1 = st) as ->.
  { destruct (decide (m_next mc ≠ block_head_brk));
      [by apply ret_Some in Hstop as [_ ->]|].
    by apply sbrk0_Some in Hstop as [_ ->]. }
  clear Hstop. case_decide.
  - apply bind_Some in H as (p & st2 & Hadd & H). apply ret_Some in H as [_ ->].
    apply add_post in Hadd as (_ & f & -> & Hkept & _). by exists f.
  - apply ret_Some in H as [_ ->]. exists (λ h, h). rewrite set_hdr_id.
    split; [done|]. intros b _. apply data_kept_refl.
Qed.

Lemma search_best_fit_post size p st st' :
  search_best_fit size st = Some (p, st') → p ≠ NULL →
  ∃ m, hdr st' !! (p - META_DATA_SIZE) = Some m ∧
       m_size m = SIZE_ALIGN size ∧ m_status m = STATUS_ALLOC.
Proof.
  unfold search_best_fit. intros H Hp.
  apply bind_Some in H as (hm & st1 & _ & H).
  apply bind_Some in H as (best & st2 & _ & H).
  case_decide; [|by apply ret_Some in H as [<- _]].
  apply bind_Some in H as (? & st3 & _ & H).
  apply bind_Some in H as (mb & ? & [_ ->]%load_Some & H).
  apply bind_Some in H as (? & st4 & Hadd & H).
  apply add_post in Hadd as (_ & f & -> & _ & m & Hm & Hsz & Hst).
  apply bind_Some in H as (mb' & ? & [Hmb' ->]%load_Some & H).
  apply bind_Some in H as (? & st5 & Huse & H). apply ret_Some in H as [<- ->].
  apply use_unused_space_post in Huse as (f' & -> & Hkept).
  replace (best + META_DATA_SIZE - META_DATA_SIZE) with best by lia.
  assert (Hne : best ≠ best + META_DATA_SIZE + SIZE_ALIGN (m_size mb')).
  { pose proof (SIZE_ALIGN_range (m_size mb')). rewrite META_DATA_SIZE_eq. lia. }
  destruct (Hkept best Hne m Hm) as (m' & Hm' & Hsz' & Hst').
  exists m'. rewrite SIZE_ALIGN_idem in Hsz. split_and!; [done|congruence..].
Qed.

Lemma increase_heap_post size p st st' :
  increase_heap size st = Some (p, st') →
  ∃ m, hdr st' !! (p - META_DATA_SIZE) = Some m ∧
       m_size m = SIZE_ALIGN size ∧ m_status m = STATUS_ALLOC.
Proof.
  unfold increase_heap. intros H.
  apply bind_Some in H as (hm & ? & _ & H).
  apply bind_Some in H as (ml & ? & _ & H).
  assert (∃ last_cell cell st1,
    add_meta_cell_brk last_cell cell (SIZE_ALIGN size) STATUS_ALLOC st1 = Some (p, st'))
    as (last_cell & cell & st1 & Hadd).
  { case_decide.
    - apply bind_Some in H as (? & ? & _ & H). apply bind_Some in H as (? & ? & _ & H).
      apply bind_Some in H as (? & ? & _ & H). apply bind_Some in H as (? & ? & _ & H).
      eauto.
    - apply bind_Some in H as (? & ? & _ & H). eauto. }
  apply add_post in Hadd as (-> & f & -> & _ & m & Hm & Hsz & Hst).
  replace (cell + META_DATA_SIZE - META_DATA_SIZE) with cell by lia.
  exists m. rewrite SIZE_ALIGN_idem in Hsz. by split_and!.
Qed.

Lemma heap_alloc_post size p st st' :
  heap_alloc size st = Some (p, st') →
  ∃ m, hdr st' !! (p - META_DATA_SIZE) = Some m ∧
       m_size m = SIZE_ALIGN size ∧ m_status m = STATUS_ALLOC.
Proof.
  unfold heap_alloc. intros H.
  apply bind_Some in H as (? & ? & _ & H). apply bind_Some in H as (? & ? & _ & H).
  apply bind_Some in H as (? & ? & _ & H).
  apply bind_Some in H as (ra & st1 & Hsearch & H).
  case_decide.
  - by apply increase_heap_post in H.
  - apply ret_Some in H as [<- ->]. by apply search_best_fit_post in Hsearch.
Qed.

(** ** The mapped branch *)

Lemma init_list_mmap_run st hm :
  hdr st !! block_head_mmap = Some hm →
  init_list_mmap st
  = Some (tt, set_hdr (insert block_head_mmap
                         (Block 0 (-1) block_head_mmap block_head_mmap)) st).
Proof.
  intros Hh. unfold init_list_mmap.
  rewrite (bind_run _ _ _ _ _ (update_run _ _ _ _ Hh)).
  erewrite bind_run by (apply update_run; hsimpl; apply lookup_insert_eq).
  erewrite bind_run by (apply update_run; hsimpl; apply lookup_insert_eq).
  erewrite update_run by (hsimpl; apply lookup_insert_eq).
  unfold set_hdr. hsimpl. by rewrite !insert_insert_eq.
Qed.

(** A mapped allocation, when the kernel has room: the new cell is the only
    one linked to the sentinel. *)
Lemma add_meta_cell_mmap_ok st size :
  mmap_ok st → 0 ≤ size → mmap_next st + size + 40 ≤ ADDR_MAX →
  let cell := mmap_next st in
  ∃ st',
    add_meta_cell_mmap size st = Some (cell + META_DATA_SIZE, st') ∧
    hdr st' = <[block_head_mmap := Block 0 (-1) cell cell]>
                (<[cell := Block (SIZE_ALIGN size) STATUS_MAPPED
                                 block_head_mmap block_head_mmap]> (hdr st)) ∧
    brk st' = brk st ∧
    maps st' = maps st ++ [(cell, META_DATA_SIZE + SIZE_ALIGN size)] ∧
    mmap_next st ≤ mmap_next st' ∧
    trace st' = trace st ∧
    (∀ a, cell ≤ a < cell + META_DATA_SIZE + SIZE_ALIGN size → mem st' a = 0).
Proof.
  intros (hm & Hh & Hz & Hnext) Hsize Hroom cell. pose proof META_DATA_SIZE_eq as HM.
  assert (Hsa : size ≤ SIZE_ALIGN size < size + 8).
  { apply SIZE_ALIGN_bounds. unfold ADDR_MAX, BRK_MAX in *. lia. }
  assert (Hcell : cell ≠ block_head_mmap).
  { unfold cell, block_head_mmap, BRK_MAX in *. lia. }
  unfold add_meta_cell_mmap. rewrite (bind_run _ _ _ _ _ (load_run _ _ _ Hh)).
  rewrite decide_True by done.
  rewrite (bind_run _ _ _ _ _ (init_list_mmap_run _ _ Hh)).
  rewrite (wrap64_small (META_DATA_SIZE + SIZE_ALIGN size))
    by (unfold ADDR_MAX, BRK_MAX in *; lia).
  unfold mmap at 1. unfold bind at 1. hsimpl.
  rewrite decide_False by (unfold ADDR_MAX, BRK_MAX in *; lia).
  erewrite bind_run by (apply load_run; hsimpl; apply lookup_insert_eq).
  rewrite (bind_run _ _ _ _ _ eq_refl).
  erewrite bind_run
    by (apply load_run; hsimpl; rewrite lookup_insert_ne by done; apply lookup_insert_eq).
  hsimpl.
  erewrite bind_run
    by (apply update_run; hsimpl; rewrite lookup_insert_ne by done; apply lookup_insert_eq).
  erewrite bind_run by (apply update_run; hsimpl; apply lookup_insert_eq).
  eexists. split; [reflexivity|]. hsimpl. split_and!; try done.
  - apply map_eq. intros i.
    destruct (decide (i = block_head_mmap)) as [->|]; [by rewrite !lookup_insert_eq|].
    rewrite !(lookup_insert_ne _ block_head_mmap) by done.
    destruct (decide (i = cell)) as [->|]; [by rewrite !lookup_insert_eq|].
    by rewrite !lookup_insert_ne.
  - assert (0 ≤ (META_DATA_SIZE + SIZE_ALIGN size + getpagesize - 1) / getpagesize
                * getpagesize); [|fold cell; lia].
    apply Z.mul_nonneg_nonneg; [|done]. apply Z.div_pos; [|done].
    unfold getpagesize. lia.
  - intros a Ha. by rewrite decide_True by (fold cell; lia).
Qed.

(** ** [os_malloc]: routing *)

Lemma initial_heap_ok : heap_ok initial_state.
Proof.
  left. exists (Block 0 0 0 0). split_and!; try done.
Qed.

Lemma initial_mmap_ok : mmap_ok initial_state.
Proof. exists (Block 0 0 0 0). split_and!; [reflexivity|done|by vm_compute]. Qed.

Lemma initial_room size : 0 ≤ size ≤ 2 ^ 40 → room size initial_state.
Proof.
  intros Hs. split; cbn [brk mmap_next initial_state];
    unfold BRK_LIMIT, BRK_MAX, ADDR_MAX; lia.
Qed.

(** C3, as the code has it.  With the lists well formed and room in the
    kernel, a nonzero request is served by a mapping exactly when the size
    itself, not the aligned size, reaches [BRK_LIMIT]: a block of status
    MAPPED comes back and one mapping is added; below the limit a block of
    status ALLOCATED comes back and the mappings are as before. *)
Theorem os_malloc_routing (st : state) (size : Z) :
  heap_ok st → mmap_ok st → room size st → 0 < size →
  (served_by STATUS_MAPPED size st ↔ BRK_LIMIT ≤ size) ∧
  (served_by STATUS_ALLOC size st ↔ size < BRK_LIMIT) ∧
  ∃ p st', os_malloc size st = Some (p, st') ∧
           maps st' = if decide (BRK_LIMIT ≤ size)
                      then maps st ++ [(p - META_DATA_SIZE,
                                        META_DATA_SIZE + SIZE_ALIGN size)]
                      else maps st.
Proof.
  intros Hheap Hmmap [Hbrk Hmap] Hsize.
  assert (Hrun : ∃ p st' m,
    os_malloc size st = Some (p, st') ∧ header_of st' p = Some m ∧
    m_status m = (if decide (BRK_LIMIT ≤ size) then STATUS_MAPPED else STATUS_ALLOC) ∧
    maps st' = if decide (BRK_LIMIT ≤ size)
               then maps st ++ [(p - META_DATA_SIZE, META_DATA_SIZE + SIZE_ALIGN size)]
               else maps st).
  { unfold os_malloc, header_of. rewrite decide_False by lia.
    destruct (decide (BRK_LIMIT ≤ size)) as [Hbig|Hsmall].
    - destruct (add_meta_cell_mmap_ok st size Hmmap) as (st' & Hrun & Hh & _ & Hm & _);
        [lia..|].
      exists (mmap_next st + META_DATA_SIZE), st',
        (Block (SIZE_ALIGN size) STATUS_MAPPED block_head_mmap block_head_mmap).
      split; [done|].
      replace (mmap_next st + META_DATA_SIZE - META_DATA_SIZE) with (mmap_next st) by lia.
      rewrite Hh. split_and!; [|reflexivity|done].
      destruct Hmmap as (_ & _ & _ & Hnext).
      rewrite lookup_insert_ne, lookup_insert_eq; [done|].
      unfold block_head_mmap, BRK_MAX in *. lia.
    - destruct (heap_alloc_ok st size Hheap) as (p & f & b & l' & Hrun & _);
        [lia..|].
      destruct (heap_alloc_post _ _ _ _ Hrun) as (m & Hm & _ & Hst).
      exists p, (set_hdr f (set_brk b st)), m. by split_and!. }
  destruct Hrun as (p & st' & m & Hrun & Hm & Hst & Hmaps).
  split_and!.
  - split.
    + intros (p' & st'' & m' & Hrun' & Hm' & Hst').
      rewrite Hrun in Hrun'. injection Hrun' as <- <-.
      rewrite Hm in Hm'. injection Hm' as <-.
      destruct (decide (BRK_LIMIT ≤ size)); [done|]. by rewrite Hst in Hst'.
    + intros Hbig. exists p, st', m. rewrite decide_True in Hst by done. by split_and!.
  - split.
    + intros (p' & st'' & m' & Hrun' & Hm' & Hst').
      rewrite Hrun in Hrun'. injection Hrun' as <- <-.
      rewrite Hm in Hm'. injection Hm' as <-.
      destruct (decide (BRK_LIMIT ≤ size)); [by rewrite Hst in Hst'|lia].
    + intros Hsmall. exists p, st', m. rewrite decide_False in Hst by lia. by split_and!.
  - by exists p, st'.
Qed.

Lemma os_malloc_routing_witness :
  (served_by STATUS_MAPPED 100 initial_state ↔ BRK_LIMIT ≤ 100) ∧
  (served_by STATUS_ALLOC 100 initial_state ↔ 100 < BRK_LIMIT) ∧
  ∃ p st', os_malloc 100 initial_state = Some (p, st') ∧
           maps st' = if decide (BRK_LIMIT ≤ 100)
                      then maps initial_state
                             ++ [(p - META_DATA_SIZE, META_DATA_SIZE + SIZE_ALIGN 100)]
                      else maps initial_state.
Proof.
  apply (os_malloc_routing initial_state 100).
  - exact initial_heap_ok.
  - exact initial_mmap_ok.
  - apply initial_room. lia.
  - lia.
Defined.

(** C3, as stated, fails for a request of 131071 bytes: its aligned size is
    [BRK_LIMIT], yet the block comes from the heap and nothing is mapped. *)
Lemma os_malloc_aligned_limit_on_heap :
  BRK_LIMIT ≤ SIZE_ALIGN 131071 ∧
  ∃ p st' m, os_malloc 131071 initial_state = Some (p, st') ∧
             header_of st' p = Some m ∧ m_status m = STATUS_ALLOC ∧
             maps st' = [] ∧ heap_list st' = Some [p - META_DATA_SIZE].
Proof.
  split; [by vm_compute|].
  destruct (os_malloc 131071 initial_state) as [[p st']|] eqn:Hrun; [|by vm_compute in Hrun].
  exists p, st'.
  assert (Hobs : (λ r, (fst r, header_of (snd r) (fst r), maps (snd r), heap_list (snd r)))
                   <$> os_malloc 131071 initial_state
                 = Some (1048608, Some (Block 131072 STATUS_ALLOC 4128 4128), [],
                         Some [1048576])) by (by vm_compute).
  rewrite Hrun in Hobs. cbn [fmap option_fmap option_map fst snd] in Hobs.
  injection Hobs as -> Hh Hm Hl. eexists. split_and!; try done.
Qed.

(** ** [os_calloc] *)

Lemma add_meta_cell_mmap_post size p st st' :
  add_meta_cell_mmap size st = Some (p, st') →
  ∃ m, header_of st' p = Some m ∧
       m_size m = SIZE_ALIGN size ∧ m_status m = STATUS_MAPPED.
Proof.
  unfold add_meta_cell_mmap, header_of. intros H.
  apply bind_Some in H as (? & ? & _ & H). apply bind_Some in H as (? & ? & _ & H).
  apply bind_Some in H as (addr & st1 & _ & H).
  apply bind_Some in H as (h1 & ? & [_ ->]%load_Some & H).
  apply bind_Some in H as (? & ? & ->%store_Some & H).
  apply bind_Some in H as (h2 & ? & [_ ->]%load_Some & H).
  apply bind_Some in H as (? & ? & (m1 & Hm1 & ->)%update_Some & H).
  apply bind_Some in H as (? & ? & (m2 & Hm2 & ->)%update_Some & H).
  apply ret_Some in H as [<- ->]. hsimpl.
  replace (addr + META_DATA_SIZE - META_DATA_SIZE) with addr by lia.
  match goal with
  | |- ∃ m, <[?a2 := ?x2]> (<[?a1 := ?x1]> ?h1) !! ?c = Some m ∧ _ =>
    assert (data_kept h1 (<[a2 := x2]> (<[a1 := x1]> h1)) c) as Hc1
      by (eapply data_kept_trans; by eapply data_kept_insert)
  end.
  destruct (Hc1 _ (lookup_insert_eq _ _ _)) as (m' & ? & ? & ?). by exists m'.
Qed.

Lemma memset0_run dst n st :
  memset0 dst n st
  = Some (tt, State (hdr st)
                    (λ a, if decide (dst ≤ a < dst + n) then 0 else mem st a)
                    (brk st) (maps st) (mmap_next st) (Memset dst n :: trace st)).
Proof. reflexivity. Qed.

(** What [os_calloc] does once the block is there. *)
Lemma os_calloc_finish (alloc : M Z) p st st1 n :
  alloc st = Some (p, st1) →
  ∃ st', (return_addr <- alloc ;; memset0 return_addr n ;;; ret return_addr) st
         = Some (p, st') ∧
         hdr st' = hdr st1 ∧ maps st' = maps st1 ∧ brk st' = brk st1 ∧
         trace st' = Memset p n :: trace st1 ∧
         ∀ a, p ≤ a < p + n → mem st' a = 0.
Proof.
  intros Hrun. rewrite (bind_run _ _ _ _ _ Hrun).
  rewrite (bind_run _ _ _ _ _ (memset0_run _ _ _)).
  eexists. split; [reflexivity|]. hsimpl. split_and!; try done.
  intros a Ha. by rewrite decide_True.
Qed.

(** C6.  With the lists well formed and room in the kernel,
    [os_calloc(nmemb, size)] returns [NULL] when the product is zero, and
    otherwise returns a payload whose first [SIZE_ALIGN(nmemb * size)] bytes
    are zero, from a mapping when the product reaches the page threshold and
    from the heap below it. *)
Theorem os_calloc_zeroed (st : state) (nmemb size : Z) :
  heap_ok st → mmap_ok st → room (wrap64 (nmemb * size)) st →
  (wrap64 (nmemb * size) = 0 → os_calloc nmemb size st = Some (NULL, st)) ∧
  (wrap64 (nmemb * size) ≠ 0 →
   ∃ p st' m,
     os_calloc nmemb size st = Some (p, st') ∧
     (∀ a, p ≤ a < p + SIZE_ALIGN (wrap64 (nmemb * size)) → mem st' a = 0) ∧
     header_of st' p = Some m ∧
     m_size m = SIZE_ALIGN (wrap64 (nmemb * size)) ∧
     m_status m = if decide (4080 ≤ wrap64 (nmemb * size))
                  then STATUS_MAPPED else STATUS_ALLOC).
Proof.
  intros Hheap Hmmap [Hbrk Hmap].
  pose proof (wrap64_range (nmemb * size)) as Hrange.
  set (total := wrap64 (nmemb * size)) in *.
  unfold os_calloc. fold total.
  rewrite (decide_True (P := 4080 < getpagesize)) by (by vm_compute).
  cbn beta iota zeta. split.
  - intros Hz. by rewrite decide_True.
  - intros Hnz. rewrite decide_False by done.
    destruct (decide (4080 ≤ total)) as [Hbig|Hsmall].
    + destruct (add_meta_cell_mmap_ok st total Hmmap) as (st1 & Hrun & _); [lia..|].
      destruct (add_meta_cell_mmap_post _ _ _ _ Hrun) as (m & Hm & Hsz & Hst).
      destruct (os_calloc_finish _ _ _ _ (SIZE_ALIGN total) Hrun)
        as (st' & Hfin & Hh & _ & _ & _ & Hzero).
      exists (mmap_next st + META_DATA_SIZE), st', m. split_and!; try done.
      unfold header_of in *. by rewrite Hh.
    + destruct (heap_alloc_ok st total Hheap) as (p & f & b & l' & Hrun & _);
        [unfold BRK_LIMIT; lia|done|].
      destruct (heap_alloc_post _ _ _ _ Hrun) as (m & Hm & Hsz & Hst).
      destruct (os_calloc_finish _ _ _ _ (SIZE_ALIGN total) Hrun)
        as (st' & Hfin & Hh & _ & _ & _ & Hzero).
      exists p, st', m. split_and!; try done.
      unfold header_of in *. by rewrite Hh.
Qed.

Lemma os_calloc_zeroed_witness :
  (wrap64 (1000 * 1) = 0 → os_calloc 1000 1 initial_state = Some (NULL, initial_state)) ∧
  (wrap64 (1000 * 1) ≠ 0 →
   ∃ p st' m,
     os_calloc 1000 1 initial_state = Some (p, st') ∧
     (∀ a, p ≤ a < p + SIZE_ALIGN (wrap64 (1000 * 1)) → mem st' a = 0) ∧
     header_of st' p = Some m ∧
     m_size m = SIZE_ALIGN (wrap64 (1000 * 1)) ∧
     m_status m = if decide (4080 ≤ wrap64 (1000 * 1))
                  then STATUS_MAPPED else STATUS_ALLOC).
Proof.
  apply (os_calloc_zeroed initial_state 1000 1).
  - exact initial_heap_ok.
  - exact initial_mmap_ok.
  - apply initial_room. by vm_compute.
Defined.

Lemma wrap64_idem z : wrap64 (wrap64 z) = wrap64 z.
Proof. unfold wrap64. apply Z.mod_mod. lia. Qed.

(** C10.  [os_calloc] sees only the product reduced modulo 2^64, with no
    overflow check: it behaves as for one element of the wrapped size.  When
    the product wraps to zero it returns [NULL] and changes nothing.  When it
    wraps to a value [t] that is not zero, then with the lists well formed
    and room in the kernel the call returns a block whose header records
    [SIZE_ALIGN(t)], the [SIZE_ALIGN(t)] bytes of its payload are zero, and
    the one call of [memset] clears exactly that many bytes.  So 2^63
    elements of 2 bytes give [NULL]; and 2^61 + 1 elements of 8 bytes, asked
    of a heap whose bytes all hold 65, give an 8-byte block whose 8 bytes
    are zero while the byte 40 past the pointer still holds 65. *)
Theorem os_calloc_wraps (nmemb size : Z) (st : state) :
  os_calloc nmemb size st = os_calloc 1 (wrap64 (nmemb * size)) st ∧
  (wrap64 (nmemb * size) = 0 → os_calloc nmemb size st = Some (NULL, st)) ∧
  (wrap64 (nmemb * size) ≠ 0 →
   heap_ok st → mmap_ok st → room (wrap64 (nmemb * size)) st →
   ∃ p st' m,
     os_calloc nmemb size st = Some (p, st') ∧
     header_of st' p = Some m ∧
     m_size m = SIZE_ALIGN (wrap64 (nmemb * size)) ∧
     (∀ a, p ≤ a < p + SIZE_ALIGN (wrap64 (nmemb * size)) → mem st' a = 0) ∧
     trace st' = Memset p (SIZE_ALIGN (wrap64 (nmemb * size))) :: trace st) ∧
  os_calloc (2 ^ 63) 2 initial_state = Some (NULL, initial_state) ∧
  (λ r, (fst r, header_of (snd r) (fst r), trace (snd r), brk (snd r)))
    <$> os_calloc (2 ^ 61 + 1) 8 initial_state
  = Some (1048608, Some (Block 8 STATUS_ALLOC 4128 1048616), [Memset 1048608 8],
          1179648) ∧
  (λ r, (fst r, header_of (snd r) (fst r),
         mem (snd r) 1048608, mem (snd r) 1048615, mem (snd r) 1048648,
         trace (snd r)))
    <$> os_calloc (2 ^ 61 + 1) 8 filled_state
  = Some (1048608, Some (Block 8 STATUS_ALLOC 4128 1048616), 0, 0, 65,
          [Memset 1048608 8]).
Proof.
  split_and!.
  - unfold os_calloc. by rewrite Z.mul_1_l, wrap64_idem.
  - intros Hz. unfold os_calloc. cbn zeta. by rewrite decide_True.
  - intros Hnz Hheap Hmmap [Hbrk Hmap].
    pose proof (wrap64_range (nmemb * size)) as Hrange.
    set (total := wrap64 (nmemb * size)) in *.
    unfold os_calloc. fold total.
    rewrite (decide_True (P := 4080 < getpagesize)) by (by vm_compute).
    cbn beta iota zeta. rewrite decide_False by done.
    destruct (decide (4080 ≤ total)) as [Hbig|Hsmall].
    + destruct (add_meta_cell_mmap_ok st total Hmmap)
        as (st1 & Hrun & _ & _ & _ & _ & Htr & _); [lia..|].
      destruct (add_meta_cell_mmap_post _ _ _ _ Hrun) as (m & Hm & Hsz & _).
      destruct (os_calloc_finish _ _ _ _ (SIZE_ALIGN total) Hrun)
        as (st' & Hfin & Hh & _ & _ & Htr' & Hzero).
      exists (mmap_next st + META_DATA_SIZE), st', m. split_and!; try done.
      * unfold header_of in *. by rewrite Hh.
      * by rewrite Htr', Htr.
    + destruct (heap_alloc_ok st total Hheap) as (p & f & b & l' & Hrun & _);
        [unfold BRK_LIMIT; lia|done|].
      destruct (heap_alloc_post _ _ _ _ Hrun) as (m & Hm & Hsz & _).
      destruct (os_calloc_finish _ _ _ _ (SIZE_ALIGN total) Hrun)
        as (st' & Hfin & Hh & _ & _ & Htr' & Hzero).
      exists p, st', m. split_and!; try done.
      unfold header_of in *. by rewrite Hh.
  - by vm_compute.
  - by vm_compute.
  - by vm_compute.
Qed.

Lemma filled_state_repr : heap_repr filled_state [1048576; 1048712; 1048944].
Proof.
  exists (Block 1 (-1) 1048944 1048576). split_and!; try done.
  cbn [chain hd].
  exists (Block 104 STATUS_FREE 4128 1048712). split_and!; try done.
  exists (Block 200 STATUS_ALLOC 1048576 1048944). split_and!; try done.
  exists (Block 130672 STATUS_FREE 1048712 4128). split_and!; try done.
Qed.

Lemma os_calloc_wraps_witness :
  os_calloc (2 ^ 61 + 1) 8 filled_state
  = os_calloc 1 (wrap64 ((2 ^ 61 + 1) * 8)) filled_state ∧
  (wrap64 ((2 ^ 61 + 1) * 8) = 0 →
   os_calloc (2 ^ 61 + 1) 8 filled_state = Some (NULL, filled_state)) ∧
  (∃ p st' m,
     os_calloc (2 ^ 61 + 1) 8 filled_state = Some (p, st') ∧
     header_of st' p = Some m ∧
     m_size m = SIZE_ALIGN (wrap64 ((2 ^ 61 + 1) * 8)) ∧
     (∀ a, p ≤ a < p + SIZE_ALIGN (wrap64 ((2 ^ 61 + 1) * 8)) → mem st' a = 0) ∧
     trace st' = Memset p (SIZE_ALIGN (wrap64 ((2 ^ 61 + 1) * 8)))
                 :: trace filled_state).
Proof.
  destruct (os_calloc_wraps (2 ^ 61 + 1) 8 filled_state) as (H1 & H2 & H3 & _).
  split_and!; [exact H1|exact H2|].
  apply H3.
  - by vm_compute.
  - right. exists [1048576; 1048712; 1048944]. split; [done|exact filled_state_repr].
  - exists (Block 0 0 0 0). by split_and!.
  - split; by vm_compute.
Defined.

(** ** [search_best_fit]: the selection *)

Lemma heap_repr_mod8 st l a m :
  heap_repr st l → a ∈ l → hdr st !! a = Some m → m_size m mod 8 = 0.
Proof.
  intros Hr (l1 & l2 & ->)%list_elem_of_split Hm.
  destruct (heap_repr_lookup _ _ _ _ Hr) as (m' & Hm' & _ & _ & _ & _ & _ & ? & _).
  congruence.
Qed.

Lemma fits_align st l size a :
  heap_repr st l → a ∈ l → 0 ≤ size ≤ 2 ^ 64 - 8 →
  fits (hdr st) size a ↔ fits (hdr st) (SIZE_ALIGN size) a.
Proof.
  intros Hr Ha Hs. unfold fits.
  split; intros (m & Hm & Hf & Hle); exists m; split_and!; try done;
    pose proof (heap_repr_mod8 _ _ _ _ Hr Ha Hm);
    by apply (le_SIZE_ALIGN size (m_size m)).
Qed.

Lemma best_fit_of_align st l size r :
  heap_repr st l → 0 ≤ size ≤ 2 ^ 64 - 8 →
  best_fit_of (hdr st) size l r → best_fit_of (hdr st) (SIZE_ALIGN size) l r.
Proof.
  intros Hr Hs [[-> Hno]|(l1 & l2 & m & -> & Hm & Hf & Hle & Hbef & Haft)].
  - left. split; [done|]. intros a Ha Hfit. apply (Hno a Ha).
    by eapply fits_align.
  - right. exists l1, l2, m.
    assert (Hal : ∀ a m', a ∈ l1 ++ r :: l2 → hdr st !! a = Some m' →
                          SIZE_ALIGN size ≤ m_size m' → size ≤ m_size m').
    { intros a m' Ha Hm' Hle'. pose proof (heap_repr_mod8 _ _ _ _ Hr Ha Hm').
      by apply (le_SIZE_ALIGN size (m_size m')). }
    split_and!; try done.
    + pose proof (heap_repr_mod8 _ _ r _ Hr ltac:(set_solver) Hm).
      by apply (le_SIZE_ALIGN size (m_size m)).
    + intros a m' Ha Hm' Hf' Hle'. apply (Hbef a m' Ha Hm' Hf').
      apply (Hal a m'); [set_solver|done..].
    + intros a m' Ha Hm' Hf' Hle'. apply (Haft a m' Ha Hm' Hf').
      apply (Hal a m'); [set_solver|done..].
Qed.

(** The chain predicate describes the list the code walks. *)
Lemma cells_from_chain h p lo l e hi fuel :
  chain h p lo l e hi → (∀ a, a ∈ l → a ≠ e) → (length l < fuel)%nat →
  cells_from h e fuel (hd e l) = Some l.
Proof.
  revert p lo fuel. induction l as [|a l IH]; intros p lo fuel Hc Hne Hlen.
  - destruct fuel; [simpl in Hlen; lia|]. cbn [cells_from hd]. by rewrite decide_True.
  - destruct fuel; [simpl in Hlen; lia|]. cbn [cells_from hd chain] in *.
    destruct Hc as (m & Hm & _ & Hn & _ & _ & _ & _ & Hc).
    rewrite decide_False by (apply Hne; by left). rewrite Hm, Hn.
    erewrite IH; [done|exact Hc| |simpl in Hlen; lia].
    intros b Hb. apply Hne. by right.
Qed.

Lemma heap_repr_list st l : heap_repr st l → heap_list st = Some l.
Proof.
  intros Hr. pose proof Hr as (hm & Hh & _ & Hn & _ & Hc & _).
  unfold heap_list, list_of. rewrite Hh, Hn.
  eapply cells_from_chain; [exact Hc| |].
  - intros a Ha. by destruct (heap_repr_not_head _ _ _ Hr Ha).
  - pose proof (heap_repr_fuel _ _ Hr). lia.
Qed.

(** C5.  On a well-formed heap list [l], for a heap-bound request, the scan
    of [search_best_fit] settles on the cell that, among the FREE cells of at
    least the aligned size, is the smallest and the earliest of the smallest;
    that cell comes back ALLOCATED with the aligned size.  When no FREE cell
    is large enough the search returns [NULL] with the state untouched, and
    the caller goes on to [increase_heap]. *)
Theorem search_best_fit_selects (st : state) (l : list Z) (size : Z) :
  heap_repr st l → l ≠ [] → 0 ≤ size < BRK_LIMIT →
  heap_list st = Some l ∧
  ∃ r, best_fit_of (hdr st) (SIZE_ALIGN size) l r ∧
       ((r = NULL ∧ search_best_fit size st = Some (NULL, st) ∧
         (return_addr <- search_best_fit size ;;
          if decide (return_addr = NULL) then increase_heap size
          else ret return_addr) st = increase_heap size st) ∨
        (r ≠ NULL ∧ ∃ st' m,
           search_best_fit size st = Some (r + META_DATA_SIZE, st') ∧
           hdr st' !! r = Some m ∧ m_status m = STATUS_ALLOC ∧
           m_size m = SIZE_ALIGN size)).
Proof.
  intros Hr Hne Hsize. split; [by apply heap_repr_list|].
  destruct (search_best_fit_ok st l size Hr Hne ltac:(lia))
    as (r & Hbest & [[-> Hmiss]|(Hrn & f & l' & Hhit & _)]).
  - exists NULL. split; [apply best_fit_of_align; [done|unfold BRK_LIMIT in *; lia|done]|].
    left. split_and!; try done.
    rewrite (bind_run _ _ _ _ _ Hmiss). by rewrite decide_True.
  - exists r. split; [apply best_fit_of_align; [done|unfold BRK_LIMIT in *; lia|done]|].
    right. split; [done|].
    destruct (search_best_fit_post _ _ _ _ Hhit) as (m & Hm & Hsz & Hst).
    { destruct Hbest as [[-> _]|(la & lb & m & -> & _)]; [done|].
      destruct (heap_repr_above _ _ r Hr) as [Hlo _]; [set_solver|].
      revert Hlo. rewrite META_DATA_SIZE_eq.
      unfold heap_lo, block_head_mmap, sizeof_block_meta, NULL. lia. }
    replace (r + META_DATA_SIZE - META_DATA_SIZE) with r in Hm by lia.
    by exists (set_hdr f st), m.
Qed.

Lemma freed_state_repr : heap_repr freed_state [1048576; 1048712; 1048944].
Proof.
  exists (Block 1 (-1) 1048944 1048576). split_and!; try done.
  cbn [chain hd].
  exists (Block 104 STATUS_FREE 4128 1048712). split_and!; try done.
  exists (Block 200 STATUS_ALLOC 1048576 1048944). split_and!; try done.
  exists (Block 130672 STATUS_FREE 1048712 4128). split_and!; try done.
Qed.

Lemma search_best_fit_selects_witness :
  heap_list freed_state = Some [1048576; 1048712; 1048944] ∧
  ∃ r, best_fit_of (hdr freed_state) (SIZE_ALIGN 96) [1048576; 1048712; 1048944] r ∧
       ((r = NULL ∧ search_best_fit 96 freed_state = Some (NULL, freed_state) ∧
         (return_addr <- search_best_fit 96 ;;
          if decide (return_addr = NULL) then increase_heap 96
          else ret return_addr) freed_state = increase_heap 96 freed_state) ∨
        (r ≠ NULL ∧ ∃ st' m,
           search_best_fit 96 freed_state = Some (r + META_DATA_SIZE, st') ∧
           hdr st' !! r = Some m ∧ m_status m = STATUS_ALLOC ∧
           m_size m = SIZE_ALIGN 96)).
Proof.
  apply (search_best_fit_selects freed_state [1048576; 1048712; 1048944] 96).
  - exact freed_state_repr.
  - done.
  - by vm_compute.
Defined.

(** ** [os_realloc]: growing the last block *)

Lemma with_next_same m : with_next (m_next m) m = m.
Proof. by destruct m. Qed.

Lemma with_size_same m : with_size (m_size m) m = m.
Proof. by destruct m. Qed.

(** X18.  Resizing an ALLOCATED block to a larger size below [BRK_LIMIT],
    when the block is the last of the heap list and its payload ends exactly
    at the program break, advances the break by the difference between the
    aligned new size and the old size, sets the size of the block in place
    and returns the original pointer; nothing is copied and nothing is
    mapped. *)
Theorem os_realloc_grow_last (st : state) (ptr size : Z) (c : block_meta) :
  ptr ≠ NULL → 0 < size < BRK_LIMIT →
  hdr st !! (ptr - META_DATA_SIZE) = Some c →
  m_status c = STATUS_ALLOC →
  m_next c = block_head_brk →
  m_size c = brk st - (ptr - META_DATA_SIZE) - META_DATA_SIZE →
  0 ≤ m_size c < SIZE_ALIGN size →
  0 ≤ brk st → brk st + (SIZE_ALIGN size - m_size c) ≤ BRK_MAX →
  ∃ st',
    os_realloc ptr size st = Some (ptr, st') ∧
    brk st' = brk st + (SIZE_ALIGN size - m_size c) ∧
    hdr st' = <[ptr - META_DATA_SIZE := with_size (SIZE_ALIGN size) c]> (hdr st) ∧
    trace st' = trace st ∧ maps st' = maps st ∧ mem st' = mem st.
Proof.
  intros Hp Hsize Hc Halloc Hlast Hend Hgrow Hb0 Hroom.
  set (cell := ptr - META_DATA_SIZE) in *.
  assert (Hsa : size ≤ SIZE_ALIGN size < size + 8)
    by (apply SIZE_ALIGN_bounds; unfold BRK_LIMIT in *; lia).
  assert (Hbm : brk st ≤ BRK_MAX) by lia.
  (* coalescing finds nothing to absorb and leaves the block as it is *)
  assert (Hco : coalesce_block cell st = Some (tt, st)).
  { unfold coalesce_block. rewrite (bind_run _ _ _ _ _ (load_run _ _ _ Hc)).
    rewrite Hlast.
    assert (Hloop : bounded (λ fuel, coalesce_block_loop fuel block_head_brk) st
                    = Some (block_head_brk, st)).
    { unfold bounded. cbn [coalesce_block_loop]. by rewrite decide_True. }
    rewrite (bind_run _ _ _ _ _ Hloop).
    rewrite (bind_run _ _ _ _ _ (update_run _ _ _ _ Hc)).
    rewrite decide_True by done.
    erewrite bind_run by (apply sbrk0_run; hsimpl; lia).
    erewrite update_run by (hsimpl; apply lookup_insert_eq).
    hsimpl. rewrite <- Hend, <- Hlast, with_next_same.
    rewrite wrap64_small by (unfold BRK_LIMIT in *; lia).
    rewrite with_size_same. unfold set_hdr. hsimpl.
    rewrite insert_insert_eq, insert_id by done. by destruct st. }
  assert (Hrh : realloc_heap ptr cell size st
    = Some (ptr, set_hdr (insert cell (with_size (SIZE_ALIGN size) c))
                   (set_brk (brk st + (SIZE_ALIGN size - m_size c)) st))).
  { unfold realloc_heap. rewrite (bind_run _ _ _ _ _ (load_run _ _ _ Hc)).
    rewrite decide_False by lia. rewrite (bind_run _ _ _ _ _ Hco).
    rewrite (bind_run _ _ _ _ _ (load_run _ _ _ Hc)).
    rewrite decide_False by lia.
    rewrite !bool_decide_eq_true_2 by done. cbn [andb].
    rewrite (wrap64_small (SIZE_ALIGN size - m_size c)) by (unfold BRK_LIMIT in *; lia).
    erewrite bind_run by (apply sbrk_run; unfold BRK_LIMIT in *; lia).
    erewrite bind_run by (apply update_run; hsimpl; exact Hc).
    unfold cell. replace (ptr - META_DATA_SIZE + META_DATA_SIZE) with ptr by lia.
    reflexivity. }
  eexists. split.
  - unfold os_realloc. rewrite decide_False by done. rewrite decide_False by lia.
    cbv zeta. fold cell. rewrite (bind_run _ _ _ _ _ (load_run _ _ _ Hc)).
    rewrite decide_False by (rewrite Halloc; done).
    rewrite (bool_decide_eq_false_2 (BRK_LIMIT ≤ size)) by lia.
    rewrite andb_false_r. rewrite decide_True by done.
    rewrite (bind_run _ _ _ _ _ Hrh).
    erewrite bind_run by (apply load_run; hsimpl; apply lookup_insert_eq).
    hsimpl. rewrite decide_False by (rewrite Halloc; done). reflexivity.
  - by hsimpl.
Qed.

Lemma os_realloc_grow_last_witness :
  ∃ st',
    os_realloc 1048608 131050 full_state = Some (1048608, st') ∧
    brk st' = brk full_state + (SIZE_ALIGN 131050 - 131040) ∧
    hdr st' = <[1048608 - META_DATA_SIZE :=
                  with_size (SIZE_ALIGN 131050) (Block 131040 STATUS_ALLOC 4128 4128)]>
                (hdr full_state) ∧
    trace st' = trace full_state ∧ maps st' = maps full_state ∧
    mem st' = mem full_state.
Proof.
  apply (os_realloc_grow_last full_state 1048608 131050
           (Block 131040 STATUS_ALLOC 4128 4128)); by vm_compute.
Defined.

(** C4 fails on the code.  A last block whose payload stops 8 bytes short of
    the break ([os_malloc(131030)] on a fresh heap), resized to 131050
    bytes, is not grown in place: [os_realloc] allocates a second block
    behind it, copies, returns another pointer, and the break moves by a
    header and the whole new size instead of the 16 bytes that are missing.
    So is a block that becomes the last one by absorbing the FREE block
    behind it and is still too small.  The guard of the in-place branch
    compares the size before coalescing with the size after it, which
    differ in both runs; only a last block that ends exactly at the break
    ([os_malloc(131040)]) is grown in place. *)
Theorem os_realloc_last_block_relocated :
  os_malloc 131030 initial_state = Some (1048608, slack_state) ∧
  heap_list slack_state = Some [1048576] ∧
  header_of slack_state 1048608 = Some (Block 131032 STATUS_ALLOC 4128 block_head_brk) ∧
  131050 < BRK_LIMIT ∧ 131032 < SIZE_ALIGN 131050 ∧
  (λ r, (fst r, brk (snd r), trace (snd r), heap_list (snd r)))
    <$> os_realloc 1048608 131050 slack_state
  = Some (1179680, brk slack_state + (META_DATA_SIZE + SIZE_ALIGN 131050),
          [Memcpy 1179680 1048608 131040], Some [1048576; 1179648]) ∧
  1179680 ≠ 1048608 ∧
  brk slack_state + (SIZE_ALIGN 131050 - (brk slack_state - 1048608))
  < brk slack_state + (META_DATA_SIZE + SIZE_ALIGN 131050) ∧
  (λ r, (fst r, brk (snd r), heap_list (snd r),
         header_of (snd r) (snd (fst r)), hdr (snd r) !! 1048944))
    <$> (p <- os_malloc 100 ;; q <- os_malloc 200 ;; ret (p, q)) initial_state
  = Some ((1048608, 1048744), 1179648, Some [1048576; 1048712; 1048944],
          Some (Block 200 STATUS_ALLOC 1048576 1048944),
          Some (Block 130672 STATUS_FREE 1048712 block_head_brk)) ∧
  131000 < BRK_LIMIT ∧ 1179648 - 1048744 < SIZE_ALIGN 131000 ∧
  (λ r, (fst r, brk (snd r), trace (snd r), heap_list (snd r)))
    <$> (p <- os_malloc 100 ;; q <- os_malloc 200 ;; r <- os_realloc q 131000 ;;
         ret (q, r)) initial_state
  = Some ((1048744, 1179680), 1179648 + (META_DATA_SIZE + SIZE_ALIGN 131000),
          [Memcpy 1179680 1048744 130904], Some [1048576; 1048712; 1179648]) ∧
  1179680 ≠ 1048744 ∧
  (λ r, (fst r, brk (snd r), trace (snd r), heap_list (snd r)))
    <$> (p <- os_malloc 131040 ;; q <- os_realloc p 131050 ;; ret (p, q)) initial_state
  = Some ((1048608, 1048608), 1179648 + (SIZE_ALIGN 131050 - 131040), [],
          Some [1048576]).
Proof. split_and!; by vm_compute. Qed.

(** ** The mapped list and the copies of [os_realloc] *)

(** A mapped allocation leaves the new cell alone on the mapped list,
    whatever was linked before, while every earlier mapping stays live. *)
Lemma add_meta_cell_mmap_alone st size :
  mmap_ok st → 0 ≤ size → mmap_next st + size + 40 ≤ ADDR_MAX →
  ∃ st', add_meta_cell_mmap size st = Some (mmap_next st + META_DATA_SIZE, st') ∧
         mapped_list st' = Some [mmap_next st] ∧
         maps st' = maps st ++ [(mmap_next st, META_DATA_SIZE + SIZE_ALIGN size)].
Proof.
  intros Hok Hsize Hroom.
  destruct (add_meta_cell_mmap_ok st size Hok Hsize Hroom)
    as (st' & Hrun & Hh & _ & Hm & _).
  exists st'. split_and!; try done.
  assert (Hne : mmap_next st ≠ block_head_mmap).
  { destruct Hok as (_ & _ & _ & Hnext). unfold block_head_mmap, BRK_MAX in *. lia. }
  unfold mapped_list, list_of. rewrite Hh, lookup_insert_eq. cbn [m_next cells_from].
  rewrite decide_False by done.
  rewrite lookup_insert_ne, lookup_insert_eq by done. cbn [m_next].
  destruct (base.size _) as [|n] eqn:Hn.
  - apply map_size_empty_inv in Hn. apply (f_equal (λ h, h !! block_head_mmap)) in Hn.
    by rewrite lookup_insert_eq, lookup_empty in Hn.
  - cbn [cells_from]. by rewrite decide_True.
Qed.

(** C2 fails on the code.  After two mapped allocations both mappings are
    live and both headers are MAPPED, but the list walked from the sentinel
    holds the second cell only: [add_meta_cell_mmap] initialises the list
    again on every call, because [init_list_mmap] leaves the sentinel with
    the size 0 that marks an uninitialised list. *)
Theorem mapped_list_drops_earlier_blocks :
  (λ r, (fst r, maps (snd r), mapped_list (snd r),
         header_of (snd r) (fst (fst r)), header_of (snd r) (snd (fst r))))
    <$> (p <- os_malloc 200000 ;; q <- os_malloc 300000 ;; ret (p, q)) initial_state
  = Some ((70368744177696, 70368744378400),
          [(70368744177664, 200032); (70368744378368, 300032)],
          Some [70368744378368],
          Some (Block 200000 STATUS_MAPPED block_head_mmap block_head_mmap),
          Some (Block 300000 STATUS_MAPPED block_head_mmap block_head_mmap)).
Proof. by vm_compute. Qed.

(** C1 fails on the code.  Resizing a MAPPED block of 131072 bytes to 200000
    bytes copies 200000 bytes out of the old payload; moving an interior
    ALLOCATED block of 104 bytes copies the 240 bytes the block has after
    coalescing; moving a MAPPED block to a 104-byte heap block copies the
    100 bytes asked for.  None is the minimum of the two payload sizes, and
    the first two read past the source payload. *)
Theorem os_realloc_copy_lengths :
  (λ r, (fst r, trace (snd r)))
    <$> (p <- os_malloc 131072 ;; q <- os_realloc p 200000 ;; ret (p, q)) initial_state
  = Some ((70368744177696, 70368744312864),
          [Memcpy 70368744312864 70368744177696 200000]) ∧
  (λ r, header_of (snd r) (fst r)) <$> os_malloc 131072 initial_state
  = Some (Some (Block 131072 STATUS_MAPPED block_head_mmap block_head_mmap)) ∧
  Z.min 131072 (SIZE_ALIGN 200000) < 200000 ∧
  (λ r, (fst r, trace (snd r)))
    <$> (p <- os_malloc 100 ;; q <- os_malloc 100 ;; r <- os_malloc 100 ;;
         os_free q ;;; s <- os_realloc p 400 ;; ret (p, s)) initial_state
  = Some ((1048608, 1049016), [Memcpy 1049016 1048608 240]) ∧
  (λ r, header_of (snd r) (fst r)) <$> os_malloc 100 initial_state
  = Some (Some (Block 104 STATUS_ALLOC block_head_brk 1048712)) ∧
  Z.min 104 (SIZE_ALIGN 400) < 240 ∧
  (λ r, (fst r, trace (snd r), header_of (snd r) (snd (fst r))))
    <$> (p <- os_malloc 200000 ;; q <- os_realloc p 100 ;; ret (p, q)) initial_state
  = Some ((70368744177696, 1048608), [Memcpy 1048608 70368744177696 100],
          Some (Block 104 STATUS_ALLOC block_head_brk 1048712)) ∧
  100 < Z.min 200000 104.
Proof. split_and!; by vm_compute. Qed.

(** ** The invariants are kept *)

Lemma heap_ok_ext st st' :
  heap_ok st →
  (∀ a, ¬ outside_heap a → hdr st' !! a = hdr st !! a) →
  brk st' = brk st → heap_ok st'.
Proof.
  intros Hok Hh Hb.
  assert (Hhead : hdr st' !! block_head_brk = hdr st !! block_head_brk).
  { apply Hh. by intros [? _]. }
  destruct Hok as [(hm & Hm & ? & ? & ? & ?)|(l & Hne & Hr)].
  - left. exists hm. rewrite Hhead, Hb. by split_and!.
  - right. exists l. split; [done|].
    pose proof (heap_repr_brk _ _ Hr) as Hbrk.
    pose proof Hr as (hm & Hm & ? & ? & ? & Hc & ? & ?).
    exists hm. rewrite Hhead, Hb. split_and!; try done.
    eapply chain_ext; [|exact Hc]. intros a Ha. apply Hh. intros [_ Hout].
    destruct (chain_bounds _ _ _ _ _ _ _ Hc Ha). rewrite META_DATA_SIZE_eq in *. lia.
Qed.

Lemma outside_head_mmap : outside_heap block_head_mmap.
Proof. split; [done|]. left. by vm_compute. Qed.

Lemma add_meta_cell_mmap_preserves st size p st' :
  heap_ok st → mmap_ok st → 0 ≤ size → mmap_next st + size + 40 ≤ ADDR_MAX →
  add_meta_cell_mmap size st = Some (p, st') → heap_ok st' ∧ mmap_ok st'.
Proof.
  intros Hheap Hmmap Hsize Hmap.
  destruct (add_meta_cell_mmap_ok st size Hmmap) as (st1 & Hrun & Hh & Hb & _ & Hn & _);
    [lia..|].
  rewrite Hrun. intros [= <- <-]. destruct Hmmap as (hm & Hm & Hz & Hnext). split.
  - eapply heap_ok_ext; [done| |done]. intros a Ha. rewrite Hh.
    rewrite !lookup_insert_ne; [done|..].
    + intros <-. apply Ha. split; [|right; done].
      unfold block_head_brk, BRK_MAX in *. lia.
    + intros <-. apply Ha, outside_head_mmap.
  - eexists. rewrite Hh, lookup_insert_eq. split_and!; [done..|lia].
Qed.

Lemma heap_alloc_preserves st size p st' :
  heap_ok st → mmap_ok st → 0 ≤ size ≤ BRK_LIMIT →
  brk st + 2 * BRK_LIMIT + 64 ≤ BRK_MAX →
  heap_alloc size st = Some (p, st') → heap_ok st' ∧ mmap_ok st'.
Proof.
  intros Hheap Hmmap Hsize Hbrk.
  destruct (heap_alloc_ok st size Hheap) as (p' & f & b & l' & Hrun & Hr & Hne & Hfr);
    [lia..|].
  rewrite Hrun. intros [= <- <-]. split; [right; by exists l'|].
  destruct Hmmap as (hm & Hm & Hz & Hnext). exists hm. hsimpl.
  rewrite Hfr by apply outside_head_mmap. by split_and!.
Qed.

(** [os_malloc] keeps both lists well formed. *)
Lemma os_malloc_preserves st size p st' :
  heap_ok st → mmap_ok st → room size st → 0 ≤ size →
  os_malloc size st = Some (p, st') → heap_ok st' ∧ mmap_ok st'.
Proof.
  intros Hheap Hmmap [Hbrk Hmap] Hsize. unfold os_malloc.
  case_decide; [by intros [= <- <-]|]. case_decide as Hbig.
  - by apply add_meta_cell_mmap_preserves.
  - apply heap_alloc_preserves; try done. lia.
Qed.

(** So does [os_calloc]. *)
Lemma os_calloc_preserves st nmemb size p st' :
  heap_ok st → mmap_ok st → room (wrap64 (nmemb * size)) st →
  os_calloc nmemb size st = Some (p, st') → heap_ok st' ∧ mmap_ok st'.
Proof.
  intros Hheap Hmmap [Hbrk Hmap]. pose proof (wrap64_range (nmemb * size)) as Hrange.
  unfold os_calloc. cbv zeta.
  rewrite (decide_True (P := 4080 < getpagesize)) by (by vm_compute).
  case_decide as Hz; [by intros [= <- <-]|].
  intros Hrun. apply bind_Some in Hrun as (ra & st1 & Halloc & Hrun).
  apply bind_Some in Hrun as (? & st2 & Hset & Hrun). apply ret_Some in Hrun as [<- ->].
  rewrite memset0_run in Hset. injection Hset as Hst2. subst st2.
  assert (heap_ok st1 ∧ mmap_ok st1) as [Hheap1 Hmmap1].
  { revert Halloc. case_decide.
    - by apply add_meta_cell_mmap_preserves; [..|lia|].
    - apply heap_alloc_preserves; try done. unfold BRK_LIMIT. lia. }
  split.
  - by eapply heap_ok_ext.
  - destruct Hmmap1 as (hm & ? & ? & ?). by exists hm.
Qed.

(** So does freeing an ALLOCATED block of the heap list. *)
Lemma os_free_heap_preserves st l1 c l2 m :
  heap_repr st (l1 ++ c :: l2) → mmap_ok st →
  hdr st !! c = Some m → m_status m = STATUS_ALLOC →
  ∃ st', os_free (c + META_DATA_SIZE) st = Some (tt, st') ∧
         heap_repr st' (l1 ++ c :: l2) ∧ mmap_ok st'.
Proof.
  intros Hr Hmmap Hm Hst.
  destruct (heap_repr_above _ _ c Hr) as [Hlo _]; [set_solver|].
  exists (set_hdr (insert c (with_status STATUS_FREE m)) st). split_and!.
  - rewrite (os_free_alloc_run (c + META_DATA_SIZE) st m);
      replace (c + META_DATA_SIZE - META_DATA_SIZE) with c by lia; try done.
    revert Hlo. rewrite META_DATA_SIZE_eq.
    unfold heap_lo, block_head_mmap, sizeof_block_meta, NULL. lia.
  - destruct (heap_repr_lookup _ _ _ _ Hr) as (m' & Hm' & _ & _ & _ & _ & ? & ? & ?).
    rewrite Hm in Hm'. injection Hm' as <-.
    by eapply heap_repr_set_cell.
  - destruct Hmmap as (hm & Hhm & ? & ?). exists hm. hsimpl.
    rewrite lookup_insert_ne; [by split_and!|].
    intros ->. revert Hlo. unfold heap_lo, sizeof_block_meta. lia.
Qed.

(** * Further properties of the code *)

(** ** [SIZE_ALIGN] *)

(** X1.  For a [size_t] value [s], [SIZE_ALIGN(s)] is the least multiple of
    8 that is at least [s], as long as [s] is at most 2^64 - 8; for the
    seven values above that the sum wraps and the result is 0. *)
Theorem SIZE_ALIGN_least_multiple (s : Z) :
  0 ≤ s < 2 ^ 64 →
  (s ≤ 2 ^ 64 - 8 →
   SIZE_ALIGN s mod 8 = 0 ∧ s ≤ SIZE_ALIGN s < s + 8 ∧
   ∀ k, k mod 8 = 0 → s ≤ k → SIZE_ALIGN s ≤ k) ∧
  (2 ^ 64 - 8 < s → SIZE_ALIGN s = 0).
Proof.
  intros Hs. split.
  - intros Hle. pose proof (SIZE_ALIGN_bounds s ltac:(lia)) as Hb.
    pose proof (SIZE_ALIGN_mod8 s) as Hm. split_and!; [done|lia..|].
    intros k Hk Hsk. by apply (le_SIZE_ALIGN s k ltac:(lia) Hk).
  - intros Hgt. rewrite SIZE_ALIGN_eq. unfold wrap64.
    replace ((s + 7) mod 2 ^ 64) with (s + 7 - 2 ^ 64)
      by (apply Z.mod_unique with 1; lia).
    rewrite Z.div_small; lia.
Qed.

Lemma SIZE_ALIGN_least_multiple_witness :
  (100 ≤ 2 ^ 64 - 8 →
   SIZE_ALIGN 100 mod 8 = 0 ∧ 100 ≤ SIZE_ALIGN 100 < 100 + 8 ∧
   ∀ k, k mod 8 = 0 → 100 ≤ k → SIZE_ALIGN 100 ≤ k) ∧
  (2 ^ 64 - 8 < 100 → SIZE_ALIGN 100 = 0).
Proof. apply (SIZE_ALIGN_least_multiple 100). lia. Defined.

(** ** The two list operations *)

Lemma shrunk_state_repr : heap_repr shrunk_state [1048576; 1048712; 1048944].
Proof.
  exists (Block 1 (-1) 1048944 1048576). split_and!; try done.
  cbn [chain hd].
  exists (Block 40 STATUS_ALLOC 4128 1048712). split_and!; try done.
  exists (Block 200 STATUS_ALLOC 1048576 1048944). split_and!; try done.
  exists (Block 130672 STATUS_FREE 1048712 4128). split_and!; try done.
Qed.

(** X2.  [delete_meta_cell_brk] on a cell of a well-formed heap list takes
    exactly that cell out of the list and keeps the order of the others; the
    header of the cell stays in memory as it was, and no header changes its
    size or status. *)
Theorem delete_meta_cell_brk_unlinks (st : state) (l1 l2 : list Z) (a : Z) :
  heap_repr st (l1 ++ a :: l2) →
  ∃ st',
    delete_meta_cell_brk a st = Some (tt, st') ∧
    heap_list st' = Some (l1 ++ l2) ∧
    hdr st' !! a = hdr st !! a ∧
    (∀ b, data_kept (hdr st) (hdr st') b) ∧
    brk st' = brk st ∧ maps st' = maps st ∧ trace st' = trace st.
Proof.
  intros Hr.
  destruct (delete_ok _ _ _ _ Hr)
    as (f & ma & lo_c & Hdel & Hsp & Hlo & _ & Hs0 & Hma & Hma' & _).
  exists (set_hdr f st). split_and!; try done.
  - apply heap_repr_list. eapply heap_split_repr; [exact Hsp|].
    rewrite META_DATA_SIZE_eq. lia.
  - hsimpl. by rewrite Hma, Hma'.
  - destruct (delete_post _ _ _ _ Hdel) as (f' & Hf' & Hkept).
    rewrite Hf'. exact Hkept.
Qed.

Lemma delete_meta_cell_brk_unlinks_witness :
  ∃ st',
    delete_meta_cell_brk 1048712 freed_state = Some (tt, st') ∧
    heap_list st' = Some ([1048576] ++ [1048944]) ∧
    hdr st' !! 1048712 = hdr freed_state !! 1048712 ∧
    (∀ b, data_kept (hdr freed_state) (hdr st') b) ∧
    brk st' = brk freed_state ∧ maps st' = maps freed_state ∧
    trace st' = trace freed_state.
Proof.
  apply (delete_meta_cell_brk_unlinks freed_state [1048576] [1048944] 1048712).
  exact freed_state_repr.
Defined.

(** X3.  [add_meta_cell_brk] with a cell of a well-formed heap list as
    anchor, and a new cell placed in the unused bytes behind the anchor's
    payload, links the new cell right after the anchor, with the aligned
    size and the status given, and returns the address of its payload. *)
Theorem add_meta_cell_brk_links (st : state) (l1 l2 : list Z)
    (c cell size status : Z) (mc : block_meta) :
  heap_repr st (l1 ++ c :: l2) →
  hdr st !! c = Some mc →
  c + META_DATA_SIZE + m_size mc ≤ cell → cell mod 8 = 0 →
  cell + META_DATA_SIZE + SIZE_ALIGN size ≤ hd (brk st) l2 →
  ∃ st',
    add_meta_cell_brk c cell size status st = Some (cell + META_DATA_SIZE, st') ∧
    heap_list st' = Some (l1 ++ c :: cell :: l2) ∧
    hdr st' !! cell = Some (Block (SIZE_ALIGN size) status c (hd block_head_brk l2)) ∧
    (∀ b, b ≠ cell → data_kept (hdr st) (hdr st') b) ∧
    brk st' = brk st.
Proof.
  intros Hr Hmc Hlo Hal Hhi.
  pose proof (heap_repr_split_at _ _ _ _ _ Hr Hmc) as Hsp.
  destruct (add_ok _ _ _ cell size status _ _ Hsp Hlo Hal Hhi)
    as (f & Hadd & Hr' & Hcell & _).
  rewrite last_snoc in Hadd, Hcell. exists (set_hdr f st). split_and!; try done.
  - rewrite <- app_assoc in Hr'. by apply heap_repr_list.
  - destruct (add_post _ _ _ _ _ _ _ Hadd) as (_ & f' & Hf' & Hkept & _).
    rewrite Hf'. exact Hkept.
Qed.

Lemma add_meta_cell_brk_links_witness :
  ∃ st',
    add_meta_cell_brk 1048576 1048648 32 STATUS_FREE shrunk_state
    = Some (1048648 + META_DATA_SIZE, st') ∧
    heap_list st' = Some ([] ++ 1048576 :: 1048648 :: [1048712; 1048944]) ∧
    hdr st' !! 1048648
    = Some (Block (SIZE_ALIGN 32) STATUS_FREE 1048576
                  (hd block_head_brk [1048712; 1048944])) ∧
    (∀ b, b ≠ 1048648 → data_kept (hdr shrunk_state) (hdr st') b) ∧
    brk st' = brk shrunk_state.
Proof.
  apply (add_meta_cell_brk_links shrunk_state [] [1048712; 1048944]
           1048576 1048648 32 STATUS_FREE (Block 40 STATUS_ALLOC 4128 1048712)).
  - exact shrunk_state_repr.
  - reflexivity.
  - by vm_compute.
  - reflexivity.
  - by vm_compute.
Defined.

(** ** Preallocation and splitting *)

Lemma heap_preallocation_cell st :
  heap_fresh st → brk st + BRK_LIMIT ≤ BRK_MAX →
  ∃ f hm,
    heap_preallocation st
    = Some (tt, set_hdr f (set_brk (brk st + BRK_LIMIT) st)) ∧
    heap_repr (set_hdr f (set_brk (brk st + BRK_LIMIT) st)) [brk st] ∧
    f (hdr st) !! brk st
    = Some (Block (BRK_LIMIT - META_DATA_SIZE) STATUS_FREE
                  block_head_brk block_head_brk) ∧
    f (hdr st) !! block_head_brk = Some hm ∧ m_size hm ≠ 0.
Proof.
  intros (hm & Hh & Hz & Hlo & Hb8 & Hbm) Hroom. pose proof META_DATA_SIZE_eq as HM.
  unfold heap_preallocation. rewrite (bind_run _ _ _ _ _ (init_list_brk_run _ _ Hh)).
  assert (Hlo0 : 0 ≤ brk st).
  { revert Hlo. unfold heap_lo, block_head_mmap, sizeof_block_meta. lia. }
  erewrite bind_run by (apply sbrk_run; hsimpl; unfold BRK_LIMIT in *; lia).
  hsimpl.
  set (st1 := set_brk (brk st + BRK_LIMIT)
                (set_hdr (insert block_head_brk
                            (Block 1 (-1) block_head_brk block_head_brk)) st)).
  assert (Hsp : heap_split st1 [] [] (brk st) (brk st + BRK_LIMIT)).
  { eexists. split; [apply lookup_insert_eq|]. hsimpl. cbn [chain app hd List.last].
    split_and!; try done; unfold st1; hsimpl; unfold BRK_LIMIT in *; try lia.
    clear -Hb8. Z.div_mod_to_equations. lia. }
  rewrite (wrap64_small (BRK_LIMIT - META_DATA_SIZE)) by (by rewrite HM).
  assert (Hsa : SIZE_ALIGN (BRK_LIMIT - META_DATA_SIZE) = BRK_LIMIT - META_DATA_SIZE).
  { rewrite SIZE_ALIGN_aligned; [done|by rewrite HM|by rewrite HM]. }
  destruct (add_ok _ _ _ (brk st) (BRK_LIMIT - META_DATA_SIZE) STATUS_FREE _ _ Hsp)
    as (f & Hadd & Hr & Hcell & _); [lia|done|rewrite Hsa; lia|].
  cbn [List.last hd] in Hadd, Hcell. rewrite (bind_run _ _ _ _ _ Hadd).
  pose proof Hr as (hm' & Hhm' & Hsz' & _).
  exists (λ h, f (<[block_head_brk := Block 1 (-1) block_head_brk block_head_brk]> h)), hm'.
  rewrite Hsa in Hcell. by split_and!.
Qed.

(** X4.  On a heap that has not been used yet, [heap_preallocation] moves
    the break up by [BRK_LIMIT] and makes the heap list one FREE cell, at the
    old break, whose payload takes all of the new space after its header;
    the sentinel's size is no longer 0, so the preallocation is not run
    again. *)
Theorem heap_preallocation_spec (st : state) :
  heap_fresh st → brk st + BRK_LIMIT ≤ BRK_MAX →
  ∃ st' hm,
    heap_preallocation st = Some (tt, st') ∧
    brk st' = brk st + BRK_LIMIT ∧
    heap_list st' = Some [brk st] ∧
    hdr st' !! brk st
    = Some (Block (BRK_LIMIT - META_DATA_SIZE) STATUS_FREE
                  block_head_brk block_head_brk) ∧
    hdr st' !! block_head_brk = Some hm ∧ m_size hm ≠ 0 ∧
    maps st' = maps st ∧ trace st' = trace st.
Proof.
  intros Hfresh Hroom.
  destruct (heap_preallocation_cell _ Hfresh Hroom)
    as (f & hm & Hrun & Hr & Hcell & Hh & Hz).
  exists (set_hdr f (set_brk (brk st + BRK_LIMIT) st)), hm. split_and!; try done.
  by apply heap_repr_list.
Qed.

Lemma heap_preallocation_spec_witness :
  ∃ st' hm,
    heap_preallocation initial_state = Some (tt, st') ∧
    brk st' = brk initial_state + BRK_LIMIT ∧
    heap_list st' = Some [brk initial_state] ∧
    hdr st' !! brk initial_state
    = Some (Block (BRK_LIMIT - META_DATA_SIZE) STATUS_FREE
                  block_head_brk block_head_brk) ∧
    hdr st' !! block_head_brk = Some hm ∧ m_size hm ≠ 0 ∧
    maps st' = maps initial_state ∧ trace st' = trace initial_state.
Proof.
  apply (heap_preallocation_spec initial_state).
  - exists (Block 0 0 0 0). by split_and!.
  - by vm_compute.
Defined.

Lemma use_unused_space_cases st l1 l2 c used mc :
  heap_repr st (l1 ++ c :: l2) → hdr st !! c = Some mc →
  SIZE_ALIGN used = m_size mc →
  (hd (brk st) l2 - (c + META_DATA_SIZE + m_size mc) ≤ META_DATA_SIZE →
   use_unused_space c used st = Some (tt, st)) ∧
  (META_DATA_SIZE < hd (brk st) l2 - (c + META_DATA_SIZE + m_size mc) →
   ∃ f,
     use_unused_space c used st = Some (tt, set_hdr f st) ∧
     heap_repr (set_hdr f st) (l1 ++ c :: (c + META_DATA_SIZE + m_size mc) :: l2) ∧
     f (hdr st) !! (c + META_DATA_SIZE + m_size mc)
     = Some (Block (hd (brk st) l2 - (c + META_DATA_SIZE + m_size mc)
                    - META_DATA_SIZE)
                   STATUS_FREE c (hd block_head_brk l2)) ∧
     (∀ b, b ≠ c + META_DATA_SIZE + m_size mc →
           data_kept (hdr st) (f (hdr st)) b)).
Proof.
  intros Hr Hmc Hused. pose proof META_DATA_SIZE_eq as HM.
  destruct (heap_repr_lookup _ _ _ _ Hr)
    as (mc' & Hmc' & _ & Hnc & Hlo & Hc8 & Hs0 & Hs8 & Hend).
  rewrite Hmc in Hmc'. injection Hmc' as <-.
  destruct (hd_brk_mod8 _ _ _ _ Hr) as [Hstop8 Hstop].
  pose proof (heap_repr_brk _ _ Hr) as Hbrk.
  assert (Hstop_run :
    (if decide (m_next mc ≠ block_head_brk) then ret (m_next mc) else sbrk 0) st
    = Some (hd (brk st) l2, st)).
  { rewrite Hnc. destruct l2 as [|b l2]; cbn [hd].
    - rewrite decide_False by (intros ?; done). by apply sbrk0_run.
    - destruct (heap_repr_not_head _ _ b Hr) as [Hbh _]; [set_solver|].
      by rewrite decide_True. }
  set (start := c + META_DATA_SIZE + m_size mc) in *.
  assert (Hgap : 0 ≤ hd (brk st) l2 - start < 2 ^ 64).
  { unfold BRK_MAX in *. revert Hlo.
    unfold start, heap_lo, block_head_mmap, sizeof_block_meta. lia. }
  assert (Hrun : use_unused_space c used st
    = (if decide (META_DATA_SIZE < hd (brk st) l2 - start) then
         add_meta_cell_brk c start (wrap64 (hd (brk st) l2 - start - META_DATA_SIZE))
           STATUS_FREE ;;; ret tt
       else ret tt) st).
  { unfold use_unused_space. rewrite (bind_run _ _ _ _ _ (load_run _ _ _ Hmc)).
    rewrite (bind_run _ _ _ _ _ Hstop_run). rewrite Hused. fold start.
    by rewrite (wrap64_small (hd (brk st) l2 - start)). }
  rewrite Hrun. split.
  - intros Hsmall. by rewrite decide_False by lia.
  - intros Hbig. rewrite decide_True by done.
    assert (Hsz : (hd (brk st) l2 - start - META_DATA_SIZE) mod 8 = 0).
    { rewrite HM. apply mod8_sub; [done|]. unfold start. rewrite HM.
      by apply mod8_add3. }
    rewrite (wrap64_small (_ - _ - _)) by lia.
    pose proof (heap_repr_split_at _ _ _ _ _ Hr Hmc) as Hsp. fold start in Hsp.
    assert (Hsa : SIZE_ALIGN (hd (brk st) l2 - start - META_DATA_SIZE)
                  = hd (brk st) l2 - start - META_DATA_SIZE)
      by (apply SIZE_ALIGN_aligned; [lia|done]).
    destruct (add_ok _ _ _ start (hd (brk st) l2 - start - META_DATA_SIZE) STATUS_FREE
                _ _ Hsp) as (f & Hadd & Hr' & Hcell & _).
    + lia.
    + unfold start. rewrite HM. by apply mod8_add3.
    + rewrite Hsa. lia.
    + rewrite last_snoc in Hadd, Hcell. rewrite Hsa in Hcell.
      rewrite (bind_run _ _ _ _ _ Hadd).
      exists f. split_and!; try done.
      * by rewrite <- app_assoc in Hr'.
      * destruct (add_post _ _ _ _ _ _ _ Hadd) as (_ & f' & Hf' & Hkept & _).
        apply set_hdr_eq in Hf'. rewrite Hf'. exact Hkept.
Qed.

(** X5.  [use_unused_space] on a cell of a well-formed heap list, called
    with the size the cell has: when more than a header's worth of bytes lie
    between the end of the payload and the next cell (or the break, for the
    last cell), they become one FREE cell linked right after, whose payload
    ends where the next cell starts; when the gap is a header's worth or
    less, nothing changes. *)
Theorem use_unused_space_splits (st : state) (l1 l2 : list Z)
    (c used : Z) (mc : block_meta) :
  heap_repr st (l1 ++ c :: l2) → hdr st !! c = Some mc →
  SIZE_ALIGN used = m_size mc →
  (hd (brk st) l2 - (c + META_DATA_SIZE + m_size mc) ≤ META_DATA_SIZE →
   use_unused_space c used st = Some (tt, st)) ∧
  (META_DATA_SIZE < hd (brk st) l2 - (c + META_DATA_SIZE + m_size mc) →
   ∃ st',
     use_unused_space c used st = Some (tt, st') ∧
     heap_list st' = Some (l1 ++ c :: (c + META_DATA_SIZE + m_size mc) :: l2) ∧
     hdr st' !! (c + META_DATA_SIZE + m_size mc)
     = Some (Block (hd (brk st) l2 - (c + META_DATA_SIZE + m_size mc)
                    - META_DATA_SIZE)
                   STATUS_FREE c (hd block_head_brk l2)) ∧
     (∀ b, b ≠ c + META_DATA_SIZE + m_size mc → data_kept (hdr st) (hdr st') b) ∧
     brk st' = brk st).
Proof.
  intros Hr Hmc Hused.
  destruct (use_unused_space_cases _ _ _ _ _ _ Hr Hmc Hused) as [Hsmall Hbig].
  split; [exact Hsmall|]. intros Hgap.
  destruct (Hbig Hgap) as (f & Huse & Hr' & Hnew & Hk).
  exists (set_hdr f st). split_and!; try done. by apply heap_repr_list.
Qed.

Lemma use_unused_space_splits_witness :
  (hd (brk shrunk_state) [1048712; 1048944] - (1048576 + META_DATA_SIZE + 40)
   ≤ META_DATA_SIZE →
   use_unused_space 1048576 40 shrunk_state = Some (tt, shrunk_state)) ∧
  (META_DATA_SIZE
   < hd (brk shrunk_state) [1048712; 1048944] - (1048576 + META_DATA_SIZE + 40) →
   ∃ st',
     use_unused_space 1048576 40 shrunk_state = Some (tt, st') ∧
     heap_list st'
     = Some ([] ++ 1048576 :: (1048576 + META_DATA_SIZE + 40) :: [1048712; 1048944]) ∧
     hdr st' !! (1048576 + META_DATA_SIZE + 40)
     = Some (Block (hd (brk shrunk_state) [1048712; 1048944]
                    - (1048576 + META_DATA_SIZE + 40) - META_DATA_SIZE)
                   STATUS_FREE 1048576 (hd block_head_brk [1048712; 1048944])) ∧
     (∀ b, b ≠ 1048576 + META_DATA_SIZE + 40 →
           data_kept (hdr shrunk_state) (hdr st') b) ∧
     brk st' = brk shrunk_state).
Proof.
  apply (use_unused_space_splits shrunk_state [] [1048712; 1048944] 1048576 40
           (Block 40 STATUS_ALLOC 4128 1048712)).
  - exact shrunk_state_repr.
  - reflexivity.
  - by vm_compute.
Defined.

(** ** [os_realloc]: the paths that do not copy, and the move to a mapping *)

Lemma full_state_repr : heap_repr full_state [1048576].
Proof.
  exists (Block 1 (-1) 1048576 1048576). split_and!; try done.
  cbn [chain hd].
  exists (Block 131040 STATUS_ALLOC 4128 4128). split_and!; try done.
Qed.

(** X6.  Resizing an ALLOCATED block of a well-formed heap list to a size
    whose aligned value is not larger than the size the block has (the same
    size included) returns the pointer it was given: the block stays
    ALLOCATED with the aligned new size, nothing is copied, the break and the
    mappings stay, and the heap list is well formed again. *)
Theorem os_realloc_shrinks_in_place (st : state) (l1 l2 : list Z)
    (c size : Z) (mc : block_meta) :
  heap_repr st (l1 ++ c :: l2) → hdr st !! c = Some mc →
  m_status mc = STATUS_ALLOC →
  0 < size < BRK_LIMIT → SIZE_ALIGN size ≤ m_size mc →
  ∃ st' m l',
    os_realloc (c + META_DATA_SIZE) size st = Some (c + META_DATA_SIZE, st') ∧
    hdr st' !! c = Some m ∧ m_size m = SIZE_ALIGN size ∧ m_status m = STATUS_ALLOC ∧
    heap_repr st' l' ∧ l' ≠ [] ∧
    trace st' = trace st ∧ brk st' = brk st ∧ maps st' = maps st.
Proof.
  intros Hr Hmc Halloc Hsize Hle. pose proof META_DATA_SIZE_eq as HM.
  destruct (heap_repr_lookup _ _ _ _ Hr)
    as (mc' & Hmc' & _ & _ & Hlo & Hc8 & Hs0 & Hs8 & Hend).
  rewrite Hmc in Hmc'. injection Hmc' as <-.
  pose proof (SIZE_ALIGN_range size) as Hsr. pose proof (SIZE_ALIGN_mod8 size) as Hsm.
  assert (Hptr : c + META_DATA_SIZE ≠ NULL).
  { revert Hlo. unfold heap_lo, block_head_mmap, sizeof_block_meta, NULL. lia. }
  set (st1 := set_hdr (insert c (with_size (SIZE_ALIGN size) mc)) st).
  assert (Hr1 : heap_repr st1 (l1 ++ c :: l2)).
  { eapply heap_repr_set_cell; try done; hsimpl; lia. }
  assert (Hmc1 : hdr st1 !! c = Some (with_size (SIZE_ALIGN size) mc))
    by apply lookup_insert_eq.
  destruct (use_unused_space_ok _ _ _ _ _ (SIZE_ALIGN size) Hr1 Hmc1)
    as (f & l' & Huse & Hr2 & Hne & _); [hsimpl; apply SIZE_ALIGN_idem|].
  destruct (use_unused_space_post _ _ _ _ _ Huse) as (f' & Hf' & Hkept).
  assert (Hne_start : c ≠ c + META_DATA_SIZE + SIZE_ALIGN (SIZE_ALIGN size)).
  { pose proof (SIZE_ALIGN_range (SIZE_ALIGN size)). lia. }
  destruct (Hkept c Hne_start _ Hmc1) as (m & Hm & Hmsz & Hmst).
  cbn [with_size m_size m_status] in Hmsz, Hmst.
  assert (Hm' : hdr (set_hdr f st1) !! c = Some m) by (rewrite Hf'; exact Hm).
  clear Hm. rename Hm' into Hm.
  assert (Hrh : realloc_heap (c + META_DATA_SIZE) c size st
                = Some (c + META_DATA_SIZE, set_hdr f st1)).
  { unfold realloc_heap. rewrite (bind_run _ _ _ _ _ (load_run _ _ _ Hmc)).
    rewrite decide_True by done.
    rewrite (bind_run _ _ _ _ _ (update_run _ _ _ _ Hmc)).
    by rewrite (bind_run _ _ _ _ _ Huse). }
  exists (set_hdr f st1), m, l'. split_and!; try done; [|by rewrite Hmst, Halloc].
  unfold os_realloc. rewrite decide_False by done. rewrite decide_False by lia.
  cbv zeta. replace (c + META_DATA_SIZE - META_DATA_SIZE) with c by lia.
  rewrite (bind_run _ _ _ _ _ (load_run _ _ _ Hmc)).
  rewrite decide_False by (by rewrite Halloc).
  rewrite (bool_decide_eq_false_2 (BRK_LIMIT ≤ size)) by lia.
  rewrite andb_false_r. rewrite decide_True by done.
  rewrite (bind_run _ _ _ _ _ Hrh).
  rewrite (bind_run _ _ _ _ _ (load_run _ _ (set_hdr f st1) Hm)).
  by rewrite decide_False by (rewrite Hmst, Halloc; done).
Qed.

Lemma os_realloc_shrinks_in_place_witness :
  ∃ st' m l',
    os_realloc (1048576 + META_DATA_SIZE) 100 full_state
    = Some (1048576 + META_DATA_SIZE, st') ∧
    hdr st' !! 1048576 = Some m ∧ m_size m = SIZE_ALIGN 100 ∧
    m_status m = STATUS_ALLOC ∧
    heap_repr st' l' ∧ l' ≠ [] ∧
    trace st' = trace full_state ∧ brk st' = brk full_state ∧
    maps st' = maps full_state.
Proof.
  apply (os_realloc_shrinks_in_place full_state [] [] 1048576 100
           (Block 131040 STATUS_ALLOC 4128 4128)).
  - exact full_state_repr.
  - reflexivity.
  - reflexivity.
  - by vm_compute.
  - by vm_compute.
Defined.

(** X7.  Resizing an ALLOCATED heap block to a size of [BRK_LIMIT] or more
    marks the block FREE where it is, maps a new block, and copies the whole
    old payload, [cell->size] bytes, into it; the new pointer is returned
    and the break does not move. *)
Theorem os_realloc_heap_to_mapping (st : state) (ptr size : Z) (c : block_meta) :
  ptr ≠ NULL → BRK_LIMIT ≤ size →
  hdr st !! (ptr - META_DATA_SIZE) = Some c → m_status c = STATUS_ALLOC →
  mmap_ok st → mmap_next st + size + 40 ≤ ADDR_MAX →
  ptr - META_DATA_SIZE ≠ block_head_mmap → ptr - META_DATA_SIZE < BRK_MAX →
  ∃ st',
    os_realloc ptr size st = Some (mmap_next st + META_DATA_SIZE, st') ∧
    hdr st' !! (ptr - META_DATA_SIZE) = Some (with_status STATUS_FREE c) ∧
    header_of st' (mmap_next st + META_DATA_SIZE)
    = Some (Block (SIZE_ALIGN size) STATUS_MAPPED block_head_mmap block_head_mmap) ∧
    trace st' = Memcpy (mmap_next st + META_DATA_SIZE) ptr (m_size c) :: trace st ∧
    maps st' = maps st ++ [(mmap_next st, META_DATA_SIZE + SIZE_ALIGN size)] ∧
    brk st' = brk st.
Proof.
  intros Hp Hsize Hc Halloc Hok Hroom Hne Hlt.
  set (cell := ptr - META_DATA_SIZE) in *.
  set (st1 := set_hdr (insert cell (with_status STATUS_FREE c)) st).
  assert (Hok1 : mmap_ok st1).
  { destruct Hok as (hm & Hhm & ? & ?). exists hm. unfold st1. hsimpl.
    by rewrite lookup_insert_ne. }
  pose proof Hok as (_ & _ & _ & Hnext).
  destruct (add_meta_cell_mmap_ok st1 size Hok1) as (st2 & Hrun & Hh & Hb & Hm & _ & Htr & _);
    [unfold BRK_LIMIT in *; lia|done|]. hsimpl.
  assert (Hc2 : hdr st2 !! cell = Some (with_status STATUS_FREE c)).
  { rewrite Hh. unfold st1. hsimpl.
    rewrite !lookup_insert_ne by (try done; lia). apply lookup_insert_eq. }
  eexists. split.
  - unfold os_realloc. rewrite decide_False by done.
    rewrite decide_False by (unfold BRK_LIMIT in *; lia).
    cbv zeta. fold cell. rewrite (bind_run _ _ _ _ _ (load_run _ _ _ Hc)).
    rewrite decide_False by (by rewrite Halloc).
    rewrite !bool_decide_eq_true_2 by done. cbn [andb].
    rewrite (bind_run _ _ _ _ _ (update_run _ _ _ _ Hc)). fold st1.
    rewrite (bind_run _ _ _ _ _ Hrun).
    rewrite (bind_run _ _ _ _ _ (load_run _ _ _ Hc2)).
    rewrite (bind_run _ _ _ _ _ eq_refl). reflexivity.
  - unfold header_of. hsimpl.
    replace (mmap_next st + META_DATA_SIZE - META_DATA_SIZE) with (mmap_next st) by lia.
    replace (cell + META_DATA_SIZE) with ptr by (unfold cell; lia).
    split_and!; try done.
    + rewrite Hh, lookup_insert_ne, lookup_insert_eq; [done|].
      unfold block_head_mmap, BRK_MAX in *. lia.
    + by rewrite Htr.
Qed.

Lemma os_realloc_heap_to_mapping_witness :
  ∃ st',
    os_realloc 1048608 200000 full_state
    = Some (mmap_next full_state + META_DATA_SIZE, st') ∧
    hdr st' !! (1048608 - META_DATA_SIZE)
    = Some (with_status STATUS_FREE (Block 131040 STATUS_ALLOC 4128 4128)) ∧
    header_of st' (mmap_next full_state + META_DATA_SIZE)
    = Some (Block (SIZE_ALIGN 200000) STATUS_MAPPED block_head_mmap block_head_mmap) ∧
    trace st'
    = Memcpy (mmap_next full_state + META_DATA_SIZE) 1048608
        (m_size (Block 131040 STATUS_ALLOC 4128 4128)) :: trace full_state ∧
    maps st'
    = maps full_state ++ [(mmap_next full_state, META_DATA_SIZE + SIZE_ALIGN 200000)] ∧
    brk st' = brk full_state.
Proof.
  apply (os_realloc_heap_to_mapping full_state 1048608 200000
           (Block 131040 STATUS_ALLOC 4128 4128)); try (by vm_compute).
  exists (Block 0 0 0 0). split_and!; [reflexivity|done|by vm_compute].
Defined.

(** ** Freeing a mapped block *)

Lemma delete_meta_cell_mmap_run st cell c hm :
  hdr st !! cell = Some c →
  m_prev c = block_head_mmap → m_next c = block_head_mmap →
  cell ≠ block_head_mmap →
  hdr st !! block_head_mmap = Some hm →
  delete_meta_cell_mmap cell st
  = Some (tt, State (delete cell
                       (<[block_head_mmap := Block (m_size hm) (m_status hm)
                                                   block_head_mmap block_head_mmap]>
                          (hdr st)))
                    (mem st) (brk st)
                    (filter (λ r, r ≠ (cell, wrap64 (META_DATA_SIZE + m_size c))) (maps st))
                    (mmap_next st) (trace st)).
Proof.
  intros Hc Hp Hn Hne Hh. unfold delete_meta_cell_mmap.
  rewrite (bind_run _ _ _ _ _ (load_run _ _ _ Hc)). rewrite Hp, Hn.
  rewrite (bind_run _ _ _ _ _ (update_run _ _ _ _ Hh)).
  assert (Hc1 : hdr (set_hdr (insert block_head_mmap (with_next block_head_mmap hm)) st)
                !! cell = Some c).
  { cbn [hdr set_hdr]. by rewrite lookup_insert_ne. }
  rewrite (bind_run _ _ _ _ _ (load_run _ _ _ Hc1)). rewrite Hp, Hn.
  assert (Hh1 : hdr (set_hdr (insert block_head_mmap (with_next block_head_mmap hm)) st)
                !! block_head_mmap = Some (with_next block_head_mmap hm)).
  { cbn [hdr set_hdr]. by rewrite lookup_insert_eq. }
  rewrite (bind_run _ _ _ _ _ (update_run _ _ _ _ Hh1)).
  erewrite bind_run; [|apply load_run; cbn [hdr set_hdr];
                       rewrite !lookup_insert_ne by done; exact Hc].
  unfold munmap. hsimpl. by rewrite insert_insert_eq.
Qed.

Lemma cells_from_sentinel h sentinel fuel :
  cells_from h sentinel (S fuel) sentinel = Some [].
Proof. cbn [cells_from]. by rewrite decide_True. Qed.

(** X8.  Freeing a MAPPED block whose links point to the sentinel, as
    [add_meta_cell_mmap] leaves them, unmaps the header and the payload
    together: the mapping of [META_DATA_SIZE + size] bytes at the header's
    address is released, the header is gone from memory, the mapped list is
    empty, and the break, the trace and every other header but the sentinel
    are as before.  A second [os_free] of the same pointer reads the
    released header and faults. *)
Theorem os_free_mapped_releases (st : state) (ptr : Z) (c hm : block_meta) :
  ptr ≠ NULL →
  hdr st !! (ptr - META_DATA_SIZE) = Some c → m_status c = STATUS_MAPPED →
  m_prev c = block_head_mmap → m_next c = block_head_mmap →
  ptr - META_DATA_SIZE ≠ block_head_mmap →
  hdr st !! block_head_mmap = Some hm →
  ∃ st',
    os_free ptr st = Some (tt, st') ∧
    hdr st' !! (ptr - META_DATA_SIZE) = None ∧
    maps st' = filter (λ r, r ≠ (ptr - META_DATA_SIZE,
                                 wrap64 (META_DATA_SIZE + m_size c))) (maps st) ∧
    mapped_list st' = Some [] ∧
    (∀ a, a ≠ ptr - META_DATA_SIZE → a ≠ block_head_mmap →
          hdr st' !! a = hdr st !! a) ∧
    brk st' = brk st ∧ trace st' = trace st ∧ mem st' = mem st ∧
    os_free ptr st' = None.
Proof.
  intros Hp Hc Hst Hprev Hnext Hne Hh.
  set (cell := ptr - META_DATA_SIZE) in *.
  eexists. split.
  - unfold os_free. rewrite decide_False by done. cbv zeta. fold cell.
    rewrite (bind_run _ _ _ _ _ (load_run _ _ _ Hc)).
    rewrite decide_False by (by rewrite Hst). rewrite (bind_run _ _ _ _ _ eq_refl).
    rewrite (bind_run _ _ _ _ _ (load_run _ _ _ Hc)).
    rewrite decide_True by done.
    by apply delete_meta_cell_mmap_run.
  - hsimpl. split_and!; try done.
    + apply lookup_delete_eq.
    + unfold mapped_list, list_of. hsimpl.
      rewrite lookup_delete_ne, lookup_insert_eq by done. cbn [m_next].
      apply cells_from_sentinel.
    + intros a Ha Hah. by rewrite lookup_delete_ne, lookup_insert_ne.
    + unfold os_free. rewrite decide_False by done. cbv zeta. fold cell.
      unfold bind, load. hsimpl. by rewrite lookup_delete_eq.
Qed.

Lemma os_free_mapped_releases_witness :
  ∃ st',
    os_free 70368744177696 one_mapping_state = Some (tt, st') ∧
    hdr st' !! (70368744177696 - META_DATA_SIZE) = None ∧
    maps st' = filter (λ r, r ≠ (70368744177696 - META_DATA_SIZE,
                                 wrap64 (META_DATA_SIZE + 200000)))
                      (maps one_mapping_state) ∧
    mapped_list st' = Some [] ∧
    (∀ a, a ≠ 70368744177696 - META_DATA_SIZE → a ≠ block_head_mmap →
          hdr st' !! a = hdr one_mapping_state !! a) ∧
    brk st' = brk one_mapping_state ∧ trace st' = trace one_mapping_state ∧
    mem st' = mem one_mapping_state ∧
    os_free 70368744177696 st' = None.
Proof.
  apply (os_free_mapped_releases one_mapping_state 70368744177696
           (Block 200000 STATUS_MAPPED 4160 4160)
           (Block 0 (-1) 70368744177664 70368744177664)); by vm_compute.
Defined.

Lemma filter_id {A} (P : A → Prop) `{∀ x, Decision (P x)} (l : list A) :
  Forall P l → filter P l = l.
Proof.
  induction 1 as [|x l Hx _ IH]; [done|]. by rewrite filter_cons_True, IH.
Qed.

(** X9.  A request of [BRK_LIMIT] bytes or more that is freed at once leaves
    the mappings as they were before the request, provided none of them sits
    where the kernel places the new one: no header is left at the address,
    the mapped list is empty, and the break has not moved. *)
Theorem os_malloc_free_mapped_round_trip (st : state) (size : Z) :
  mmap_ok st → BRK_LIMIT ≤ size → mmap_next st + size + 40 ≤ ADDR_MAX →
  Forall (λ r, r.1 ≠ mmap_next st) (maps st) →
  ∃ p st',
    (p <- os_malloc size ;; os_free p ;;; ret p) st = Some (p, st') ∧
    p = mmap_next st + META_DATA_SIZE ∧
    maps st' = maps st ∧
    hdr st' !! (p - META_DATA_SIZE) = None ∧
    mapped_list st' = Some [] ∧
    (∀ a, a ≠ p - META_DATA_SIZE → a ≠ block_head_mmap → hdr st' !! a = hdr st !! a) ∧
    brk st' = brk st ∧ trace st' = trace st.
Proof.
  intros Hok Hsize Hroom Hfresh. pose proof META_DATA_SIZE_eq as HM.
  pose proof Hok as (_ & _ & _ & Hnext).
  assert (Hsa : size ≤ SIZE_ALIGN size < size + 8).
  { apply SIZE_ALIGN_bounds. unfold ADDR_MAX, BRK_LIMIT, BRK_MAX in *. lia. }
  destruct (add_meta_cell_mmap_ok st size Hok) as (st1 & Hrun & Hh & Hb & Hm & _ & Htr & _);
    [unfold BRK_LIMIT in *; lia|done|].
  set (cell := mmap_next st) in *.
  assert (Hcell : cell ≠ block_head_mmap).
  { unfold cell, block_head_mmap, BRK_MAX in *. lia. }
  assert (Hc1 : hdr st1 !! (cell + META_DATA_SIZE - META_DATA_SIZE)
                = Some (Block (SIZE_ALIGN size) STATUS_MAPPED
                              block_head_mmap block_head_mmap)).
  { replace (cell + META_DATA_SIZE - META_DATA_SIZE) with cell by lia.
    by rewrite Hh, lookup_insert_ne, lookup_insert_eq. }
  assert (Hh1 : hdr st1 !! block_head_mmap = Some (Block 0 (-1) cell cell))
    by (by rewrite Hh, lookup_insert_eq).
  assert (Hfree : ∃ st', os_free (cell + META_DATA_SIZE) st1 = Some (tt, st') ∧
    hdr st' = delete cell (<[block_head_mmap := Block 0 (-1) block_head_mmap
                                                   block_head_mmap]> (hdr st1)) ∧
    maps st' = filter (λ r, r ≠ (cell, wrap64 (META_DATA_SIZE + SIZE_ALIGN size)))
                      (maps st1) ∧
    brk st' = brk st1 ∧ trace st' = trace st1).
  { eexists. split.
    - unfold os_free.
      rewrite decide_False by (unfold cell, NULL, BRK_MAX in *; lia). cbv zeta.
      rewrite (bind_run _ _ _ _ _ (load_run _ _ _ Hc1)).
      rewrite decide_False by done. rewrite (bind_run _ _ _ _ _ eq_refl).
      rewrite (bind_run _ _ _ _ _ (load_run _ _ _ Hc1)).
      rewrite decide_True by done.
      apply delete_meta_cell_mmap_run with (hm := Block 0 (-1) cell cell);
        try done.
      replace (cell + META_DATA_SIZE - META_DATA_SIZE) with cell by lia. done.
    - hsimpl.
      replace (cell + META_DATA_SIZE - META_DATA_SIZE) with cell by lia. done. }
  destruct Hfree as (st2 & Hfree & Hh2 & Hm2 & Hb2 & Htr2).
  exists (cell + META_DATA_SIZE), st2.
  replace (cell + META_DATA_SIZE - META_DATA_SIZE) with cell by lia.
  split_and!; try done.
  - unfold os_malloc.
    rewrite decide_False by (unfold BRK_LIMIT in *; lia). rewrite decide_True by done.
    rewrite (bind_run _ _ _ _ _ Hrun). by rewrite (bind_run _ _ _ _ _ Hfree).
  - rewrite Hm2, Hm, filter_app.
    rewrite (wrap64_small (META_DATA_SIZE + SIZE_ALIGN size))
      by (unfold ADDR_MAX, BRK_MAX, BRK_LIMIT in *; lia).
    rewrite filter_id.
    + rewrite filter_cons_False by (intros Hx; by apply Hx).
      by rewrite filter_nil, app_nil_r.
    + eapply Forall_impl; [exact Hfresh|]. intros [a len] Ha [= ? ?]. by apply Ha.
  - rewrite Hh2. apply lookup_delete_eq.
  - unfold mapped_list, list_of. rewrite Hh2.
    rewrite lookup_delete_ne, lookup_insert_eq by done. cbn [m_next].
    apply cells_from_sentinel.
  - intros a Ha Hah. rewrite Hh2, lookup_delete_ne, lookup_insert_ne by done.
    by rewrite Hh, !lookup_insert_ne.
  - congruence.
  - congruence.
Qed.

Lemma os_malloc_free_mapped_round_trip_witness :
  ∃ p st',
    (p <- os_malloc 200000 ;; os_free p ;;; ret p) initial_state = Some (p, st') ∧
    p = mmap_next initial_state + META_DATA_SIZE ∧
    maps st' = maps initial_state ∧
    hdr st' !! (p - META_DATA_SIZE) = None ∧
    mapped_list st' = Some [] ∧
    (∀ a, a ≠ p - META_DATA_SIZE → a ≠ block_head_mmap →
          hdr st' !! a = hdr initial_state !! a) ∧
    brk st' = brk initial_state ∧ trace st' = trace initial_state.
Proof.
  apply (os_malloc_free_mapped_round_trip initial_state 200000).
  - exact initial_mmap_ok.
  - by vm_compute.
  - by vm_compute.
  - by constructor.
Defined.

(** ** Coalescing, cell by cell *)

Lemma is_free_kept h h' a : is_free h a → data_kept h h' a → is_free h' a.
Proof.
  intros (m & Hm & Hf) Hk. destruct (Hk m Hm) as (m' & Hm' & _ & Hs).
  exists m'. split; [done|congruence].
Qed.

Lemma is_free_back h h' a :
  is_Some (h !! a) → data_kept h h' a → is_free h' a → is_free h a.
Proof.
  intros [m Hm] Hk (m' & Hm' & Hf). destruct (Hk m Hm) as (m'' & Hm'' & _ & Hs).
  exists m. split; [done|congruence].
Qed.

Lemma coalesce_block_loop_absorbs fuel : ∀ st l1 c l2,
  heap_repr st (l1 ++ c :: l2) → (length l2 < fuel)%nat →
  ∃ f lf l2',
    coalesce_block_loop fuel (hd block_head_brk l2) st
    = Some (hd block_head_brk l2', set_hdr f st) ∧
    l2 = lf ++ l2' ∧ Forall (is_free (hdr st)) lf ∧
    (∀ b, head l2' = Some b → ¬ is_free (hdr st) b) ∧
    heap_repr (set_hdr f st) (l1 ++ c :: l2') ∧
    (∀ b, data_kept (hdr st) (f (hdr st)) b) ∧
    (∀ b, b ≠ block_head_brk → b ∉ l1 ++ c :: l2 → f (hdr st) !! b = hdr st !! b) ∧
    dom (f (hdr st)) = dom (hdr st).
Proof.
  induction fuel as [|fuel IH]; intros st l1 c l2 Hr Hlen; [lia|].
  destruct l2 as [|b l2]; cbn [hd coalesce_block_loop].
  - exists (λ h, h), [], []. rewrite decide_True by done. rewrite set_hdr_id.
    split_and!; try done. intros b. apply data_kept_refl.
  - destruct (heap_repr_not_head st _ b Hr) as [Hbh _]; [set_solver|].
    rewrite decide_False by done.
    replace (l1 ++ c :: b :: l2) with ((l1 ++ [c]) ++ b :: l2) in Hr
      by (by rewrite <- app_assoc).
    destruct (heap_repr_lookup _ _ _ _ Hr) as (mb & Hmb & _ & Hnb & _).
    rewrite (bind_run _ _ _ _ _ (load_run _ _ _ Hmb)).
    destruct (decide (m_status mb = STATUS_FREE)) as [Hfree|Hnf].
    + destruct (delete_ok _ _ _ _ Hr)
        as (f1 & mb' & lo_c & Hdel & Hsp & Hlo & _ & Hs0 & Hmb' & Hmb1 & _ & Hfr1 & Hdom1).
      rewrite Hmb in Hmb'. injection Hmb' as <-.
      apply heap_split_repr in Hsp; [|rewrite META_DATA_SIZE_eq; lia].
      rewrite <- app_assoc in Hsp. cbn [app] in Hsp.
      destruct (delete_post _ _ _ _ Hdel) as (f1' & Hf1' & Hk1).
      apply set_hdr_eq in Hf1'. rewrite <- Hf1' in Hk1.
      rewrite (bind_run _ _ _ _ _ Hdel).
      rewrite (bind_run _ _ _ _ _ (load_run _ _ (set_hdr f1 st) Hmb1)). rewrite Hnb.
      destruct (IH _ _ _ _ Hsp)
        as (f2 & lf & l2' & Hrun & -> & Hlf & Hhd & Hr2 & Hk2 & Hfr2 & Hdom2);
        [simpl in Hlen; lia|].
      hsimpl.
      assert (Hin : ∀ x, x ∈ lf ++ l2' → is_Some (hdr st !! x)).
      { intros x Hx. destruct Hr as (_ & _ & _ & _ & _ & Hc & _).
        eapply chain_lookup; [exact Hc|]. set_solver. }
      exists (λ h, f2 (f1 h)), (b :: lf), l2'. split_and!; try done.
      * constructor; [by exists mb|].
        apply Forall_forall. intros x Hx. rewrite Forall_forall in Hlf.
        apply (is_free_back _ (f1 (hdr st))); [apply Hin; set_solver|done|by apply Hlf].
      * intros x Hx Hf. apply (Hhd x Hx). by eapply is_free_kept.
      * intros x. eapply data_kept_trans; [apply Hk1|apply Hk2].
      * intros x Hxh Hx. rewrite Hfr2 by set_solver. apply Hfr1; [done|].
        rewrite <- app_assoc. set_solver.
      * by rewrite Hdom2.
    + exists (λ h, h), [], (b :: l2). rewrite set_hdr_id.
      rewrite <- app_assoc in Hr. split_and!; try done.
      * intros x [= <-] (m & Hm & Hf). congruence.
      * intros x. apply data_kept_refl.
Qed.

Lemma coalesce_block_spec st l1 c l2 mc :
  heap_repr st (l1 ++ c :: l2) → hdr st !! c = Some mc →
  ∃ f lf l2',
    coalesce_block c st = Some (tt, set_hdr f st) ∧
    l2 = lf ++ l2' ∧ Forall (is_free (hdr st)) lf ∧
    (∀ b, head l2' = Some b → ¬ is_free (hdr st) b) ∧
    heap_repr (set_hdr f st) (l1 ++ c :: l2') ∧
    f (hdr st) !! c
    = Some (Block (hd (brk st) l2' - c - META_DATA_SIZE) (m_status mc)
                  (m_prev mc) (hd block_head_brk l2')) ∧
    (∀ b, b ≠ c → data_kept (hdr st) (f (hdr st)) b) ∧
    (∀ b, b ≠ block_head_brk → b ∉ l1 ++ c :: l2 → f (hdr st) !! b = hdr st !! b) ∧
    dom (f (hdr st)) = dom (hdr st).
Proof.
  intros Hr Hmc0. destruct (heap_repr_lookup _ _ _ _ Hr) as (mc' & Hmc & Hpc & Hnc & _).
  rewrite Hmc0 in Hmc. injection Hmc as <-.
  pose proof (heap_repr_fuel _ _ Hr) as Hfuel. rewrite length_app in Hfuel.
  destruct (coalesce_block_loop_absorbs (S (size (hdr st))) _ _ _ _ Hr)
    as (f1 & lf & l2' & Hloop & Hl2 & Hlf & Hhd & Hr1 & Hk1 & Hfr1 & Hdom1);
    [simpl in Hfuel; lia|].
  destruct (heap_repr_lookup _ _ _ _ Hr1)
    as (mc1 & Hmc1 & Hpc1 & Hnc1 & Hlo & Hc8 & Hs0 & Hs8 & Hend).
  destruct (Hk1 c mc Hmc0) as (mc1' & Hmc1' & _ & Hst1). hsimpl.
  rewrite Hmc1 in Hmc1'. injection Hmc1' as <-.
  destruct (hd_brk_mod8 _ _ _ _ Hr1) as [Hstop8 Hstop].
  pose proof (heap_repr_brk _ _ Hr1) as Hbrk. hsimpl.
  assert (Hr2 : heap_repr (set_hdr (insert c (with_next (hd block_head_brk l2') mc1))
                                   (set_hdr f1 st)) (l1 ++ c :: l2')).
  { eapply heap_repr_set_cell; [exact Hr1|exact Hmc1|done|by hsimpl|..]; hsimpl; done. }
  set (s := hd (brk st) l2' - c - META_DATA_SIZE).
  assert (Hs : 0 ≤ s < 2 ^ 64).
  { unfold s. rewrite META_DATA_SIZE_eq in *. unfold BRK_MAX in *.
    revert Hlo. unfold heap_lo, block_head_mmap, sizeof_block_meta. lia. }
  exists (λ h, <[c := with_size s (with_next (hd block_head_brk l2') mc1)]>
                 (<[c := with_next (hd block_head_brk l2') mc1]> (f1 h))), lf, l2'.
  split_and!; try done.
  - unfold coalesce_block.
    rewrite (bind_run _ _ _ _ _ (load_run _ _ _ Hmc0)). rewrite Hnc.
    unfold bounded at 1. erewrite bind_run by exact Hloop.
    erewrite bind_run by (apply update_run; exact Hmc1).
    assert (Hstop_run :
      (if decide (hd block_head_brk l2' = block_head_brk) then sbrk 0
       else ret (hd block_head_brk l2'))
        (set_hdr (insert c (with_next (hd block_head_brk l2') mc1)) (set_hdr f1 st))
      = Some (hd (brk st) l2',
              set_hdr (insert c (with_next (hd block_head_brk l2') mc1)) (set_hdr f1 st))).
    { destruct l2' as [|b l2'']; cbn [hd].
      - rewrite decide_True by done. by rewrite sbrk0_run.
      - destruct (heap_repr_not_head _ _ b Hr1) as [Hbh _]; [set_solver|].
        by rewrite decide_False. }
    erewrite bind_run by exact Hstop_run.
    erewrite update_run by (hsimpl; apply lookup_insert_eq).
    fold s. rewrite (wrap64_small s) by done. done.
  - change (set_hdr _ st) with
      (set_hdr (insert c (with_size s (with_next (hd block_head_brk l2') mc1)))
         (set_hdr (insert c (with_next (hd block_head_brk l2') mc1)) (set_hdr f1 st))).
    eapply heap_repr_set_cell; [exact Hr2|hsimpl; apply lookup_insert_eq|..]; hsimpl.
    all: try done.
    + lia.
    + unfold s. rewrite META_DATA_SIZE_eq. by apply mod8_sub.
    + unfold s. lia.
  - rewrite lookup_insert_eq. unfold with_size, with_next.
    cbn [m_size m_status m_prev m_next]. by rewrite Hst1, Hpc1, Hpc.
  - intros b Hb. eapply data_kept_trans; [apply Hk1|].
    eapply data_kept_trans; by apply data_kept_insert_ne.
  - intros b Hbh Hb. rewrite !lookup_insert_ne by set_solver. by apply Hfr1.
  - rewrite !dom_insert_present; [done|rewrite Hmc1; eauto|].
    rewrite lookup_insert_eq. eauto.
Qed.

(** X10.  [coalesce_block] on a cell of a well-formed heap list takes the
    run of FREE cells that follows the cell out of the list, up to the first
    cell that is not FREE or to the end of the list, and makes the payload
    of the cell run up to the header of the cell now behind it, or up to the
    break when none is left.  The cell keeps its status, the cells that stay
    keep their size and status, and the break does not move. *)
Theorem coalesce_block_absorbs (st : state) (l1 l2 : list Z) (c : Z) (mc : block_meta) :
  heap_repr st (l1 ++ c :: l2) → hdr st !! c = Some mc →
  ∃ st' lf l2',
    coalesce_block c st = Some (tt, st') ∧
    l2 = lf ++ l2' ∧ Forall (is_free (hdr st)) lf ∧
    (∀ b, head l2' = Some b → ¬ is_free (hdr st) b) ∧
    heap_list st' = Some (l1 ++ c :: l2') ∧
    hdr st' !! c
    = Some (Block (hd (brk st) l2' - c - META_DATA_SIZE) (m_status mc)
                  (m_prev mc) (hd block_head_brk l2')) ∧
    (∀ b, b ≠ c → data_kept (hdr st) (hdr st') b) ∧
    brk st' = brk st ∧ maps st' = maps st ∧ trace st' = trace st.
Proof.
  intros Hr Hmc.
  destruct (coalesce_block_spec _ _ _ _ _ Hr Hmc)
    as (f & lf & l2' & Hrun & Hl2 & Hlf & Hhd & Hr' & Hc & Hk & _).
  exists (set_hdr f st), lf, l2'. split_and!; try done.
  by apply heap_repr_list.
Qed.

Lemma two_freed_state_repr : heap_repr two_freed_state [1048576; 1048712; 1048944].
Proof.
  exists (Block 1 (-1) 1048944 1048576). split_and!; try done.
  cbn [chain hd].
  exists (Block 104 STATUS_FREE 4128 1048712). split_and!; try done.
  exists (Block 200 STATUS_FREE 1048576 1048944). split_and!; try done.
  exists (Block 130672 STATUS_FREE 1048712 4128). split_and!; try done.
Qed.

Lemma coalesce_block_absorbs_witness :
  ∃ st' lf l2',
    coalesce_block 1048576 two_freed_state = Some (tt, st') ∧
    [1048712; 1048944] = lf ++ l2' ∧ Forall (is_free (hdr two_freed_state)) lf ∧
    (∀ b, head l2' = Some b → ¬ is_free (hdr two_freed_state) b) ∧
    heap_list st' = Some ([] ++ 1048576 :: l2') ∧
    hdr st' !! 1048576
    = Some (Block (hd (brk two_freed_state) l2' - 1048576 - META_DATA_SIZE)
                  (m_status (Block 104 STATUS_FREE 4128 1048712))
                  (m_prev (Block 104 STATUS_FREE 4128 1048712))
                  (hd block_head_brk l2')) ∧
    (∀ b, b ≠ 1048576 → data_kept (hdr two_freed_state) (hdr st') b) ∧
    brk st' = brk two_freed_state ∧ maps st' = maps two_freed_state ∧
    trace st' = trace two_freed_state.
Proof.
  apply (coalesce_block_absorbs two_freed_state [] [1048712; 1048944] 1048576
           (Block 104 STATUS_FREE 4128 1048712)).
  - exact two_freed_state_repr.
  - reflexivity.
Defined.

(** ** Coalescing the whole list *)

Lemma kept_status h h' b :
  dom h' = dom h → data_kept h h' b → m_status <$> h' !! b = m_status <$> h !! b.
Proof.
  intros Hd Hk. destruct (h !! b) as [m|] eqn:Hm.
  - destruct (Hk m Hm) as (m' & -> & _ & Hs). cbn. by rewrite Hs.
  - apply not_elem_of_dom in Hm. rewrite <- Hd in Hm. apply not_elem_of_dom in Hm.
    by rewrite Hm.
Qed.

Lemma kept_size h h' b :
  dom h' = dom h → data_kept h h' b → m_size <$> h' !! b = m_size <$> h !! b.
Proof.
  intros Hd Hk. destruct (h !! b) as [m|] eqn:Hm.
  - destruct (Hk m Hm) as (m' & -> & Hs & _). cbn. by rewrite Hs.
  - apply not_elem_of_dom in Hm. rewrite <- Hd in Hm. apply not_elem_of_dom in Hm.
    by rewrite Hm.
Qed.

Lemma is_free_status h a : is_free h a ↔ m_status <$> h !! a = Some STATUS_FREE.
Proof.
  unfold is_free. destruct (h !! a) as [m|]; cbn; [|naive_solver].
  split; [by intros (m' & [= <-] & ->)|intros [= ?]; eauto].
Qed.

Lemma is_free_ext h h' a :
  m_status <$> h' !! a = m_status <$> h !! a → is_free h' a ↔ is_free h a.
Proof. intros H. by rewrite !is_free_status, H. Qed.

Lemma no_adjacent_free_ext h h' l :
  (∀ a, a ∈ l → m_status <$> h' !! a = m_status <$> h !! a) →
  no_adjacent_free h l → no_adjacent_free h' l.
Proof.
  induction l as [|a l IH]; [done|]. intros Hs [Ha Hl]. split.
  - intros Hf b Hb. rewrite is_free_ext in Hf by (apply Hs; set_solver).
    rewrite is_free_ext; [by apply Ha|]. apply Hs. destruct l; [done|].
    injection Hb as ->. set_solver.
  - apply IH; [|done]. intros b Hb. apply Hs. set_solver.
Qed.

Lemma no_adjacent_free_snoc h l c d :
  no_adjacent_free h (l ++ [c]) → (is_free h c → ¬ is_free h d) →
  no_adjacent_free h ((l ++ [c]) ++ [d]).
Proof.
  intros Hl Hcd. induction l as [|a l IH].
  - cbn. split_and!; try done. by intros Hc b [= <-]; apply Hcd.
  - destruct Hl as [Ha Hl]. split; [|by apply IH].
    intros Hf b Hb. apply Ha; [done|]. by destruct l.
Qed.

Lemma free_filled_ext h h' l e :
  (∀ a, a ∈ l → m_status <$> h' !! a = m_status <$> h !! a ∧
                m_size <$> h' !! a = m_size <$> h !! a) →
  free_filled h l e → free_filled h' l e.
Proof.
  induction l as [|a l IH]; [done|]. intros Hs [Ha Hl]. split.
  - intros m' Hm' Hf. destruct (Hs a) as [H1 H2]; [set_solver|].
    rewrite Hm' in H1, H2. destruct (h !! a) as [m|]; [|done].
    cbn in H1, H2. injection H1 as H1. injection H2 as H2.
    rewrite H2. apply Ha; [done|congruence].
  - apply IH; [|done]. intros b Hb. apply Hs. set_solver.
Qed.

Lemma free_filled_snoc h l c e :
  free_filled h l c →
  (∀ m, h !! c = Some m → m_status m = STATUS_FREE →
        c + META_DATA_SIZE + m_size m = e) →
  free_filled h (l ++ [c]) e.
Proof.
  intros Hl Hc. induction l as [|a l IH]; [by split|].
  destruct Hl as [Ha Hl]. split; [|by apply IH].
  intros m Hm Hf. rewrite (Ha m Hm Hf). by destruct l.
Qed.

Lemma coalesce_blocks_loop_spec fuel : ∀ st l1 l2,
  heap_repr st (l1 ++ l2) → (length l2 < fuel)%nat →
  no_adjacent_free (hdr st) (l1 ++ take 1 l2) →
  free_filled (hdr st) l1 (hd (brk st) l2) →
  ∃ f l',
    coalesce_blocks_loop fuel (hd block_head_brk l2) st = Some (tt, set_hdr f st) ∧
    heap_repr (set_hdr f st) l' ∧
    no_adjacent_free (f (hdr st)) l' ∧
    free_filled (f (hdr st)) l' (brk st) ∧
    l' `sublist_of` l1 ++ l2 ∧
    (∀ b, b ∈ l1 ++ l2 → ¬ is_free (hdr st) b → b ∈ l') ∧
    (∀ b, m_status <$> f (hdr st) !! b = m_status <$> hdr st !! b) ∧
    (∀ b, ¬ is_free (hdr st) b → data_kept (hdr st) (f (hdr st)) b) ∧
    (∀ b, b ≠ block_head_brk → b ∉ l1 ++ l2 → f (hdr st) !! b = hdr st !! b) ∧
    dom (f (hdr st)) = dom (hdr st) ∧
    (∃ k, l' = l1 ++ take 1 l2 ++ k).
Proof.
  induction fuel as [|fuel IH]; intros st l1 l2 Hr Hlen Hnaf Hff; [lia|].
  destruct l2 as [|c l2]; cbn [hd coalesce_blocks_loop].
  - exists (λ h, h), (l1 ++ []). rewrite decide_True by done. rewrite set_hdr_id.
    split_and!; try done.
    + rewrite app_nil_r. exact Hff.
    + intros b _. apply data_kept_refl.
    + by exists [].
  - destruct (heap_repr_not_head st _ c Hr) as [Hch _]; [set_solver|].
    rewrite decide_False by done.
    destruct (heap_repr_lookup _ _ _ _ Hr) as (mc & Hmc & _).
    rewrite (bind_run _ _ _ _ _ (load_run _ _ _ Hmc)).
    pose proof Hr as (_ & _ & _ & _ & _ & Hchain & _).
    pose proof (chain_NoDup _ _ _ _ _ _ Hchain) as Hnd.
    assert (Hc1 : c ∉ l1).
    { apply NoDup_app in Hnd as (_ & Hd & _). intros Hin. apply (Hd c Hin). set_solver. }
    cbn [take] in Hnaf. cbn [hd] in Hff.
    assert (∃ f1 lf l2',
      (if decide (m_status mc = STATUS_FREE) then coalesce_block c else ret tt) st
      = Some (tt, set_hdr f1 st) ∧
      l2 = lf ++ l2' ∧ Forall (is_free (hdr st)) lf ∧
      heap_repr (set_hdr f1 st) (l1 ++ c :: l2') ∧
      (is_free (hdr st) c → ∀ b, head l2' = Some b → ¬ is_free (hdr st) b) ∧
      (∀ m, f1 (hdr st) !! c = Some m → m_status m = STATUS_FREE →
            c + META_DATA_SIZE + m_size m = hd (brk st) l2') ∧
      (∀ b, m_status <$> f1 (hdr st) !! b = m_status <$> hdr st !! b) ∧
      (∀ b, b ≠ c ∨ ¬ is_free (hdr st) c → data_kept (hdr st) (f1 (hdr st)) b) ∧
      (∀ b, b ≠ block_head_brk → b ∉ l1 ++ c :: l2 → f1 (hdr st) !! b = hdr st !! b) ∧
      dom (f1 (hdr st)) = dom (hdr st))
      as (f1 & lf & l2' & Hstep & -> & Hlf & Hr1 & Hhd & Hfill & Hst1 & Hk1 & Hfr1 & Hdom1).
    { case_decide as Hfree.
      - destruct (coalesce_block_spec _ _ _ _ _ Hr Hmc)
          as (f1 & lf & l2' & ? & ? & ? & ? & ? & Hc & Hk & ? & Hd).
        exists f1, lf, l2'. split_and!; try done.
        + intros m. rewrite Hc. intros [= <-] _. cbn [m_size]. lia.
        + intros b. destruct (decide (b = c)) as [->|Hne].
          * by rewrite Hc, Hmc.
          * apply kept_status; [done|by apply Hk].
        + intros b [Hne|Hnf]; [by apply Hk|]. destruct Hnf. by exists mc.
      - exists (λ h, h), [], l2. rewrite set_hdr_id. split_and!; try done.
        + intros (m & Hm & Hf). congruence.
        + intros m Hm Hf. congruence.
        + intros b _. apply data_kept_refl. }
    rewrite (bind_run _ _ _ _ _ Hstep).
    destruct (heap_repr_lookup _ _ _ _ Hr1) as (mc1 & Hmc1 & _ & Hnc1 & _).
    rewrite (bind_run _ _ _ _ _ (load_run _ _ (set_hdr f1 st) Hmc1)). rewrite Hnc1.
    replace (l1 ++ c :: l2') with ((l1 ++ [c]) ++ l2') in Hr1
      by (by rewrite <- app_assoc).
    assert (Hsz1 : ∀ a, a ∈ l1 → m_size <$> f1 (hdr st) !! a = m_size <$> hdr st !! a).
    { intros a Ha. apply kept_size; [done|]. apply Hk1. left. by intros ->. }
    destruct (IH _ _ _ Hr1)
      as (f2 & l' & Hrun & Hr2 & Hnaf2 & Hff2 & Hsub & Hin2 & Hst2 & Hk2 & Hfr2 & Hdom2
          & k & Hpre).
    + simpl in Hlen. rewrite ?length_app in Hlen. lia.
    + hsimpl. destruct l2' as [|d l2'']; cbn [take].
      * rewrite app_nil_r. eapply no_adjacent_free_ext; [|exact Hnaf]. auto.
      * apply no_adjacent_free_snoc.
        -- eapply no_adjacent_free_ext; [|exact Hnaf]. auto.
        -- rewrite !is_free_status, !Hst1, <- !is_free_status.
           intros Hc. by apply Hhd.
    + hsimpl. apply free_filled_snoc; [|done].
      eapply free_filled_ext; [|exact Hff]. auto.
    + hsimpl. exists (λ h, f2 (f1 h)), l'. split_and!; try done.
      * etrans; [exact Hsub|]. rewrite <- app_assoc. cbn [app].
        apply sublist_app; [done|]. apply sublist_skip. by apply sublist_inserts_l.
      * intros b Hb Hnf. apply Hin2.
        -- rewrite <- app_assoc. cbn [app].
           apply elem_of_app in Hb as [Hb|Hb]; [set_solver|].
           apply elem_of_cons in Hb as [->|Hb]; [set_solver|].
           apply elem_of_app in Hb as [Hb|Hb]; [|set_solver].
           rewrite Forall_forall in Hlf. destruct Hnf. by apply Hlf.
        -- by rewrite is_free_status, Hst1, <- is_free_status.
      * intros b. by rewrite Hst2, Hst1.
      * intros b Hnf. eapply data_kept_trans.
        -- apply Hk1. destruct (decide (b = c)) as [->|]; [by right|by left].
        -- apply Hk2. by rewrite is_free_status, Hst1, <- is_free_status.
      * intros b Hbh Hb. rewrite Hfr2; [by apply Hfr1|done|].
        rewrite <- app_assoc. cbn [app]. set_solver.
      * by rewrite Hdom2.
      * exists (take 1 l2' ++ k). rewrite Hpre, <- app_assoc. done.
Qed.

Lemma coalesce_blocks_spec st l :
  heap_repr st l →
  ∃ f l',
    coalesce_blocks st = Some (tt, set_hdr f st) ∧
    heap_repr (set_hdr f st) l' ∧
    no_adjacent_free (f (hdr st)) l' ∧
    free_filled (f (hdr st)) l' (brk st) ∧
    l' `sublist_of` l ∧
    (l ≠ [] → l' ≠ []) ∧
    (∀ b, b ∈ l → ¬ is_free (hdr st) b → b ∈ l') ∧
    (∀ b, m_status <$> f (hdr st) !! b = m_status <$> hdr st !! b) ∧
    (∀ b, ¬ is_free (hdr st) b → data_kept (hdr st) (f (hdr st)) b) ∧
    (∀ b, outside_heap b → f (hdr st) !! b = hdr st !! b) ∧
    head l' = head l.
Proof.
  intros Hr. pose proof Hr as (hm & Hh & _ & Hn & _).
  pose proof (heap_repr_fuel _ _ Hr) as Hfuel.
  destruct (coalesce_blocks_loop_spec (S (size (hdr st))) st [] l Hr)
    as (f & l' & Hrun & Hr' & Hnaf & Hff & Hsub & Hin & Hst & Hk & Hfr & _ & k & Hpre).
  - lia.
  - cbn [app]. destruct l as [|a l]; cbn; [done|]. by split.
  - done.
  - assert (Hrun' : coalesce_blocks st = Some (tt, set_hdr f st)).
    { unfold coalesce_blocks. rewrite (bind_run _ _ _ _ _ (load_run _ _ _ Hh)).
      rewrite Hn. exact Hrun. }
    exists f, l'. split_and!; try done.
    + destruct (coalesce_blocks_ok _ _ Hr) as (f0 & l0 & Hrun0 & Hr0 & Hne0 & _).
      assert (Hst0 : set_hdr f0 st = set_hdr f st) by congruence. rewrite Hst0 in Hr0.
      apply heap_repr_list in Hr', Hr0. rewrite Hr' in Hr0. by injection Hr0 as ->.
    + intros b Hb. pose proof (outside_heap_notin _ _ _ Hr Hb). apply Hfr; [apply Hb|done].
    + destruct l as [|a l]; [apply sublist_nil_r in Hsub; by subst|]. by rewrite Hpre.
Qed.

(** X11.  [coalesce_blocks] on a well-formed heap list leaves a well-formed
    list in which no FREE cell is followed by a FREE cell and the payload of
    every FREE cell runs up to the next header, or to the break for the last
    cell.  Only FREE cells leave the list, never the first cell, and the
    order of the others is kept; no header changes its status, and a cell
    that was not FREE keeps its size.  The break, the mappings and the trace
    are untouched. *)
Theorem coalesce_blocks_merges (st : state) (l : list Z) :
  heap_repr st l →
  ∃ st' l',
    coalesce_blocks st = Some (tt, st') ∧
    heap_repr st' l' ∧ heap_list st' = Some l' ∧
    no_adjacent_free (hdr st') l' ∧
    free_filled (hdr st') l' (brk st') ∧
    l' `sublist_of` l ∧ head l' = head l ∧
    (∀ b, b ∈ l → ¬ is_free (hdr st) b → b ∈ l') ∧
    (∀ b, m_status <$> hdr st' !! b = m_status <$> hdr st !! b) ∧
    (∀ b, ¬ is_free (hdr st) b → data_kept (hdr st) (hdr st') b) ∧
    brk st' = brk st ∧ maps st' = maps st ∧ trace st' = trace st.
Proof.
  intros Hr.
  destruct (coalesce_blocks_spec _ _ Hr)
    as (f & l' & Hrun & Hr' & Hnaf & Hff & Hsub & _ & Hin & Hst & Hk & _ & Hhead).
  exists (set_hdr f st), l'. split_and!; try done. by apply heap_repr_list.
Qed.

Lemma coalesce_blocks_merges_witness :
  ∃ st' l',
    coalesce_blocks two_freed_state = Some (tt, st') ∧
    heap_repr st' l' ∧ heap_list st' = Some l' ∧
    no_adjacent_free (hdr st') l' ∧
    free_filled (hdr st') l' (brk st') ∧
    l' `sublist_of` [1048576; 1048712; 1048944] ∧
    head l' = head [1048576; 1048712; 1048944] ∧
    (∀ b, b ∈ [1048576; 1048712; 1048944] → ¬ is_free (hdr two_freed_state) b → b ∈ l') ∧
    (∀ b, m_status <$> hdr st' !! b = m_status <$> hdr two_freed_state !! b) ∧
    (∀ b, ¬ is_free (hdr two_freed_state) b → data_kept (hdr two_freed_state) (hdr st') b) ∧
    brk st' = brk two_freed_state ∧ maps st' = maps two_freed_state ∧
    trace st' = trace two_freed_state.
Proof.
  apply (coalesce_blocks_merges two_freed_state [1048576; 1048712; 1048944]).
  exact two_freed_state_repr.
Defined.

(** ** Cells of a well-formed list do not overlap *)

Lemma chain_after h p lo l1 a l2 e hi ma b :
  chain h p lo (l1 ++ a :: l2) e hi → h !! a = Some ma → b ∈ l2 →
  a + META_DATA_SIZE + m_size ma ≤ b.
Proof.
  revert p lo. induction l1 as [|x l1 IH]; intros p lo Hc Ha Hb.
  - destruct Hc as (m & Hm & _ & _ & _ & _ & _ & _ & Hc).
    rewrite Ha in Hm. injection Hm as <-.
    by destruct (chain_bounds _ _ _ _ _ _ _ Hc Hb).
  - destruct Hc as (m & _ & _ & _ & _ & _ & _ & _ & Hc). by eapply IH.
Qed.

Lemma heap_repr_disjoint st l a b ma mb :
  heap_repr st l → a ∈ l → b ∈ l → a ≠ b →
  hdr st !! a = Some ma → hdr st !! b = Some mb →
  a + META_DATA_SIZE + m_size ma ≤ b ∨ b + META_DATA_SIZE + m_size mb ≤ a.
Proof.
  intros (_ & _ & _ & _ & _ & Hc & _) Ha Hb Hne Hma Hmb.
  apply list_elem_of_split in Ha as (l1 & l2 & ->).
  apply elem_of_app in Hb as [Hb|Hb].
  - right. apply list_elem_of_split in Hb as (l3 & l4 & ->).
    rewrite <- app_assoc in Hc. cbn [app] in Hc.
    eapply chain_after; [exact Hc|done|set_solver].
  - left. apply elem_of_cons in Hb as [->|Hb]; [done|].
    by eapply chain_after.
Qed.

(** ** The heap branch, cell by cell *)

Lemma search_best_fit_spec st l size :
  heap_repr st l → l ≠ [] → 0 ≤ size ≤ BRK_LIMIT →
  ∃ r, best_fit_of (hdr st) size l r ∧
       ((r = NULL ∧ search_best_fit size st = Some (NULL, st)) ∨
        (r ≠ NULL ∧ ∃ f l1 l2 l' m,
           search_best_fit size st = Some (r + META_DATA_SIZE, set_hdr f st) ∧
           heap_repr (set_hdr f st) l' ∧
           l = l1 ++ r :: l2 ∧
           l' = l1 ++ r ::
                (if decide (hd (brk st) l2 - (r + META_DATA_SIZE + SIZE_ALIGN size)
                            ≤ META_DATA_SIZE)
                 then l2 else (r + META_DATA_SIZE + SIZE_ALIGN size) :: l2) ∧
           r ∈ l ∧ r ∈ l' ∧ (∀ b, b ∈ l → b ∈ l') ∧
           f (hdr st) !! r = Some m ∧
           m_size m = SIZE_ALIGN size ∧ m_status m = STATUS_ALLOC ∧
           (∀ b, b ∈ l → b ≠ r → data_kept (hdr st) (f (hdr st)) b))).
Proof.
  intros Hr Hne Hsize. pose proof Hr as (hm & Hh & _ & Hn & _).
  pose proof (heap_repr_fuel _ _ Hr) as Hfuel. pose proof META_DATA_SIZE_eq as HM.
  destruct (best_fit_loop_ok size (S (base.size (hdr st))) st [] l NULL Hr)
    as (r & Hloop & Hbest); [lia|apply best_fit_of_nil|].
  cbn [app] in Hbest. exists r. split; [done|].
  unfold search_best_fit. rewrite (bind_run _ _ _ _ _ (load_run _ _ _ Hh)).
  rewrite Hn. erewrite bind_run by exact Hloop.
  destruct Hbest as [[-> Hno]|(l1 & l2 & mr & -> & Hmr & Hfree & Hfit & _)].
  { left. by rewrite decide_False by (intros ?; done). }
  right. destruct (heap_repr_not_head _ _ r Hr) as [_ Hrn]; [set_solver|].
  split; [done|]. rewrite decide_True by done.
  destruct (heap_repr_lookup _ _ _ _ Hr) as (mr' & Hmr' & _ & _ & _ & _ & _ & Hs8 & _).
  rewrite Hmr in Hmr'. injection Hmr' as <-.
  destruct (delete_ok _ _ _ _ Hr)
    as (f1 & mr' & lo_c & Hdel & Hsp & Hlo & Hr8 & Hs0 & Hmr' & Hmr1 & Hprev & Hfr1 & _).
  rewrite Hmr in Hmr'. injection Hmr' as <-.
  destruct (delete_post _ _ _ _ Hdel) as (f1' & Hf1' & Hk1).
  apply set_hdr_eq in Hf1'. rewrite <- Hf1' in Hk1.
  rewrite (bind_run _ _ _ _ _ Hdel).
  rewrite (bind_run _ _ _ _ _ (load_run _ _ (set_hdr f1 st) Hmr1)).
  assert (Hsa : SIZE_ALIGN size ≤ m_size mr).
  { destruct (le_SIZE_ALIGN size (m_size mr)) as [H1 _];
      [unfold BRK_LIMIT in Hsize; lia|done|by apply H1]. }
  destruct (add_ok _ _ _ r (SIZE_ALIGN size) STATUS_ALLOC _ _ Hsp)
    as (f2 & Hadd & Hr2 & Hcell & Hfr2 & _); [done..|rewrite SIZE_ALIGN_idem; lia|].
  destruct (add_post _ _ _ _ _ _ _ Hadd) as (_ & f2' & Hf2' & Hk2 & _).
  apply set_hdr_eq in Hf2'. rewrite <- Hf2' in Hk2.
  rewrite Hprev. rewrite (bind_run _ _ _ _ _ Hadd).
  rewrite (bind_run _ _ _ _ _ (load_run _ _ (set_hdr f2 (set_hdr f1 st)) Hcell)).
  destruct (use_unused_space_cases _ _ _ _ (SIZE_ALIGN (SIZE_ALIGN size)) _ Hr2 Hcell)
    as [Hsmall Hbig]; [hsimpl; by rewrite SIZE_ALIGN_idem|].
  hsimpl. rewrite SIZE_ALIGN_idem in *.
  destruct (decide (hd (brk st) l2 - (r + META_DATA_SIZE + SIZE_ALIGN size)
                    ≤ META_DATA_SIZE)) as [Hgap|Hgap].
  - rewrite (bind_run _ _ _ _ _ (Hsmall Hgap)).
    exists (λ h, f2 (f1 h)), l1, l2, (l1 ++ r :: l2),
      (Block (SIZE_ALIGN size) STATUS_ALLOC (List.last l1 block_head_brk)
             (hd block_head_brk l2)).
    split_and!; try done.
    + by rewrite decide_True.
    + set_solver.
    + set_solver.
    + intros b Hb Hbr. eapply data_kept_trans; [apply Hk1|by apply Hk2].
  - destruct Hbig as (f3 & Huse & Hr3 & Hnew & Hk3); [lia|].
    rewrite (bind_run _ _ _ _ _ Huse).
    pose proof Hr3 as (_ & _ & _ & _ & _ & Hc3 & _).
    apply chain_NoDup in Hc3.
    apply NoDup_app in Hc3 as (_ & Hd1 & Hd2).
    apply NoDup_cons in Hd2 as [Hd2 Hd3]. apply NoDup_cons in Hd3 as [Hd3 _].
    set (new := r + META_DATA_SIZE + SIZE_ALIGN size) in *.
    assert (Hrnew : r ≠ new) by (pose proof (SIZE_ALIGN_range size); unfold new; lia).
    destruct (Hk3 r Hrnew _ Hcell) as (m & Hm & Hms & Hmst).
    exists (λ h, f3 (f2 (f1 h))), l1, l2, (l1 ++ r :: new :: l2), m. hsimpl.
    split_and!; try done.
    + by rewrite decide_False.
    + set_solver.
    + set_solver.
    + set_solver.
    + intros b Hb Hbr.
      eapply data_kept_trans; [eapply data_kept_trans; [apply Hk1|by apply Hk2]|].
      apply Hk3. intros ->.
      apply elem_of_app in Hb as [Hb|Hb]; [apply (Hd1 new Hb); set_solver|].
      apply elem_of_cons in Hb as [Hb|Hb]; [done|]. by apply Hd3.
Qed.

Lemma increase_heap_spec st l1 c size mc :
  heap_repr st (l1 ++ [c]) → hdr st !! c = Some mc → 0 ≤ size ≤ BRK_LIMIT →
  (m_status mc = STATUS_FREE → m_size mc < size) →
  brk st + BRK_LIMIT + 64 ≤ BRK_MAX →
  let cell := if decide (m_status mc = STATUS_FREE) then c else brk st in
  let l' := if decide (m_status mc = STATUS_FREE) then l1 ++ [c]
            else (l1 ++ [c]) ++ [brk st] in
  ∃ f,
    increase_heap size st
    = Some (cell + META_DATA_SIZE,
            set_hdr f (set_brk (cell + META_DATA_SIZE + SIZE_ALIGN size) st)) ∧
    heap_repr (set_hdr f (set_brk (cell + META_DATA_SIZE + SIZE_ALIGN size) st)) l' ∧
    f (hdr st) !! cell
    = Some (Block (SIZE_ALIGN size) STATUS_ALLOC
                  (if decide (m_status mc = STATUS_FREE) then m_prev mc else c)
                  block_head_brk) ∧
    (∀ x, x ≠ cell → data_kept (hdr st) (f (hdr st)) x) ∧
    (∀ x, outside_heap x → f (hdr st) !! x = hdr st !! x).
Proof.
  intros Hr Hmc0 Hsize Hnofit Hroom. pose proof META_DATA_SIZE_eq as HM.
  pose proof Hr as (hm & Hh & _ & _ & Hp & _). rewrite last_snoc in Hp.
  destruct (heap_repr_lookup _ _ _ _ Hr)
    as (mc' & Hmc & _ & _ & Hlo & Hc8 & Hs0 & Hs8 & Hend). cbn [hd] in Hend.
  rewrite Hmc0 in Hmc. injection Hmc as <-.
  pose proof (heap_repr_brk _ _ Hr) as Hbrk.
  pose proof (heap_repr_split_at _ _ _ _ _ Hr Hmc0) as Hsp. cbn [hd] in Hsp.
  assert (Hsa : size ≤ SIZE_ALIGN size < size + 8)
    by (apply SIZE_ALIGN_bounds; unfold BRK_LIMIT in *; lia).
  pose proof (SIZE_ALIGN_mod8 size) as Hsa8.
  assert (Hlo0 : 0 ≤ c).
  { revert Hlo. unfold heap_lo, block_head_mmap, sizeof_block_meta. lia. }
  unfold increase_heap. rewrite (bind_run _ _ _ _ _ (load_run _ _ _ Hh)). rewrite Hp.
  rewrite (bind_run _ _ _ _ _ (load_run _ _ _ Hmc0)).
  destruct (decide (m_status mc = STATUS_FREE)) as [Hfree|Hnf]; cbv zeta.
  - (* the last cell is FREE: its payload ends at the new break *)
    specialize (Hnofit Hfree). rewrite (bind_run _ _ _ _ _ (sbrk0_run _ Hbrk)).
    set (b := c + META_DATA_SIZE + SIZE_ALIGN size).
    replace (SIZE_ALIGN size - m_size mc - (brk st - (c + META_DATA_SIZE + m_size mc)))
      with (b - brk st) by (unfold b; lia).
    assert (Hb8 : b mod 8 = 0) by (unfold b; rewrite HM; by apply mod8_add3).
    unfold BRK_LIMIT, BRK_MAX in *.
    rewrite (bind_run _ _ _ _ _ (sbrk_wrap_run (b - brk st) st ltac:(unfold b; lia)
                                   ltac:(unfold b, BRK_MAX; lia))).
    replace (brk st + (b - brk st)) with b by lia.
    assert (Hsp0 : heap_split (set_brk b st) (l1 ++ [c]) []
                     (c + META_DATA_SIZE + m_size mc) (c + META_DATA_SIZE + m_size mc)).
    { destruct Hsp as (hm' & ? & ? & ? & ? & Hc1 & Hc2 & ? & ?).
      exists hm'. hsimpl. cbn [chain] in *. split_and!; try done; unfold BRK_MAX; lia. }
    assert (Hr1 : heap_repr (set_brk b st) (l1 ++ [c])).
    { rewrite <- (app_nil_r (l1 ++ [c])). eapply heap_split_repr; [exact Hsp0|lia]. }
    destruct (delete_ok _ _ _ _ Hr1)
      as (f1 & mc' & lo_c & Hdel & Hsp1 & Hloc & _ & _ & Hmc' & Hmc1 & Hprev & Hfr1 & _).
    hsimpl. rewrite Hmc0 in Hmc'. injection Hmc' as <-.
    destruct (delete_post _ _ _ _ Hdel) as (f1' & Hf1' & Hk1).
    apply set_hdr_eq in Hf1'. hsimpl. rewrite <- Hf1' in Hk1.
    rewrite (bind_run _ _ _ _ _ Hdel).
    rewrite (bind_run _ _ _ _ _ (load_run _ _ (set_hdr f1 (set_brk b st)) Hmc1)).
    assert (Hsp2 : heap_split (set_hdr f1 (set_brk b st)) l1 [] lo_c b).
    { destruct Hsp1 as (hm' & ? & ? & ? & ? & Hc1 & Hc2 & ? & ?).
      exists hm'. hsimpl. cbn [chain] in *. split_and!; try done. }
    destruct (add_ok _ _ _ c (SIZE_ALIGN size) STATUS_ALLOC _ _ Hsp2)
      as (f2 & Hadd & Hr2 & Hcell & Hfr2 & _);
      [done..|rewrite SIZE_ALIGN_idem; unfold b; lia|].
    destruct (add_post _ _ _ _ _ _ _ Hadd) as (_ & f2' & Hf2' & Hk2 & _).
    apply set_hdr_eq in Hf2'. hsimpl. rewrite <- Hf2' in Hk2.
    rewrite Hprev. exists (λ h, f2 (f1 h)). hsimpl.
    rewrite SIZE_ALIGN_idem in Hcell. cbn [hd] in Hcell.
    split_and!; try done.
    + intros x Hx. eapply data_kept_trans; [apply Hk1|by apply Hk2].
    + intros x Hx.
      pose proof (outside_heap_notin _ _ _ Hr Hx) as Hnin. destruct Hx as [Hxh Hx].
      rewrite Hfr2; [apply Hfr1| | |]; try done; set_solver.
  - (* the last cell is in use: a new cell at the break *)
    unfold BRK_LIMIT, BRK_MAX in *.
    rewrite (wrap64_small (META_DATA_SIZE + SIZE_ALIGN size)) by lia.
    rewrite (bind_run _ _ _ _ _ (sbrk_run (META_DATA_SIZE + SIZE_ALIGN size) st
               ltac:(lia) ltac:(lia) ltac:(unfold BRK_MAX; lia))).
    replace (brk st + META_DATA_SIZE + SIZE_ALIGN size)
      with (brk st + (META_DATA_SIZE + SIZE_ALIGN size)) by lia.
    set (b := brk st + (META_DATA_SIZE + SIZE_ALIGN size)).
    pose proof Hr as (hm' & _ & _ & _ & _ & _ & Hbrk8 & _).
    assert (Hb8 : b mod 8 = 0).
    { unfold b. rewrite HM, Z.add_assoc. by apply mod8_add3. }
    apply heap_split_set_brk with (b := b) in Hsp; [|done|unfold b, BRK_MAX; lia].
    destruct (add_ok _ _ _ (brk st) (SIZE_ALIGN size) STATUS_ALLOC _ _ Hsp)
      as (f2 & Hadd & Hr2 & Hcell & Hfr2 & _);
      [lia|done|rewrite SIZE_ALIGN_idem; unfold b; lia|].
    destruct (add_post _ _ _ _ _ _ _ Hadd) as (_ & f2' & Hf2' & Hk2 & _).
    apply set_hdr_eq in Hf2'. hsimpl. rewrite <- Hf2' in Hk2.
    rewrite last_snoc in Hadd, Hcell. hsimpl.
    rewrite SIZE_ALIGN_idem in Hcell. cbn [hd] in Hcell.
    exists f2. split_and!; try done.
    intros x Hx.
    pose proof (outside_heap_notin _ _ _ Hr2 Hx) as Hnin. destruct Hx as [Hxh Hx].
    apply Hfr2; try done; set_solver.
Qed.

Lemma free_filled_last h l c e m :
  free_filled h (l ++ [c]) e → h !! c = Some m → m_status m = STATUS_FREE →
  c + META_DATA_SIZE + m_size m = e.
Proof.
  induction l as [|a l IH]; intros Hff Hm Hf.
  - destruct Hff as [Hc _]. by apply Hc.
  - destruct Hff as [_ Hff]. by apply IH.
Qed.

(** What [heap_alloc] runs once the list is initialised. *)
Lemma heap_alloc_tail_spec st l size :
  heap_repr st l → l ≠ [] → 0 ≤ size ≤ BRK_LIMIT →
  brk st + BRK_LIMIT + 64 ≤ BRK_MAX →
  ∃ cell f b l' m,
    (coalesce_blocks ;;;
     return_addr <- search_best_fit size ;;
     if decide (return_addr = NULL) then increase_heap size else ret return_addr) st
    = Some (cell + META_DATA_SIZE, set_hdr f (set_brk b st)) ∧
    heap_repr (set_hdr f (set_brk b st)) l' ∧
    cell ∈ l' ∧ f (hdr st) !! cell = Some m ∧
    m_size m = SIZE_ALIGN size ∧ m_status m = STATUS_ALLOC ∧
    brk st ≤ b ∧
    (∀ x, x ∈ l → ¬ is_free (hdr st) x →
          x ∈ l' ∧ x ≠ cell ∧ data_kept (hdr st) (f (hdr st)) x) ∧
    (∀ x, outside_heap x → f (hdr st) !! x = hdr st !! x).
Proof.
  intros Hr Hne Hsize Hroom. pose proof META_DATA_SIZE_eq as HM.
  destruct (coalesce_blocks_spec _ _ Hr)
    as (f1 & lc & Hco & Hr1 & _ & Hff1 & _ & Hne1 & Hin1 & Hst1 & Hk1 & Hfr1 & _).
  rewrite (bind_run _ _ _ _ _ Hco). specialize (Hne1 Hne).
  assert (Hlive : ∀ x, x ∈ l → ¬ is_free (hdr st) x →
            x ∈ lc ∧ ¬ is_free (f1 (hdr st)) x ∧ data_kept (hdr st) (f1 (hdr st)) x).
  { intros x Hx Hnf. split_and!; [by apply Hin1| |by apply Hk1].
    by rewrite is_free_status, Hst1, <- is_free_status. }
  destruct (search_best_fit_spec _ _ size Hr1 Hne1 Hsize)
    as (r & Hbest & [[-> Hmiss]|(Hrn & f2 & _ & _ & l2 & m & Hhit & Hr2 & _ & _ & Hrl
                                   & Hrl2 & Hin2 & Hm & Hms & Hmst & Hk2)]).
  - rewrite (bind_run _ _ _ _ _ Hmiss). rewrite decide_True by done.
    destruct Hbest as [[_ Hno]|(la & lb & m & -> & _)]; cycle 1.
    { destruct (heap_repr_not_head _ _ NULL Hr1) as [_ ?]; [set_solver|done]. }
    destruct lc as [|c lc' _] using rev_ind; [done|].
    destruct (heap_repr_lookup _ _ _ _ Hr1) as (mc & Hmc & _ & _ & _ & _ & _ & _ & Hend).
    assert (Hnofit : m_status mc = STATUS_FREE → m_size mc < size).
    { intros Hfree. destruct (decide (size ≤ m_size mc)); [|lia].
      destruct (Hno c); [set_solver|]. by exists mc. }
    destruct (increase_heap_spec _ _ _ size _ Hr1 Hmc Hsize Hnofit)
      as (f3 & Hinc & Hr3 & Hcell & Hk3 & Hfr3); [hsimpl; lia|].
    hsimpl.
    assert (Hsa : size ≤ SIZE_ALIGN size < size + 8)
      by (apply SIZE_ALIGN_bounds; unfold BRK_LIMIT in *; lia).
    assert (Hup : brk st ≤ (if decide (m_status mc = STATUS_FREE) then c else brk st)
                           + META_DATA_SIZE + SIZE_ALIGN size).
    { case_decide as Hfree; [|lia].
      pose proof (free_filled_last _ _ _ _ _ Hff1 Hmc Hfree). specialize (Hnofit Hfree).
      lia. }
    set (cell := if decide (m_status mc = STATUS_FREE) then c else brk st) in *.
    eexists cell, (λ h, f3 (f1 h)), _, _, _. hsimpl.
    split_and!; [exact Hinc|exact Hr3| |exact Hcell|done|done|exact Hup| |].
    + unfold cell. case_decide; set_solver.
    + intros x Hx Hnf. destruct (Hlive x Hx Hnf) as (Hxc & Hnf1 & Hkx).
      assert (Hxcell : x ≠ cell).
      { unfold cell. case_decide as Hfree.
        - intros ->. apply Hnf1. by exists mc.
        - destruct (heap_repr_above _ _ _ Hr1 Hxc) as [_ Hxb]. hsimpl. lia. }
      split_and!; [case_decide; set_solver|done|].
      eapply data_kept_trans; [exact Hkx|by apply Hk3].
    + intros x Hx. rewrite Hfr3 by done. by apply Hfr1.
  - rewrite (bind_run _ _ _ _ _ Hhit).
    assert (r + META_DATA_SIZE ≠ NULL).
    { destruct (heap_repr_above _ _ r Hr1 Hrl) as [Hlo _].
      revert Hlo. rewrite HM.
      unfold heap_lo, block_head_mmap, sizeof_block_meta, NULL. lia. }
    rewrite decide_False by done.
    destruct (search_best_fit_ok _ _ size Hr1 Hne1 Hsize)
      as (r0 & _ & [[_ Hmiss0]|(_ & f0 & l0 & Hhit0 & _ & _ & Hfr0)]).
    { rewrite Hhit in Hmiss0. by injection Hmiss0. }
    assert (Hst0 : set_hdr f0 (set_hdr f1 st) = set_hdr f2 (set_hdr f1 st)) by congruence.
    apply set_hdr_eq in Hst0. hsimpl. rewrite Hst0 in Hfr0.
    assert (Hrfree : is_free (f1 (hdr st)) r).
    { destruct Hbest as [[-> _]|(la & lb & mr & _ & Hmr & Hfree & _)]; [done|].
      by exists mr. }
    exists r, (λ h, f2 (f1 h)), (brk st), l2, m.
    replace (set_brk (brk st) st) with st by (by destruct st).
    split_and!; try done.
    + intros x Hx Hnf. destruct (Hlive x Hx Hnf) as (Hxc & Hnf1 & Hkx).
      assert (x ≠ r) by (by intros ->).
      split_and!; [by apply Hin2|done|].
      eapply data_kept_trans; [exact Hkx|by apply Hk2].
    + intros x Hx. hsimpl. rewrite Hfr0 by done. by apply Hfr1.
Qed.

Lemma heap_alloc_spec st l size :
  heap_repr st l → l ≠ [] → 0 ≤ size ≤ BRK_LIMIT →
  brk st + BRK_LIMIT + 64 ≤ BRK_MAX →
  ∃ cell f b l' m,
    heap_alloc size st = Some (cell + META_DATA_SIZE, set_hdr f (set_brk b st)) ∧
    heap_repr (set_hdr f (set_brk b st)) l' ∧
    cell ∈ l' ∧ f (hdr st) !! cell = Some m ∧
    m_size m = SIZE_ALIGN size ∧ m_status m = STATUS_ALLOC ∧
    brk st ≤ b ∧
    (∀ x, x ∈ l → ¬ is_free (hdr st) x →
          x ∈ l' ∧ x ≠ cell ∧ data_kept (hdr st) (f (hdr st)) x) ∧
    (∀ x, outside_heap x → f (hdr st) !! x = hdr st !! x).
Proof.
  intros Hr Hne Hsize Hroom. pose proof Hr as (hm & Hh & Hz & _).
  unfold heap_alloc. rewrite (bind_run _ _ _ _ _ (load_run _ _ _ Hh)).
  rewrite decide_False by done. rewrite (bind_run _ _ _ _ _ eq_refl).
  by apply heap_alloc_tail_spec.
Qed.

Lemma heap_alloc_fresh_spec st size :
  heap_fresh st → 0 ≤ size ≤ BRK_LIMIT →
  brk st + 2 * BRK_LIMIT + 64 ≤ BRK_MAX →
  ∃ cell f b l' m,
    heap_alloc size st = Some (cell + META_DATA_SIZE, set_hdr f (set_brk b st)) ∧
    heap_repr (set_hdr f (set_brk b st)) l' ∧
    cell ∈ l' ∧ f (hdr st) !! cell = Some m ∧
    m_size m = SIZE_ALIGN size ∧ m_status m = STATUS_ALLOC ∧
    brk st ≤ b ∧
    (∀ x, outside_heap x → f (hdr st) !! x = hdr st !! x).
Proof.
  intros Hfresh Hsize Hroom. pose proof Hfresh as (hm & Hh & Hz & _).
  destruct (heap_preallocation_ok _ Hfresh) as (f0 & Hpre & Hr0 & Hfr0);
    [unfold BRK_LIMIT in *; lia|].
  destruct (heap_alloc_tail_spec _ [brk st] size Hr0)
    as (cell & f & b & l' & m & Hrun & Hr' & Hcell & Hm & Hms & Hmst & Hb & _ & Hfr);
    [done|done|hsimpl; lia|].
  hsimpl. exists cell, (λ h, f (f0 h)), b, l', m. split_and!; try done.
  - unfold heap_alloc. rewrite (bind_run _ _ _ _ _ (load_run _ _ _ Hh)).
    rewrite decide_True by done. rewrite (bind_run _ _ _ _ _ Hpre). exact Hrun.
  - unfold BRK_LIMIT in *. lia.
  - intros x Hx. rewrite Hfr by done. by apply Hfr0.
Qed.

(** X12.  A request below [BRK_LIMIT] on a well-formed, non-empty heap list
    returns a block of the list, ALLOCATED and of the aligned size, and never
    disturbs a block that is in use: every cell that was ALLOCATED is still
    in the list with the size and status it had, and its payload does not
    overlap the header or the payload of the block returned.  Headers
    outside the heap, the mappings and the trace stay as they were. *)
Theorem os_malloc_keeps_live_blocks (st : state) (l : list Z) (size : Z) :
  heap_repr st l → l ≠ [] → 0 < size < BRK_LIMIT →
  brk st + BRK_LIMIT + 64 ≤ BRK_MAX →
  ∃ p st' l' m,
    os_malloc size st = Some (p, st') ∧
    heap_repr st' l' ∧ p - META_DATA_SIZE ∈ l' ∧
    header_of st' p = Some m ∧
    m_size m = SIZE_ALIGN size ∧ m_status m = STATUS_ALLOC ∧
    (∀ b mb, b ∈ l → hdr st !! b = Some mb → m_status mb = STATUS_ALLOC →
       b ∈ l' ∧
       (∃ mb', hdr st' !! b = Some mb' ∧ m_size mb' = m_size mb ∧
               m_status mb' = STATUS_ALLOC) ∧
       (b + META_DATA_SIZE + m_size mb ≤ p - META_DATA_SIZE ∨
        p + SIZE_ALIGN size ≤ b)) ∧
    (∀ x, outside_heap x → hdr st' !! x = hdr st !! x) ∧
    maps st' = maps st ∧ trace st' = trace st.
Proof.
  intros Hr Hne Hsize Hroom. pose proof META_DATA_SIZE_eq as HM.
  destruct (heap_alloc_spec st l size Hr Hne) as
    (cell & f & b & l' & m & Hrun & Hr' & Hcell & Hm & Hms & Hmst & _ & Hlive & Hfr);
    [lia|done|].
  exists (cell + META_DATA_SIZE), (set_hdr f (set_brk b st)), l', m.
  unfold header_of.
  replace (cell + META_DATA_SIZE - META_DATA_SIZE) with cell by lia.
  split_and!; try done.
  - unfold os_malloc. rewrite decide_False by lia. by rewrite decide_False by lia.
  - intros x mx Hx Hmx Hal.
    destruct (Hlive x Hx) as (Hxl & Hxc & Hk).
    { intros (m' & Hm' & Hf). rewrite Hmx in Hm'. injection Hm' as <-.
      rewrite Hal in Hf. done. }
    destruct (Hk mx Hmx) as (mx' & Hmx' & Hsz & Hst). hsimpl.
    split_and!; [done|exists mx'; split_and!; [done|done|congruence]|].
    destruct (heap_repr_disjoint _ _ x cell mx' m Hr' Hxl Hcell Hxc Hmx' Hm)
      as [Hd|Hd]; [left|right]; lia.
Qed.

Lemma os_malloc_keeps_live_blocks_witness :
  ∃ p st' l' m,
    os_malloc 50 freed_state = Some (p, st') ∧
    heap_repr st' l' ∧ p - META_DATA_SIZE ∈ l' ∧
    header_of st' p = Some m ∧
    m_size m = SIZE_ALIGN 50 ∧ m_status m = STATUS_ALLOC ∧
    (∀ b mb, b ∈ [1048576; 1048712; 1048944] →
       hdr freed_state !! b = Some mb → m_status mb = STATUS_ALLOC →
       b ∈ l' ∧
       (∃ mb', hdr st' !! b = Some mb' ∧ m_size mb' = m_size mb ∧
               m_status mb' = STATUS_ALLOC) ∧
       (b + META_DATA_SIZE + m_size mb ≤ p - META_DATA_SIZE ∨
        p + SIZE_ALIGN 50 ≤ b)) ∧
    (∀ x, outside_heap x → hdr st' !! x = hdr freed_state !! x) ∧
    maps st' = maps freed_state ∧ trace st' = trace freed_state.
Proof.
  apply (os_malloc_keeps_live_blocks freed_state [1048576; 1048712; 1048944] 50).
  - exact freed_state_repr.
  - done.
  - by vm_compute.
  - by vm_compute.
Defined.

(** X13.  [increase_heap], called when the last cell of the list cannot
    hold the request, returns a block at the end of the heap and moves the
    break to the exact end of its payload.  When the last cell is FREE it is
    that cell, made ALLOCATED with the aligned size; otherwise it is a new
    cell placed at the old break and linked last.  Every other header keeps
    its size and status. *)
Theorem increase_heap_places_break (st : state) (l1 : list Z)
    (c size : Z) (mc : block_meta) :
  heap_repr st (l1 ++ [c]) → hdr st !! c = Some mc → 0 ≤ size ≤ BRK_LIMIT →
  (m_status mc = STATUS_FREE → m_size mc < size) →
  brk st + BRK_LIMIT + 64 ≤ BRK_MAX →
  let cell := if decide (m_status mc = STATUS_FREE) then c else brk st in
  ∃ st',
    increase_heap size st = Some (cell + META_DATA_SIZE, st') ∧
    brk st' = cell + META_DATA_SIZE + SIZE_ALIGN size ∧
    heap_list st' = Some (if decide (m_status mc = STATUS_FREE) then l1 ++ [c]
                          else (l1 ++ [c]) ++ [brk st]) ∧
    hdr st' !! cell
    = Some (Block (SIZE_ALIGN size) STATUS_ALLOC
                  (if decide (m_status mc = STATUS_FREE) then m_prev mc else c)
                  block_head_brk) ∧
    (∀ x, x ≠ cell → data_kept (hdr st) (hdr st') x) ∧
    maps st' = maps st ∧ trace st' = trace st.
Proof.
  intros Hr Hmc Hsize Hnofit Hroom cell.
  destruct (increase_heap_spec _ _ _ _ _ Hr Hmc Hsize Hnofit Hroom)
    as (f & Hrun & Hr' & Hcell & Hk & _).
  eexists. split; [exact Hrun|]. split_and!; try done.
  by apply heap_repr_list.
Qed.

Lemma increase_heap_places_break_witness :
  ∃ st',
    increase_heap 131000 freed_state
    = Some ((if decide (m_status (Block 130672 STATUS_FREE 1048712 4128) = STATUS_FREE)
             then 1048944 else brk freed_state) + META_DATA_SIZE, st') ∧
    brk st'
    = (if decide (m_status (Block 130672 STATUS_FREE 1048712 4128) = STATUS_FREE)
       then 1048944 else brk freed_state) + META_DATA_SIZE + SIZE_ALIGN 131000 ∧
    heap_list st'
    = Some (if decide (m_status (Block 130672 STATUS_FREE 1048712 4128) = STATUS_FREE)
            then [1048576; 1048712] ++ [1048944]
            else ([1048576; 1048712] ++ [1048944]) ++ [brk freed_state]) ∧
    hdr st' !! (if decide (m_status (Block 130672 STATUS_FREE 1048712 4128) = STATUS_FREE)
                then 1048944 else brk freed_state)
    = Some (Block (SIZE_ALIGN 131000) STATUS_ALLOC
                  (if decide (m_status (Block 130672 STATUS_FREE 1048712 4128)
                              = STATUS_FREE)
                   then m_prev (Block 130672 STATUS_FREE 1048712 4128) else 1048944)
                  block_head_brk) ∧
    (∀ x, x ≠ (if decide (m_status (Block 130672 STATUS_FREE 1048712 4128) = STATUS_FREE)
               then 1048944 else brk freed_state) →
          data_kept (hdr freed_state) (hdr st') x) ∧
    maps st' = maps freed_state ∧ trace st' = trace freed_state.
Proof.
  apply (increase_heap_places_break freed_state [1048576; 1048712] 1048944 131000
           (Block 130672 STATUS_FREE 1048712 4128)).
  - exact freed_state_repr.
  - reflexivity.
  - by vm_compute.
  - intros _. by vm_compute.
  - by vm_compute.
Defined.

(** ** [os_realloc]: growing into the FREE cells behind the block *)




(** ** The first request; the invariant *)




(** X16.  [os_malloc] keeps the allocator's invariant.  On a state whose
    heap is unused or well formed, whose mapped sentinel is in place, and
    with room left in the address space, every request returns: [NULL]
    exactly for a request of 0 bytes, and otherwise a pointer whose header
    records the aligned size, which is at least the size asked for.  The
    state it leaves satisfies the invariant again, and the break has not
    moved down. *)
Theorem os_malloc_keeps_invariant (st : state) (size : Z) :
  heap_ok st → mmap_ok st → room size st → 0 ≤ size →
  ∃ p st',
    os_malloc size st = Some (p, st') ∧
    heap_ok st' ∧ mmap_ok st' ∧
    (p = NULL ↔ size = 0) ∧
    brk st ≤ brk st' ∧
    (size ≠ 0 → ∃ m, header_of st' p = Some m ∧
                     m_size m = SIZE_ALIGN size ∧ size ≤ m_size m).
Proof.
  intros Hok Hmap [Hroom1 Hroom2] Hsize. pose proof META_DATA_SIZE_eq as HM.
  assert (Hsa : size ≤ SIZE_ALIGN size < size + 8).
  { pose proof Hmap as (_ & _ & _ & Hn).
    apply SIZE_ALIGN_bounds. unfold ADDR_MAX, BRK_MAX in *. lia. }
  unfold os_malloc. destruct (decide (size = 0)) as [->|Hnz].
  { exists NULL, st. by split_and!. }
  destruct (decide (BRK_LIMIT ≤ size)) as [Hbig|Hsmall].
  - destruct (add_meta_cell_mmap_ok st size Hmap Hsize Hroom2)
      as (st' & Hrun & Hh & Hb & _).
    destruct (add_meta_cell_mmap_preserves _ _ _ _ Hok Hmap Hsize Hroom2 Hrun) as [Hok' Hmap'].
    pose proof Hmap as (_ & _ & _ & Hn).
    assert (Hcell : mmap_next st ≠ block_head_mmap).
    { unfold block_head_mmap, BRK_MAX in *. lia. }
    exists (mmap_next st + META_DATA_SIZE), st'. split_and!; try done.
    + split; [|done]. unfold NULL, BRK_MAX in *. lia.
    + lia.
    + intros _. eexists. unfold header_of.
      replace (mmap_next st + META_DATA_SIZE - META_DATA_SIZE) with (mmap_next st) by lia.
      rewrite Hh, lookup_insert_ne, lookup_insert_eq by done.
      split_and!; [done|done|]. cbn [m_size]. lia.
  - assert (∃ cell f b l' m,
      heap_alloc size st = Some (cell + META_DATA_SIZE, set_hdr f (set_brk b st)) ∧
      heap_repr (set_hdr f (set_brk b st)) l' ∧
      cell ∈ l' ∧ f (hdr st) !! cell = Some m ∧
      m_size m = SIZE_ALIGN size ∧ brk st ≤ b ∧
      (∀ x, outside_heap x → f (hdr st) !! x = hdr st !! x))
      as (cell & f & b & l' & m & Hrun & Hr' & Hcell & Hm & Hms & Hb & Hfr).
    { destruct Hok as [Hfresh|(l & Hne & Hr)].
      - destruct (heap_alloc_fresh_spec st size Hfresh)
          as (cell & f & b & l' & m & ? & ? & ? & ? & ? & _ & ? & ?); [lia|done|].
        by exists cell, f, b, l', m.
      - destruct (heap_alloc_spec st l size Hr Hne)
          as (cell & f & b & l' & m & ? & ? & ? & ? & ? & _ & ? & _ & ?);
          [lia|unfold BRK_LIMIT in *; lia|].
        by exists cell, f, b, l', m. }
    exists (cell + META_DATA_SIZE), (set_hdr f (set_brk b st)). split_and!; try done.
    + right. exists l'. split; [|done]. intros ->. set_solver.
    + destruct Hmap as (hm & Hh & Hz & Hn). exists hm. hsimpl. split_and!; try done.
      rewrite Hfr; [done|apply outside_head_mmap].
    + split; [|done]. intros Hp.
      destruct (heap_repr_above _ _ _ Hr' Hcell) as [Hlo _]. revert Hlo.
      unfold heap_lo, block_head_mmap, sizeof_block_meta, NULL in *. lia.
    + intros _. exists m. unfold header_of.
      replace (cell + META_DATA_SIZE - META_DATA_SIZE) with cell by lia.
      split_and!; [done|done|lia].
Qed.

Lemma os_malloc_keeps_invariant_witness :
  ∃ p st',
    os_malloc 100 initial_state = Some (p, st') ∧
    heap_ok st' ∧ mmap_ok st' ∧
    (p = NULL ↔ 100 = 0) ∧
    brk initial_state ≤ brk st' ∧
    (100 ≠ 0 → ∃ m, header_of st' p = Some m ∧
                    m_size m = SIZE_ALIGN 100 ∧ 100 ≤ m_size m).
Proof.
  apply (os_malloc_keeps_invariant initial_state 100).
  - exact initial_heap_ok.
  - exact initial_mmap_ok.
  - apply initial_room. lia.
  - lia.
Defined.

(** ** A heap whose blocks have all been freed *)


